(** * wa-leg-mcp: the roll-call tool and the client shim behind it

    A shallow embedding of [src/wa_leg_mcp/tools/roll_call_tools.py] and of
    [WSLClient.get_roll_calls] from [src/wa_leg_mcp/clients/wsl_client.py],
    with the properties of the specification proved about it.

    Python objects are modelled by their JSON fragment (None, bool, int, str,
    list, dict with string keys); a str is a [string] whose characters are the
    code points below 256.  Exceptions are explicit: a computation yields
    [Return v] or [Raise e].  The calls made to the client are recorded in a
    trace, so that "the shim is called with ..." is a statement about the
    result of the function.  Of the logging, what can change the outcome is
    modelled: the message of a log line is an f-string that is formatted
    before it is logged, and formatting an int or an exception can raise. *)

From Stdlib Require Import String Ascii ZArith NArith List Bool Lia.
From Stdlib Require Import DecimalString DecimalZ DecimalN DecimalNat.
From Stdlib Require DecimalFacts.
From Stdlib Require Import Permutation Sorted.
Import ListNotations.

Open Scope string_scope.
Open Scope Z_scope.

(** ** Python: exceptions and results *)

Module Py.

(** The exception classes that the two [except] clauses of the tool tell
    apart.  [Exception_] stands for any other subclass of [Exception],
    [BaseException_] for the classes outside [Exception]
    (KeyboardInterrupt, SystemExit, GeneratorExit). *)
Inductive exc_class :=
| ValueError
| TypeError
| AttributeError
| IndexError
| Exception_
| BaseException_.

(** An exception object: its class and what [str(e)] does.  [Exn c s] has the
    message [s]; [str] of [Unprintable c raised] raises [raised], as that of
    [Exception(10**5000)] does under the limit on int/str conversions, or
    that of an exception whose [__str__] fails. *)
Inductive exn :=
| Exn (cls : exc_class) (message : string)
| Unprintable (cls : exc_class) (raised : exn).

Definition exn_class (e : exn) : exc_class :=
  match e with
  | Exn cls _ => cls
  | Unprintable cls _ => cls
  end.

Definition isinstance_ValueError (e : exn) : bool :=
  match exn_class e with ValueError => true | _ => false end.

Definition isinstance_Exception (e : exn) : bool :=
  match exn_class e with BaseException_ => false | _ => true end.

Inductive result (A : Type) :=
| Return (a : A)
| Raise (e : exn).
Arguments Return {A} a.
Arguments Raise {A} e.

(** [str(e)], which an f-string field [{e}] evaluates too. *)
Definition exn_str (e : exn) : result string :=
  match e with
  | Exn _ message => Return message
  | Unprintable _ raised => Raise raised
  end.

Definition rbind {A B} (r : result A) (k : A -> result B) : result B :=
  match r with
  | Return a => k a
  | Raise e => Raise e
  end.

Notation "x <- r ;; k" := (rbind r (fun x => k))
  (at level 61, r at next level, right associativity).

Fixpoint mapM {A B} (f : A -> result B) (l : list A) : result (list B) :=
  match l with
  | [] => Return []
  | x :: xs => y <- f x ;; ys <- mapM f xs ;; Return (y :: ys)
  end.

(** ** Python: characters and strings *)

Definition ord (c : ascii) : N := N_of_ascii c.

(** [Py_UNICODE_ISSPACE]: TAB..CR, FS..US and SPACE, then NEL and NBSP. *)
Definition isspace (c : ascii) : bool :=
  let n := ord c in
  ((9 <=? n) && (n <=? 13) || (28 <=? n) && (n <=? 32)
   || (n =? 133) || (n =? 160))%N.

(** The decimal digits: 0 to 9 are the only ones below 256. *)
Definition isdecimal (c : ascii) : bool :=
  let n := ord c in ((48 <=? n) && (n <=? 57))%N.

(** [str.isdigit] on one character: the decimal digits and the characters of
    numeric type Digit, here the superscripts two, three and one. *)
Definition isdigit (c : ascii) : bool :=
  let n := ord c in
  (isdecimal c || (n =? 178) || (n =? 179) || (n =? 185))%N.

Definition digit_value (c : ascii) : Z := Z.of_N (ord c) - 48.

(** [str.isprintable] on one character, used by [repr]. *)
Definition isprintable (c : ascii) : bool :=
  let n := ord c in
  ((32 <=? n) && (n <=? 126) || (161 <=? n) && negb (n =? 173))%N.

Fixpoint str_in (c : ascii) (s : string) : bool :=
  match s with
  | EmptyString => false
  | String a s' => Ascii.eqb a c || str_in c s'
  end.

Fixpoint str_filter (p : ascii -> bool) (s : string) : string :=
  match s with
  | EmptyString => EmptyString
  | String a s' => if p a then String a (str_filter p s') else str_filter p s'
  end.

Definition str_empty (s : string) : bool :=
  match s with EmptyString => true | _ => false end.

Fixpoint lstrip (s : string) : string :=
  match s with
  | EmptyString => EmptyString
  | String a s' => if isspace a then lstrip s' else s
  end.

Fixpoint rstrip (s : string) : string :=
  match s with
  | EmptyString => EmptyString
  | String a s' =>
      match rstrip s' with
      | EmptyString => if isspace a then EmptyString else String a EmptyString
      | r => String a r
      end
  end.

(** [s.strip()] *)
Definition strip (s : string) : string := rstrip (lstrip s).

(** [s.split()]: the maximal runs of non-whitespace characters, in order.
    [tok] is the run being read, if one has been started. *)
Fixpoint split_from (tok : option string) (s : string) : list string :=
  match s with
  | EmptyString => match tok with Some t => [t] | None => [] end
  | String a s' =>
      if isspace a then
        match tok with
        | Some t => t :: split_from None s'
        | None => split_from None s'
        end
      else
        match tok with
        | Some t => split_from (Some (t ++ String a EmptyString)) s'
        | None => split_from (Some (String a EmptyString)) s'
        end
  end.

Definition split (s : string) : list string := split_from None s.

(** [l[-1]] *)
Definition index_last {A} (l : list A) : result A :=
  match List.rev l with
  | x :: _ => Return x
  | [] => Raise (Exn IndexError "list index out of range")
  end.

(** ** Python: int <-> str conversion *)

(** [sys.int_max_str_digits]: the limit is switched off (0, and every
    interpreter before 3.11) or it is at least 640; 4300 is the default. *)
Inductive int_limit :=
| Unlimited
| Limited (above_640 : nat).

Definition default_limit : int_limit := Limited 3660.

Definition max_str_digits (lim : int_limit) : option nat :=
  match lim with
  | Unlimited => None
  | Limited k => Some (640 + k)%nat
  end.

Definition over_limit (lim : int_limit) (digits : nat) : bool :=
  match max_str_digits lim with
  | None => false
  | Some m => (m <? digits)%nat
  end.

Definition nat_str (n : nat) : string :=
  NilZero.string_of_uint (Nat.to_uint n).

Definition limit_str (lim : int_limit) : string :=
  match max_str_digits lim with
  | None => "0"
  | Some m => nat_str m
  end.

(** [repr] of a str: it is quoted with the apostrophe, unless the string has
    an apostrophe and no double quote; the quote and the backslash are escaped
    and so are the unprintable characters. *)
Definition hex_digit (n : N) : ascii :=
  if (n <? 10)%N then ascii_of_N (48 + n) else ascii_of_N (87 + n).

Definition dquote : ascii := "034"%char.
Definition squote : ascii := "039"%char.
Definition backslash : ascii := "092"%char.

Definition escape_char (quote : ascii) (c : ascii) : string :=
  if Ascii.eqb c quote || Ascii.eqb c backslash then String backslash (String c EmptyString)
  else if Ascii.eqb c "009"%char then String backslash "t"
  else if Ascii.eqb c "010"%char then String backslash "n"
  else if Ascii.eqb c "013"%char then String backslash "r"
  else if isprintable c then String c EmptyString
  else String backslash
         (String "x" (String (hex_digit (ord c / 16)%N)
                        (String (hex_digit (ord c mod 16)%N) EmptyString))).

Fixpoint escape_str (quote : ascii) (s : string) : string :=
  match s with
  | EmptyString => EmptyString
  | String a s' => escape_char quote a ++ escape_str quote s'
  end.

Definition repr_str (s : string) : string :=
  let quote := if str_in squote s && negb (str_in dquote s) then dquote else squote in
  String quote (escape_str quote s ++ String quote EmptyString).

(** The number of decimal digits at the start of [s]. *)
Fixpoint decimal_run (s : string) : nat :=
  match s with
  | EmptyString => O
  | String a s' => if isdecimal a then S (decimal_run s') else O
  end.

Fixpoint decimal_value (acc : Z) (s : string) : option Z :=
  match s with
  | EmptyString => Some acc
  | String a s' =>
      if isdecimal a then decimal_value (10 * acc + digit_value a) s' else None
  end.

Definition invalid_literal (s : string) : exn :=
  Exn ValueError
    ("invalid literal for int() with base 10: " ++ substring 0 200 (repr_str s)).

Definition exceeds_to_int (lim : int_limit) (digits : nat) : exn :=
  Exn ValueError
    ("Exceeds the limit (" ++ limit_str lim
     ++ " digits) for integer string conversion: value has " ++ nat_str digits
     ++ " digits; use sys.set_int_max_str_digits() to increase the limit").

Definition exceeds_to_str (lim : int_limit) : exn :=
  Exn ValueError
    ("Exceeds the limit (" ++ limit_str lim
     ++ " digits) for integer string conversion; "
     ++ "use sys.set_int_max_str_digits() to increase the limit").

(** [int(s)] for a string [s] of [isdigit] characters, which is all the tool
    passes to it: no sign, blank or underscore to deal with.  The digits are
    read up to the first character that is not a decimal digit; their number
    is checked against the limit before that character is rejected. *)
Definition int_of_digits (lim : int_limit) (s : string) : result Z :=
  let n := decimal_run s in
  if (n =? 0)%nat then Raise (invalid_literal s)
  else if over_limit lim n then Raise (exceeds_to_int lim n)
  else match decimal_value 0 s with
       | Some z => Return z
       | None => Raise (invalid_literal s)
       end.

(** [str(z)] for an int. *)
Definition int_digits (z : Z) : string :=
  NilZero.string_of_uint (N.to_uint (Z.abs_N z)).

Definition str_of_int (lim : int_limit) (z : Z) : result string :=
  let d := int_digits z in
  if over_limit lim (String.length d) then Raise (exceeds_to_str lim)
  else Return (if z <? 0 then String "-" d else d).

(** ** Python: objects *)

#[warnings="-register-all"] Inductive value :=
| VNone
| VBool (b : bool)
| VInt (z : Z)
| VStr (s : string)
| VList (l : list value)
| VDict (d : list (string * value)).

(** A dict is the list of its items, in insertion order; a key is looked up
    from the front.  The dicts written below have distinct keys. *)
Fixpoint lookup (k : string) (d : list (string * value)) : option value :=
  match d with
  | [] => None
  | (k', v) :: d' => if String.eqb k' k then Some v else lookup k d'
  end.

(** [d[k] = v] *)
Fixpoint dict_set (k : string) (v : value) (d : list (string * value)) :
  list (string * value) :=
  match d with
  | [] => [(k, v)]
  | (k', v') :: d' =>
      if String.eqb k' k then (k', v) :: d' else (k', v') :: dict_set k v d'
  end.

Definition type_name (v : value) : string :=
  match v with
  | VNone => "NoneType"
  | VBool _ => "bool"
  | VInt _ => "int"
  | VStr _ => "str"
  | VList _ => "list"
  | VDict _ => "dict"
  end.

(** [bool(v)] *)
Definition truthy (v : value) : bool :=
  match v with
  | VNone => false
  | VBool b => b
  | VInt z => negb (z =? 0)
  | VStr s => negb (str_empty s)
  | VList l => match l with [] => false | _ => true end
  | VDict d => match d with [] => false | _ => true end
  end.

(** [v.get(k, default)] *)
Definition get (v : value) (k : string) (default : value) : result value :=
  match v with
  | VDict d => Return (match lookup k d with Some x => x | None => default end)
  | _ => Raise (Exn AttributeError
                  ("'" ++ type_name v ++ "' object has no attribute 'get'"))
  end.

(** [len(v)] *)
Definition len (v : value) : result Z :=
  match v with
  | VStr s => Return (Z.of_nat (String.length s))
  | VList l => Return (Z.of_nat (List.length l))
  | VDict d => Return (Z.of_nat (List.length d))
  | _ => Raise (Exn TypeError
                  ("object of type '" ++ type_name v ++ "' has no len()"))
  end.

Fixpoint chars (s : string) : list value :=
  match s with
  | EmptyString => []
  | String a s' => VStr (String a EmptyString) :: chars s'
  end.

(** The items that [for x in v] goes through. *)
Definition iter (v : value) : result (list value) :=
  match v with
  | VList l => Return l
  | VDict d => Return (map (fun kv => VStr (fst kv)) d)
  | VStr s => Return (chars s)
  | _ => Raise (Exn TypeError ("'" ++ type_name v ++ "' object is not iterable"))
  end.

Fixpoint join (sep : string) (l : list string) : string :=
  match l with
  | [] => EmptyString
  | [x] => x
  | x :: xs => x ++ sep ++ join sep xs
  end.

(** [repr(v)] *)
Fixpoint repr (lim : int_limit) (v : value) : result string :=
  match v with
  | VNone => Return "None"
  | VBool b => Return (if b then "True" else "False")
  | VInt z => str_of_int lim z
  | VStr s => Return (repr_str s)
  | VList l =>
      rs <- (fix items (l : list value) : result (list string) :=
               match l with
               | [] => Return []
               | x :: xs => r <- repr lim x ;; rs <- items xs ;; Return (r :: rs)
               end) l ;;
      Return ("[" ++ join ", " rs ++ "]")
  | VDict d =>
      rs <- (fix items (d : list (string * value)) : result (list string) :=
               match d with
               | [] => Return []
               | (k, x) :: d' =>
                   r <- repr lim x ;; rs <- items d' ;;
                   Return ((repr_str k ++ ": " ++ r) :: rs)
               end) d ;;
      Return ("{" ++ join ", " rs ++ "}")
  end.

(** [str(v)] *)
Definition str (lim : int_limit) (v : value) : result string :=
  match v with
  | VStr s => Return s
  | _ => repr lim v
  end.

(** The number that a bool or an int stands for in a comparison. *)
Definition number (v : value) : option Z :=
  match v with
  | VBool b => Some (if b then 1 else 0)
  | VInt z => Some z
  | _ => None
  end.

(** [a == b] *)
Fixpoint py_eq (a b : value) : bool :=
  match a with
  | VNone => match b with VNone => true | _ => false end
  | VBool _ | VInt _ =>
      match number a, number b with
      | Some x, Some y => x =? y
      | _, _ => false
      end
  | VStr s => match b with VStr t => String.eqb s t | _ => false end
  | VList l =>
      match b with
      | VList m =>
          (fix eq_items (l m : list value) : bool :=
             match l, m with
             | [], [] => true
             | x :: xs, y :: ys => py_eq x y && eq_items xs ys
             | _, _ => false
             end) l m
      | _ => false
      end
  | VDict d =>
      match b with
      | VDict e =>
          (List.length d =? List.length e)%nat
          && (fix eq_items (d : list (string * value)) : bool :=
                match d with
                | [] => true
                | (k, x) :: d' =>
                    match lookup k e with
                    | Some y => py_eq x y
                    | None => false
                    end && eq_items d'
                end) d
      | _ => false
      end
  end.

Definition not_supported (op : string) (a b : value) : exn :=
  Exn TypeError
    ("'" ++ op ++ "' not supported between instances of '" ++ type_name a
     ++ "' and '" ++ type_name b ++ "'").

(** [a < b] *)
Fixpoint py_lt (a b : value) : result bool :=
  match a with
  | VList l =>
      match b with
      | VList m =>
          (fix lt_items (l m : list value) : result bool :=
             match l, m with
             | [], [] => Return false
             | [], _ :: _ => Return true
             | _ :: _, [] => Return false
             | x :: xs, y :: ys =>
                 if py_eq x y then lt_items xs ys else py_lt x y
             end) l m
      | _ => Raise (not_supported "<" a b)
      end
  | VStr s =>
      match b with
      | VStr t => Return (String.ltb s t)
      | _ => Raise (not_supported "<" a b)
      end
  | _ =>
      match number a, number b with
      | Some x, Some y => Return (x <? y)
      | _, _ => Raise (not_supported "<" a b)
      end
  end.

(** [l.sort(key=...)]: a stable sort that compares the keys with [<] only
    and makes no comparison on fewer than two items.  It is written as an
    insertion sort; when [<] orders the keys every stable sort returns the
    same list.  [insert] and [sort_keyed] give no list when a comparison
    fails.  The sort then raises the TypeError of the failing comparison that
    CPython meets first, which depends on its merge strategy: its message is
    [sort_error keys], a function that the interpreter determines. *)
Fixpoint insert (x : value * value) (l : list (value * value)) :
  option (list (value * value)) :=
  match l with
  | [] => Some [x]
  | y :: ys =>
      match py_lt (fst y) (fst x) with
      | Return true =>
          match insert x ys with
          | Some r => Some (y :: r)
          | None => None
          end
      | Return false => Some (x :: l)
      | Raise _ => None
      end
  end.

Fixpoint sort_keyed (l : list (value * value)) : option (list (value * value)) :=
  match l with
  | [] => Some []
  | x :: xs =>
      match sort_keyed xs with
      | Some s => insert x s
      | None => None
      end
  end.

Definition list_sort (sort_error : list value -> string)
  (key : value -> result value) (l : list value) : result (list value) :=
  keyed <- mapM (fun x => k <- key x ;; Return (k, x)) l ;;
  match sort_keyed keyed with
  | Some sorted => Return (map snd sorted)
  | None => Raise (Exn TypeError (sort_error (map fst keyed)))
  end.

End Py.
Import Py.

(** ** The client: [src/wa_leg_mcp/clients/wsl_client.py] *)

Module WSLClient.

(** [WSLClient.get_roll_calls], lines 317-333; [api_get_roll_calls] is the
    function of that name of the wa_leg_api library, which the method calls.
    The handler formats the message of its log line, line 332, before it
    returns None: [bill_number] is an int, whose conversion is subject to
    the interpreter's limit [lim], and [{e}] is [str(e)].  An exception
    raised there leaves the method. *)
Definition get_roll_calls (lim : int_limit)
  (api_get_roll_calls : string -> Z -> result value)
  (biennium : string) (bill_number : Z) : result value :=
  let try_block :=
    result <- api_get_roll_calls biennium bill_number ;;
    if truthy result then get result "array_of_roll_call" (VList [])
    else Return VNone in
  match try_block with
  | Return v => Return v
  | Raise e =>
      if isinstance_Exception e then
        number <- str_of_int lim bill_number ;;
        error <- exn_str e ;;
        let message := "Failed to get roll calls for bill " ++ number
                       ++ " in " ++ biennium ++ ": " ++ error in
        Return VNone
      else Raise e
  end.

End WSLClient.

(** ** The tool: [src/wa_leg_mcp/tools/roll_call_tools.py] *)

Module roll_call_tools.

(** What the module gets from outside: the interpreter's limit on int/str
    conversions and the message of its [list.sort] when a comparison fails,
    [get_current_biennium] of utils.formatters and the method
    [get_roll_calls] of the module-level [wsl_client], which the tests
    replace by mocks that return anything or raise. *)
Record world := World {
  int_max_str_digits : int_limit;
  list_sort_error : list value -> string;
  get_current_biennium : result string;
  wsl_client_get_roll_calls : string -> Z -> result value
}.

(** A call [wsl_client.get_roll_calls(biennium, bill_number)]. *)
Inductive event :=
| Fetch (biennium : string) (bill_number : Z).

(** A computation: the calls it made, and how it ended. *)
Definition M (A : Type) : Type := list event * result A.

Definition ret {A} (a : A) : M A := ([], Return a).

Definition lift {A} (r : result A) : M A := ([], r).

Definition bind {A B} (m : M A) (k : A -> M B) : M B :=
  match m with
  | (t, Return a) => let (t', r) := k a in ((t ++ t')%list, r)
  | (t, Raise e) => (t, Raise e)
  end.

Notation "x <~ m ;; k" := (bind m (fun x => k))
  (at level 61, m at next level, right associativity).

Definition call_client (w : world) (biennium : string) (bill_num : Z) : M value :=
  ([Fetch biennium bill_num], wsl_client_get_roll_calls w biennium bill_num).

(** Lines 134-140: one entry of [votes_list]. *)
Definition format_vote (lim : int_limit) (vote : value) : result value :=
  name <- get vote "name" (VStr EmptyString) ;;
  vote_value <- get vote "vote_value" (VStr EmptyString) ;;
  district <- get vote "district" (VStr EmptyString) ;;
  district <- str lim district ;;
  party <- get vote "party" (VStr EmptyString) ;;
  Return (VDict [("legislator_name", name);
                 ("vote", vote_value);
                 ("district", VStr district);
                 ("party", party)]).

(** Lines 127-132: the vote entries of a payload. *)
Definition votes_array_of (votes_data : value) : result value :=
  match votes_data with
  | VDict _ => get votes_data "array_of_vote" (VList [])
  | VList _ => Return votes_data
  | _ => Return (VList [])
  end.

(** Lines 116-151: the body of the loop over [roll_calls_data]. *)
Definition format_roll_call (lim : int_limit) (roll_call : value) : result value :=
  yea_count <- get roll_call "yea_count" (VInt 0) ;;
  nay_count <- get roll_call "nay_count" (VInt 0) ;;
  absent_count <- get roll_call "absent_count" (VInt 0) ;;
  excused_count <- get roll_call "excused_count" (VInt 0) ;;
  votes_data <- get roll_call "votes" (VDict []) ;;
  votes_array <- votes_array_of votes_data ;;
  votes <- iter votes_array ;;
  votes_list <- mapM (format_vote lim) votes ;;
  sequence_number <- get roll_call "sequence_number" (VInt 0) ;;
  date <- get roll_call "vote_date" (VStr EmptyString) ;;
  description <- get roll_call "motion" (VStr EmptyString) ;;
  Return (VDict [("sequence_number", sequence_number);
                 ("date", date);
                 ("description", description);
                 ("yea_votes", yea_count);
                 ("nay_votes", nay_count);
                 ("absent_votes", absent_count);
                 ("excused_votes", excused_count);
                 ("votes", VList votes_list)]).

(** Line 154: the sort key. *)
Definition sort_key (x : value) : result value := get x "sequence_number" (VInt 0).

(** Lines 113-154: [formatted_roll_calls], built and sorted. *)
Definition formatted_roll_calls (lim : int_limit) (sort_error : list value -> string)
  (roll_calls_data : value) : result (list value) :=
  items <- iter roll_calls_data ;;
  formatted <- mapM (format_roll_call lim) items ;;
  list_sort sort_error sort_key formatted.

(** Lines 71-77: the digits of the bill number. *)
Definition bill_digits (bill_number : string) : result string :=
  let bill_num_str := strip bill_number in
  bill_num_str <-
    (if str_in " " bill_num_str then index_last (split bill_num_str)
     else Return bill_num_str) ;;
  Return (str_filter isdigit bill_num_str).

(** Lines 66-68. *)
Definition resolve_biennium (w : world) (biennium : option string) : result string :=
  match biennium with
  | Some b => if str_empty b then get_current_biennium w else Return b
  | None => get_current_biennium w
  end.

(** Line 98: [not roll_calls_data or len(roll_calls_data) == 0]. *)
Definition no_roll_calls (roll_calls_data : value) : result bool :=
  if negb (truthy roll_calls_data) then Return true
  else n <- len roll_calls_data ;; Return (n =? 0).

(** Line 92: the message of the log line, formatted before the fetch. *)
Definition fetching_message (lim : int_limit) (bill_num : Z) (biennium : string) :
  result string :=
  number <- str_of_int lim bill_num ;;
  Return ("Fetching roll calls for bill " ++ number ++ " in biennium " ++ biennium).

(** Lines 66-167: the body of the [try]. *)
Definition try_block (w : world) (bill_number : string) (biennium : option string) :
  M value :=
  biennium <~ lift (resolve_biennium w biennium) ;;
  bill_num_str <~ lift (bill_digits bill_number) ;;
  if str_empty bill_num_str then
    ret (VDict [("success", VBool false);
                ("error", VStr ("Invalid bill number format: " ++ bill_number
                                ++ ". Expected format: 'HB 1234', 'SB 5678', or '1234'"));
                ("error_type", VStr "validation");
                ("metadata", VDict [("tool_name", VStr "get_roll_calls");
                                    ("api_call", VStr "GetRollCalls")])])
  else
    bill_num <~ lift (int_of_digits (int_max_str_digits w) bill_num_str) ;;
    message <~ lift (fetching_message (int_max_str_digits w) bill_num biennium) ;;
    roll_calls_data <~ call_client w biennium bill_num ;;
    empty <~ lift (no_roll_calls roll_calls_data) ;;
    if (empty : bool) then
      ret (VDict [("success", VBool true);
                  ("data", VDict [("bill_number", VStr bill_number);
                                  ("biennium", VStr biennium);
                                  ("roll_calls", VList [])]);
                  ("metadata",
                   VDict [("message", VStr ("No roll calls found for bill " ++ bill_number
                                            ++ " in biennium " ++ biennium));
                          ("api_call", VStr "GetRollCalls")])])
    else
      formatted_roll_calls <~
        lift (formatted_roll_calls (int_max_str_digits w) (list_sort_error w)
                roll_calls_data) ;;
      ret (VDict [("success", VBool true);
                  ("data", VDict [("bill_number", VStr bill_number);
                                  ("biennium", VStr biennium);
                                  ("roll_calls", VList formatted_roll_calls)]);
                  ("metadata",
                   VDict [("api_call", VStr "GetRollCalls");
                          ("count", VInt (Z.of_nat (List.length formatted_roll_calls)))])]).

(** [get_roll_calls]: the [try] with its two handlers.  The first formats
    [bill_number] only, a str.  The second evaluates [str(e)], on line 181
    for its log line and on line 184 for the envelope: an exception raised
    there leaves the function, and so does one that neither handler takes. *)
Definition get_roll_calls (w : world) (bill_number : string) (biennium : option string) :
  M value :=
  match try_block w bill_number biennium with
  | (t, Return v) => (t, Return v)
  | (t, Raise e) =>
      if isinstance_ValueError e then
        (t, Return (VDict [("success", VBool false);
                           ("error", VStr ("Invalid bill number: " ++ bill_number
                                           ++ ". Must be a valid number."));
                           ("error_type", VStr "validation");
                           ("metadata", VDict [("tool_name", VStr "get_roll_calls");
                                               ("api_call", VStr "GetRollCalls")])]))
      else if isinstance_Exception e then
        (t, error <- exn_str e ;;
            Return (VDict [("success", VBool false);
                           ("error", VStr ("Failed to fetch roll calls: " ++ error));
                           ("error_type", VStr "unexpected");
                           ("metadata", VDict [("tool_name", VStr "get_roll_calls");
                                               ("api_call", VStr "GetRollCalls")])]))
      else (t, Raise e)
  end.

End roll_call_tools.
Import roll_call_tools.

(** ** What the specification talks about *)

(** The bill number that lines 71-90 compute, if they compute one. *)
Definition parsed_bill_number (lim : int_limit) (bill_number : string) : option Z :=
  match bill_digits bill_number with
  | Return ds =>
      if str_empty ds then None
      else match int_of_digits lim ds with
           | Return n => Some n
           | Raise _ => None
           end
  | Raise _ => None
  end.

(** The reference canonicalization, after the words of the specification:
    trim the input; if the trimmed string contains a space take the last
    whitespace-delimited token; strip every non-digit character; parse the
    result as an integer. *)
Module Spec.

Fixpoint drop_while (p : ascii -> bool) (l : list ascii) : list ascii :=
  match l with
  | [] => []
  | a :: l' => if p a then drop_while p l' else l
  end.

Fixpoint take_while (p : ascii -> bool) (l : list ascii) : list ascii :=
  match l with
  | [] => []
  | a :: l' => if p a then a :: take_while p l' else []
  end.

Definition trim (l : list ascii) : list ascii :=
  List.rev (drop_while isspace (List.rev (drop_while isspace l))).

(** The longest suffix without whitespace. *)
Definition last_token (l : list ascii) : list ascii :=
  List.rev (take_while (fun a => negb (isspace a)) (List.rev l)).

Definition candidate (l : list ascii) : list ascii :=
  let t := trim l in
  if existsb (fun a => Ascii.eqb a " ") t then last_token t else t.

Definition integer (lim : int_limit) (ds : list ascii) : option Z :=
  match ds with
  | [] => None
  | _ =>
      if forallb isdecimal ds && negb (over_limit lim (List.length ds))
      then Some (fold_left (fun acc a => 10 * acc + digit_value a) ds 0)
      else None
  end.

Definition canonical_bill_number (lim : int_limit) (bill_number : string) : option Z :=
  integer lim (filter isdigit (candidate (list_ascii_of_string bill_number))).

End Spec.

(** The envelopes of the specification. *)
Definition error_metadata : value :=
  VDict [("tool_name", VStr "get_roll_calls"); ("api_call", VStr "GetRollCalls")].

Definition error_envelope (error_type message : string) : value :=
  VDict [("success", VBool false);
         ("error", VStr message);
         ("error_type", VStr error_type);
         ("metadata", error_metadata)].

Definition invalid_format_envelope (bill_number : string) : value :=
  error_envelope "validation"
    ("Invalid bill number format: " ++ bill_number
     ++ ". Expected format: 'HB 1234', 'SB 5678', or '1234'").

Definition invalid_number_envelope (bill_number : string) : value :=
  error_envelope "validation"
    ("Invalid bill number: " ++ bill_number ++ ". Must be a valid number.").

Definition unexpected_envelope (message : string) : value :=
  error_envelope "unexpected" ("Failed to fetch roll calls: " ++ message).

Definition data_of (bill_number biennium : string) (roll_calls : list value) : value :=
  VDict [("bill_number", VStr bill_number);
         ("biennium", VStr biennium);
         ("roll_calls", VList roll_calls)].

Definition empty_envelope (bill_number biennium : string) : value :=
  VDict [("success", VBool true);
         ("data", data_of bill_number biennium []);
         ("metadata",
          VDict [("message", VStr ("No roll calls found for bill " ++ bill_number
                                   ++ " in biennium " ++ biennium));
                 ("api_call", VStr "GetRollCalls")])].

Definition success_envelope (bill_number biennium : string) (roll_calls : list value) :
  value :=
  VDict [("success", VBool true);
         ("data", data_of bill_number biennium roll_calls);
         ("metadata",
          VDict [("api_call", VStr "GetRollCalls");
                 ("count", VInt (Z.of_nat (List.length roll_calls)))])].

Definition has_key (k : string) (d : list (string * value)) : bool :=
  match lookup k d with Some _ => true | None => false end.

(** The envelope invariant: [success] and [metadata] are there, [metadata]
    is a mapping with [api_call]; either [data] is there, [error] is not and
    [success] is true, or [error] is a non-empty string, [data] is not there
    and [success] is false. *)
Definition envelope_ok (v : value) : bool :=
  match v with
  | VDict d =>
      match lookup "success" d, lookup "metadata" d with
      | Some (VBool ok), Some (VDict m) =>
          has_key "api_call" m
          && match lookup "data" d, lookup "error" d with
             | Some _, None => ok
             | None, Some (VStr message) => negb ok && negb (str_empty message)
             | _, _ => false
             end
      | _, _ => false
      end
  | _ => false
  end.

(** The sequence number of an assembled record, when it is an int. *)
Definition sequence_number (r : value) : option Z :=
  match sort_key r with
  | Return (VInt z) => Some z
  | _ => None
  end.

Definition has_sequence_number (z : Z) (r : value) : bool :=
  match sequence_number r with
  | Some z' => z' =? z
  | None => false
  end.

Definition sequence_le (x y : value) : Prop :=
  exists a b, sequence_number x = Some a /\ sequence_number y = Some b /\ a <= b.

Definition is_mapping (v : value) : bool :=
  match v with VDict _ => true | _ => false end.

Definition is_sequence (v : value) : bool :=
  match v with VList _ => true | _ => false end.

(** ** Inputs used in the examples *)

Definition superscript_two : string := String "178" EmptyString.

Definition smith_vote : value :=
  VDict [("name", VStr "Smith, John"); ("vote_value", VStr "Yea");
         ("district", VInt 1); ("party", VStr "D")].

Definition final_passage : value :=
  VDict [("sequence_number", VInt 1); ("vote_date", VStr "2023-03-15");
         ("motion", VStr "Final Passage");
         ("yea_count", VInt 65); ("nay_count", VInt 33);
         ("absent_count", VInt 0); ("excused_count", VInt 0);
         ("votes", VDict [("array_of_vote", VList [smith_vote])])].

Definition final_passage_out : value :=
  VDict [("sequence_number", VInt 1); ("date", VStr "2023-03-15");
         ("description", VStr "Final Passage");
         ("yea_votes", VInt 65); ("nay_votes", VInt 33);
         ("absent_votes", VInt 0); ("excused_votes", VInt 0);
         ("votes", VList [VDict [("legislator_name", VStr "Smith, John");
                                 ("vote", VStr "Yea");
                                 ("district", VStr "1");
                                 ("party", VStr "D")]])].

(** A reading of the bill: the record of the test of the ordering. *)
Definition reading (seq : Z) (date motion : string) : value :=
  VDict [("sequence_number", VInt seq); ("vote_date", VStr date);
         ("motion", VStr motion);
         ("yea_count", VInt 70); ("nay_count", VInt 28);
         ("absent_count", VInt 0); ("excused_count", VInt 0);
         ("votes", VDict [("array_of_vote", VList [])])].

Definition reading_out (seq : Z) (date motion : string) : value :=
  VDict [("sequence_number", VInt seq); ("date", VStr date);
         ("description", VStr motion);
         ("yea_votes", VInt 70); ("nay_votes", VInt 28);
         ("absent_votes", VInt 0); ("excused_votes", VInt 0);
         ("votes", VList [])].

(** A failed sort of the examples: they sort by ints, which can be compared,
    so that no message is asked for. *)
Definition no_sort_error (keys : list value) : string := EmptyString.

(** A world whose client answers every call with [answer]. *)
Definition world_of (answer : result value) : world :=
  World default_limit no_sort_error (Return "2025-26") (fun _ _ => answer).

(** ** The other methods of the client

    Every method of [WSLClient] has the body of [get_roll_calls]: it calls
    the function of the wa_leg_api library, takes one key out of the answer
    and, in the handler of [Exception], formats the message of a log line
    and returns None.  [unwrap] is that body, given the outcome of the call
    and the f-string of the log line; [method] lists the methods with their
    arguments, [response_key] and [default] give the key and the default that
    each one passes to [result.get], and [log_message] its f-string. *)

Module Methods.

(** A piece of an f-string: literal text, a str argument, an int argument
    or the caught exception [e]. *)
Inductive piece :=
| Lit (text : string)
| FStr (argument : string)
| FInt (argument : Z)
| FExn.

(** Formatting an int is [str] of it, under the limit on conversions;
    formatting [e] is [str(e)]. *)
Definition format_piece (lim : int_limit) (e : exn) (p : piece) : result string :=
  match p with
  | Lit text => Return text
  | FStr argument => Return argument
  | FInt argument => str_of_int lim argument
  | FExn => exn_str e
  end.

(** The pieces are formatted from left to right. *)
Fixpoint format (lim : int_limit) (e : exn) (pieces : list piece) : result string :=
  match pieces with
  | [] => Return EmptyString
  | p :: pieces' =>
      s <- format_piece lim e p ;;
      rest <- format lim e pieces' ;;
      Return (s ++ rest)
  end.

(** The body of the [try]. *)
Definition try_block (key : string) (default : value) (call : result value) :
  result value :=
  result <- call ;;
  if truthy result then get result key default else Return VNone.

(** The [try] with its handler: an exception raised while the message of the
    log line is formatted leaves the method. *)
Definition unwrap (lim : int_limit) (log : list piece) (key : string) (default : value)
  (call : result value) : result value :=
  match try_block key default call with
  | Return v => Return v
  | Raise e =>
      if isinstance_Exception e then
        message <- format lim e log ;;
        Return VNone
      else Raise e
  end.

(** A call of a method that passes its arguments on as they are; the library
    function has the name of the method. *)
Inductive method :=
| get_legislation (biennium : string) (bill_number : string)
| get_legislation_by_year (year : string)
| get_committees (biennium : string)
| get_committee_meetings (begin_date : string) (end_date : string)
| get_sponsors (biennium : string)
| get_amendments (year : string)
| get_documents (biennium : string) (bill_number : string)
| get_roll_calls (biennium : string) (bill_number : Z)
| get_amendments_for_biennium (biennium : string) (bill_number : Z)
| get_amendments_for_year (year : Z) (bill_number : Z)
| get_hearings (biennium : string) (bill_number : Z)
| get_rcw_cites_affected (biennium : string) (bill_id : string)
| get_session_law_by_bill (biennium : string) (bill_number : Z)
| get_session_law_by_bill_id (biennium : string) (bill_id : string)
| get_bill_by_chapter_number (year : Z) (session : Z) (chapter_number : Z)
| get_chapter_numbers_by_year (year : Z)
| get_session_law_by_initiative_number (initiative_number : Z)
| get_legislation_governor_signed (biennium : string) (agency : string)
| get_legislation_governor_veto (biennium : string) (agency : string)
| get_legislation_governor_partial_veto (biennium : string) (agency : string)
| get_committee_executive_actions_by_bill (biennium : string) (bill_number : Z)
| get_committee_referrals_by_bill (biennium : string) (bill_number : Z)
| get_committee_referrals_by_committee (biennium : string) (agency : string) (committee_name : string)
| get_do_pass_by_committee (biennium : string) (agency : string) (committee_name : string)
| get_in_committee (biennium : string) (agency : string) (committee_name : string)
| get_active_committees
| get_active_house_committees
| get_active_senate_committees
| get_active_committee_members (agency : string) (committee_name : string)
| get_committee_members (biennium : string) (agency : string) (committee_name : string)
| get_house_committees (biennium : string)
| get_senate_committees (biennium : string)
| get_house_sponsors (biennium : string)
| get_senate_sponsors (biennium : string)
| get_requesters (biennium : string)
| get_legislation_passed_house (biennium : string)
| get_legislation_passed_senate (biennium : string)
| get_legislation_passed_legislature (biennium : string)
| get_prefiled_legislation
| get_document_classes (biennium : string)
| get_all_documents_by_class (biennium : string) (document_class : string)
| get_documents_by_class (biennium : string) (document_class : string) (name_filter : string)
| get_legislation_types
| get_legislation_by_request_number (biennium : string) (request_number : string)
| get_committee_meeting_items (agenda_id : Z).

Definition response_key (m : method) : string :=
  match m with
  | get_legislation _ _ => "array_of_legislation"
  | get_legislation_by_year _ => "array_of_legislation_info"
  | get_committees _ => "array_of_committee"
  | get_committee_meetings _ _ => "array_of_committee_meeting"
  | get_sponsors _ => "array_of_member"
  | get_amendments _ => "array_of_amendment"
  | get_documents _ _ => "array_of_legislative_document"
  | get_roll_calls _ _ => "array_of_roll_call"
  | get_amendments_for_biennium _ _ => "array_of_amendment"
  | get_amendments_for_year _ _ => "array_of_amendment"
  | get_hearings _ _ => "array_of_committee_meeting"
  | get_rcw_cites_affected _ _ => "array_of_rcw_cite"
  | get_session_law_by_bill _ _ => "session_law"
  | get_session_law_by_bill_id _ _ => "session_law"
  | get_bill_by_chapter_number _ _ _ => "legislation"
  | get_chapter_numbers_by_year _ => "array_of_session_law"
  | get_session_law_by_initiative_number _ => "session_law"
  | get_legislation_governor_signed _ _ => "array_of_legislation_info"
  | get_legislation_governor_veto _ _ => "array_of_legislation_info"
  | get_legislation_governor_partial_veto _ _ => "array_of_legislation_info"
  | get_committee_executive_actions_by_bill _ _ => "array_of_committee_executive_action"
  | get_committee_referrals_by_bill _ _ => "array_of_committee_referral"
  | get_committee_referrals_by_committee _ _ _ => "array_of_committee_referral"
  | get_do_pass_by_committee _ _ _ => "array_of_legislation_info"
  | get_in_committee _ _ _ => "array_of_legislation_info"
  | get_active_committees => "array_of_committee"
  | get_active_house_committees => "array_of_committee"
  | get_active_senate_committees => "array_of_committee"
  | get_active_committee_members _ _ => "array_of_member"
  | get_committee_members _ _ _ => "array_of_member"
  | get_house_committees _ => "array_of_committee"
  | get_senate_committees _ => "array_of_committee"
  | get_house_sponsors _ => "array_of_member"
  | get_senate_sponsors _ => "array_of_member"
  | get_requesters _ => "array_of_requester"
  | get_legislation_passed_house _ => "array_of_legislation_info"
  | get_legislation_passed_senate _ => "array_of_legislation_info"
  | get_legislation_passed_legislature _ => "array_of_legislation_info"
  | get_prefiled_legislation => "array_of_legislation"
  | get_document_classes _ => "array_of_document_class"
  | get_all_documents_by_class _ _ => "array_of_legislative_document"
  | get_documents_by_class _ _ _ => "array_of_legislative_document"
  | get_legislation_types => "array_of_legislation_type"
  | get_legislation_by_request_number _ _ => "legislation"
  | get_committee_meeting_items _ => "array_of_committee_meeting_item"
  end.

Definition default (m : method) : value :=
  match m with
  | get_legislation _ _ => VList []
  | get_legislation_by_year _ => VList []
  | get_committees _ => VList []
  | get_committee_meetings _ _ => VList []
  | get_sponsors _ => VList []
  | get_amendments _ => VList []
  | get_documents _ _ => VList []
  | get_roll_calls _ _ => VList []
  | get_amendments_for_biennium _ _ => VList []
  | get_amendments_for_year _ _ => VList []
  | get_hearings _ _ => VList []
  | get_rcw_cites_affected _ _ => VList []
  | get_session_law_by_bill _ _ => VNone
  | get_session_law_by_bill_id _ _ => VNone
  | get_bill_by_chapter_number _ _ _ => VNone
  | get_chapter_numbers_by_year _ => VList []
  | get_session_law_by_initiative_number _ => VNone
  | get_legislation_governor_signed _ _ => VList []
  | get_legislation_governor_veto _ _ => VList []
  | get_legislation_governor_partial_veto _ _ => VList []
  | get_committee_executive_actions_by_bill _ _ => VList []
  | get_committee_referrals_by_bill _ _ => VList []
  | get_committee_referrals_by_committee _ _ _ => VList []
  | get_do_pass_by_committee _ _ _ => VList []
  | get_in_committee _ _ _ => VList []
  | get_active_committees => VList []
  | get_active_house_committees => VList []
  | get_active_senate_committees => VList []
  | get_active_committee_members _ _ => VList []
  | get_committee_members _ _ _ => VList []
  | get_house_committees _ => VList []
  | get_senate_committees _ => VList []
  | get_house_sponsors _ => VList []
  | get_senate_sponsors _ => VList []
  | get_requesters _ => VList []
  | get_legislation_passed_house _ => VList []
  | get_legislation_passed_senate _ => VList []
  | get_legislation_passed_legislature _ => VList []
  | get_prefiled_legislation => VList []
  | get_document_classes _ => VList []
  | get_all_documents_by_class _ _ => VList []
  | get_documents_by_class _ _ _ => VList []
  | get_legislation_types => VList []
  | get_legislation_by_request_number _ _ => VNone
  | get_committee_meeting_items _ => VList []
  end.

(** The message of the log line of the handler of each method: its f-string,
    with the arguments and the exception that it formats. *)
Definition log_message (m : method) : list piece :=
  match m with
  | get_legislation biennium bill_number =>
      [Lit "Failed to get legislation "; FStr bill_number; Lit " for "; FStr biennium;
       Lit ": "; FExn]
  | get_legislation_by_year year =>
      [Lit "Failed to get legislation for year "; FStr year; Lit ": "; FExn]
  | get_committees biennium =>
      [Lit "Failed to get committees for "; FStr biennium; Lit ": "; FExn]
  | get_committee_meetings begin_date end_date =>
      [Lit "Failed to get committee meetings from "; FStr begin_date; Lit " to ";
       FStr end_date; Lit ": "; FExn]
  | get_sponsors biennium =>
      [Lit "Failed to get sponsors for "; FStr biennium; Lit ": "; FExn]
  | get_amendments year =>
      [Lit "Failed to get amendments in "; FStr year; Lit ": "; FExn]
  | get_documents biennium bill_number =>
      [Lit "Failed to get documents for "; FStr bill_number; Lit " in "; FStr biennium;
       Lit ": "; FExn]
  | get_roll_calls biennium bill_number =>
      [Lit "Failed to get roll calls for bill "; FInt bill_number; Lit " in "; FStr biennium;
       Lit ": "; FExn]
  | get_amendments_for_biennium biennium bill_number =>
      [Lit "Failed to get amendments for bill "; FInt bill_number; Lit " in biennium ";
       FStr biennium; Lit ": "; FExn]
  | get_amendments_for_year year bill_number =>
      [Lit "Failed to get amendments for bill "; FInt bill_number; Lit " in year "; FInt year;
       Lit ": "; FExn]
  | get_hearings biennium bill_number =>
      [Lit "Failed to get hearings for bill "; FInt bill_number; Lit " in "; FStr biennium;
       Lit ": "; FExn]
  | get_rcw_cites_affected biennium bill_id =>
      [Lit "Failed to get RCW cites for "; FStr bill_id; Lit " in "; FStr biennium; Lit ": "; FExn]
  | get_session_law_by_bill biennium bill_number =>
      [Lit "Failed to get session law for bill "; FInt bill_number; Lit " in "; FStr biennium;
       Lit ": "; FExn]
  | get_session_law_by_bill_id biennium bill_id =>
      [Lit "Failed to get session law for "; FStr bill_id; Lit " in "; FStr biennium; Lit ": ";
       FExn]
  | get_bill_by_chapter_number year session chapter_number =>
      [Lit "Failed to get bill for chapter "; FInt chapter_number; Lit " in year "; FInt year;
       Lit " session "; FInt session; Lit ": "; FExn]
  | get_chapter_numbers_by_year year =>
      [Lit "Failed to get chapter numbers for year "; FInt year; Lit ": "; FExn]
  | get_session_law_by_initiative_number initiative_number =>
      [Lit "Failed to get session law for initiative "; FInt initiative_number; Lit ": "; FExn]
  | get_legislation_governor_signed biennium agency =>
      [Lit "Failed to get governor signed bills for "; FStr agency; Lit " in "; FStr biennium;
       Lit ": "; FExn]
  | get_legislation_governor_veto biennium agency =>
      [Lit "Failed to get governor vetoed bills for "; FStr agency; Lit " in "; FStr biennium;
       Lit ": "; FExn]
  | get_legislation_governor_partial_veto biennium agency =>
      [Lit "Failed to get governor partially vetoed bills for "; FStr agency; Lit " in ";
       FStr biennium; Lit ": "; FExn]
  | get_committee_executive_actions_by_bill biennium bill_number =>
      [Lit "Failed to get committee executive actions for bill "; FInt bill_number; Lit " in ";
       FStr biennium; Lit ": "; FExn]
  | get_committee_referrals_by_bill biennium bill_number =>
      [Lit "Failed to get committee referrals for bill "; FInt bill_number; Lit " in ";
       FStr biennium; Lit ": "; FExn]
  | get_committee_referrals_by_committee biennium _ committee_name =>
      [Lit "Failed to get committee referrals for "; FStr committee_name; Lit " in ";
       FStr biennium; Lit ": "; FExn]
  | get_do_pass_by_committee biennium _ committee_name =>
      [Lit "Failed to get do pass bills for "; FStr committee_name; Lit " in "; FStr biennium;
       Lit ": "; FExn]
  | get_in_committee biennium _ committee_name =>
      [Lit "Failed to get bills in committee "; FStr committee_name; Lit " in "; FStr biennium;
       Lit ": "; FExn]
  | get_active_committees =>
      [Lit "Failed to get active committees: "; FExn]
  | get_active_house_committees =>
      [Lit "Failed to get active House committees: "; FExn]
  | get_active_senate_committees =>
      [Lit "Failed to get active Senate committees: "; FExn]
  | get_active_committee_members _ committee_name =>
      [Lit "Failed to get active members for "; FStr committee_name; Lit ": "; FExn]
  | get_committee_members biennium _ committee_name =>
      [Lit "Failed to get committee members for "; FStr committee_name; Lit " in ";
       FStr biennium; Lit ": "; FExn]
  | get_house_committees biennium =>
      [Lit "Failed to get House committees for "; FStr biennium; Lit ": "; FExn]
  | get_senate_committees biennium =>
      [Lit "Failed to get Senate committees for "; FStr biennium; Lit ": "; FExn]
  | get_house_sponsors biennium =>
      [Lit "Failed to get House sponsors for "; FStr biennium; Lit ": "; FExn]
  | get_senate_sponsors biennium =>
      [Lit "Failed to get Senate sponsors for "; FStr biennium; Lit ": "; FExn]
  | get_requesters biennium =>
      [Lit "Failed to get requesters for "; FStr biennium; Lit ": "; FExn]
  | get_legislation_passed_house biennium =>
      [Lit "Failed to get House-passed bills for "; FStr biennium; Lit ": "; FExn]
  | get_legislation_passed_senate biennium =>
      [Lit "Failed to get Senate-passed bills for "; FStr biennium; Lit ": "; FExn]
  | get_legislation_passed_legislature biennium =>
      [Lit "Failed to get legislature-passed bills for "; FStr biennium; Lit ": "; FExn]
  | get_prefiled_legislation =>
      [Lit "Failed to get prefiled legislation: "; FExn]
  | get_document_classes biennium =>
      [Lit "Failed to get document classes for "; FStr biennium; Lit ": "; FExn]
  | get_all_documents_by_class biennium document_class =>
      [Lit "Failed to get documents for class "; FStr document_class; Lit " in ";
       FStr biennium; Lit ": "; FExn]
  | get_documents_by_class biennium document_class name_filter =>
      [Lit "Failed to get documents for class "; FStr document_class; Lit " with filter ";
       FStr name_filter; Lit " in "; FStr biennium; Lit ": "; FExn]
  | get_legislation_types =>
      [Lit "Failed to get legislation types: "; FExn]
  | get_legislation_by_request_number biennium request_number =>
      [Lit "Failed to get legislation by request number "; FStr request_number; Lit " in ";
       FStr biennium; Lit ": "; FExn]
  | get_committee_meeting_items agenda_id =>
      [Lit "Failed to get meeting items for agenda "; FInt agenda_id; Lit ": "; FExn]
  end.

(** [client.m(...)], the library being [api]. *)
Definition invoke (lim : int_limit) (api : method -> result value) (m : method) :
  result value :=
  unwrap lim (log_message m) (response_key m) (default m) (api m).

(** The three methods that take dates parse them with
    [datetime.fromisoformat] before the call. *)
Section Dates.

Variable datetime : Type.
Variable fromisoformat : string -> result datetime.
Variable lim : int_limit.

Definition get_legislation_reported_out_of_committee
  (api : string -> string -> datetime -> datetime -> result value)
  (committee_name agency begin_date end_date : string) : result value :=
  unwrap lim
    [Lit "Failed to get bills reported out of "; FStr committee_name;
     Lit " from "; FStr begin_date; Lit " to "; FStr end_date; Lit ": "; FExn]
    "array_of_legislation_info" (VList [])
    (begin_dt <- fromisoformat begin_date ;;
     end_dt <- fromisoformat end_date ;;
     api committee_name agency begin_dt end_dt).

Definition get_legislative_status_changes
  (api : string -> datetime -> datetime -> result value)
  (biennium begin_date end_date : string) : result value :=
  unwrap lim
    [Lit "Failed to get status changes for "; FStr biennium;
     Lit " from "; FStr begin_date; Lit " to "; FStr end_date; Lit ": "; FExn]
    "array_of_legislative_status_change" (VList [])
    (begin_dt <- fromisoformat begin_date ;;
     end_dt <- fromisoformat end_date ;;
     api biennium begin_dt end_dt).

Definition get_revised_committee_meetings
  (api : datetime -> result value) (since_date : string) : result value :=
  unwrap lim [Lit "Failed to get revised meetings since "; FStr since_date; Lit ": "; FExn]
    "array_of_committee_meeting" (VList [])
    (since_dt <- fromisoformat since_date ;; api since_dt).

End Dates.

End Methods.

(** The tool with the client as it is shipped: [wsl_client] is a
    [WSLClient], over the library function [api]. *)
Definition shipped (lim : int_limit) (sort_error : list value -> string)
  (current : result string) (api : string -> Z -> result value) : world :=
  World lim sort_error current (WSLClient.get_roll_calls lim api).

(** ** Notions used in the proofs *)

Definition nonspace (a : ascii) : bool := negb (isspace a).

Fixpoint ends_nonspace (s : string) : bool :=
  match s with
  | EmptyString => false
  | String a s' =>
      match s' with
      | EmptyString => nonspace a
      | _ => ends_nonspace s'
      end
  end.

Definition token_so_far (tok : option string) : string :=
  match tok with Some t => t | None => EmptyString end.

Definition to_option {A} (r : result A) : option A :=
  match r with Return a => Some a | Raise _ => None end.

(** The two handlers: the second needs [str(e)]. *)
Definition handle (bill_number : string) (e : exn) : result value :=
  if isinstance_ValueError e then Return (invalid_number_envelope bill_number)
  else if isinstance_Exception e then
    error <- exn_str e ;; Return (unexpected_envelope error)
  else Raise e.

(** An exception as the built-in operations raise them: an instance of
    [Exception] that has a message. *)
Definition built_in (e : exn) : bool :=
  match e with
  | Exn cls _ => match cls with BaseException_ => false | _ => true end
  | Unprintable _ _ => false
  end.

Definition exc_only {A} (r : result A) : Prop :=
  match r with
  | Return _ => True
  | Raise e => built_in e = true
  end.

(** The exception [e] is raised by one of the two collaborators: by the
    resolver, when it is asked for the biennium, or by the client, in the
    call that the tool makes. *)
Definition collaborator_raises
  (w : world) (bill_number : string) (biennium : option string) (e : exn) : Prop :=
  resolve_biennium w biennium = Raise e
  \/ exists b n,
       resolve_biennium w biennium = Return b
       /\ parsed_bill_number (int_max_str_digits w) bill_number = Some n
       /\ wsl_client_get_roll_calls w b n = Raise e.

(** The exception [e] comes out of the fetch or of the normalization of
    what was fetched. *)
Definition pipeline_raises (w : world) (b : string) (n : Z) (e : exn) : Prop :=
  wsl_client_get_roll_calls w b n = Raise e
  \/ exists data,
       wsl_client_get_roll_calls w b n = Return data
       /\ (no_roll_calls data = Raise e
           \/ (no_roll_calls data = Return false
               /\ formatted_roll_calls (int_max_str_digits w) (list_sort_error w) data
                  = Raise e)).

Definition key_int (kv : value * value) : Z :=
  match fst kv with VInt z => z | _ => 0 end.

Definition key_le (x y : value * value) : Prop := key_int x <= key_int y.

Definition key_is (z : Z) (kv : value * value) : bool := key_int kv =? z.

(** A record paired with its sort key, the key being an int. *)
Definition keyed (kv : value * value) : Prop :=
  exists z, fst kv = VInt z /\ sort_key (snd kv) = Return (VInt z).

Definition with_key (x : value) : value * value :=
  (match sort_key x with Return k => k | Raise _ => VNone end, x).

Definition three_readings : list value :=
  [reading 3 "2023-03-20" "Third Reading";
   reading 1 "2023-03-15" "First Reading";
   reading 2 "2023-03-18" "Second Reading"].

Definition three_readings_out : list value :=
  [reading_out 3 "2023-03-20" "Third Reading";
   reading_out 1 "2023-03-15" "First Reading";
   reading_out 2 "2023-03-18" "Second Reading"].

(** A result that is no [ValueError]: a value, or another instance of
    [Exception], raised by a built-in operation. *)
Definition no_value_error {A} (r : result A) : Prop :=
  match r with
  | Return _ => True
  | Raise e => isinstance_ValueError e = false /\ built_in e = true
  end.

(** ** Strings as lists of characters *)

Section StringsAsLists.

Local Abbreviation la := list_ascii_of_string.

Lemma la_inj (s t : string) : la s = la t -> s = t.
Proof.
  intros H.
  rewrite <- (string_of_list_ascii_of_string s), <- (string_of_list_ascii_of_string t).
  now rewrite H.
Qed.

Lemma str_empty_la (s : string) :
  str_empty s = match la s with [] => true | _ => false end.
Proof. now destruct s. Qed.

Lemma str_filter_la (p : ascii -> bool) (s : string) :
  la (str_filter p s) = filter p (la s).
Proof.
  induction s as [|a s IH]; simpl; [reflexivity|].
  destruct (p a); simpl; now rewrite IH.
Qed.

Lemma str_in_la (c : ascii) (s : string) :
  str_in c s = existsb (fun a => Ascii.eqb a c) (la s).
Proof. induction s as [|a s IH]; simpl; [reflexivity | now rewrite IH]. Qed.

Lemma forallb_rev' {A} (p : A -> bool) (l : list A) :
  forallb p (List.rev l) = forallb p l.
Proof.
  induction l as [|a l IH]; simpl; [reflexivity|].
  rewrite forallb_app, IH; simpl. rewrite andb_true_r. apply andb_comm.
Qed.

Lemma drop_while_snoc (p : ascii -> bool) (l : list ascii) (a : ascii) :
  Spec.drop_while p (l ++ [a]) =
  if forallb p l then (if p a then [] else [a])
  else (Spec.drop_while p l ++ [a])%list.
Proof.
  induction l as [|b l IH]; simpl; [reflexivity|].
  destruct (p b); simpl; [exact IH | reflexivity].
Qed.

Lemma take_while_snoc (p : ascii -> bool) (l : list ascii) (a : ascii) :
  Spec.take_while p (l ++ [a]) =
  if forallb p l then (l ++ if p a then [a] else [])%list
  else Spec.take_while p l.
Proof.
  induction l as [|b l IH]; simpl; [reflexivity|].
  destruct (p b); simpl; [|reflexivity].
  rewrite IH. now destruct (forallb p l).
Qed.

Lemma lstrip_la (s : string) : la (lstrip s) = Spec.drop_while isspace (la s).
Proof.
  induction s as [|a s IH]; simpl; [reflexivity|].
  now destruct (isspace a).
Qed.

Lemma rstrip_empty (s : string) : str_empty (rstrip s) = forallb isspace (la s).
Proof.
  induction s as [|a s IH]; simpl; [reflexivity|].
  destruct (rstrip s); simpl in *.
  - rewrite <- IH, andb_true_r. now destruct (isspace a).
  - rewrite <- IH. now rewrite andb_false_r.
Qed.

Lemma rstrip_la (s : string) :
  la (rstrip s) = List.rev (Spec.drop_while isspace (List.rev (la s))).
Proof.
  induction s as [|a s IH]; simpl; [reflexivity|].
  rewrite drop_while_snoc, forallb_rev', <- rstrip_empty.
  destruct (rstrip s) as [|b r] eqn:E; simpl.
  - now destruct (isspace a).
  - rewrite rev_app_distr. simpl. now rewrite <- IH.
Qed.

Lemma strip_la (s : string) : la (strip s) = Spec.trim (la s).
Proof. unfold strip, Spec.trim. now rewrite rstrip_la, lstrip_la. Qed.

Lemma rstrip_ends (s : string) : ends_nonspace (rstrip s) = negb (str_empty (rstrip s)).
Proof.
  induction s as [|a s IH]; simpl; [reflexivity|].
  destruct (rstrip s) as [|b r] eqn:E.
  - destruct (isspace a) eqn:Ea; simpl; unfold nonspace; rewrite ?Ea; reflexivity.
  - exact IH.
Qed.

Lemma last_token_cons (a : ascii) (l : list ascii) :
  Spec.last_token (a :: l) =
  if forallb nonspace l then (if nonspace a then a :: l else l)
  else Spec.last_token l.
Proof.
  unfold Spec.last_token. simpl List.rev.
  fold nonspace. rewrite take_while_snoc, forallb_rev'.
  destruct (forallb nonspace l); [|reflexivity].
  rewrite rev_app_distr, rev_involutive.
  now destruct (nonspace a).
Qed.

Lemma index_last_cons {A} (x y : A) (l : list A) :
  index_last l = Return x -> index_last (y :: l) = Return x.
Proof.
  unfold index_last. simpl List.rev.
  destruct (List.rev l) as [|z r]; simpl; [discriminate | trivial].
Qed.

Lemma append_assoc' (s t u : string) : (s ++ t) ++ u = s ++ (t ++ u).
Proof. induction s as [|a s IH]; simpl; [reflexivity | now rewrite IH]. Qed.

(** The last item of [split]: when no whitespace is left it is the run being
    read with the rest of the string, else the last token of the rest. *)
Lemma split_from_last (s : string) :
  ends_nonspace s = true ->
  forall tok,
    index_last (split_from tok s) =
    Return (if forallb nonspace (la s) then token_so_far tok ++ s
            else string_of_list_ascii (Spec.last_token (la s))).
Proof.
  induction s as [|a s IH]; [discriminate|].
  intros Hend tok. destruct s as [|b s'].
  - simpl in Hend. unfold nonspace in Hend.
    apply negb_true_iff in Hend.
    cbn [split_from la forallb]. rewrite Hend. unfold nonspace at 1. rewrite Hend. cbn.
    destruct tok; reflexivity.
  - assert (Hs : ends_nonspace (String b s') = true) by exact Hend.
    specialize (IH Hs).
    change (la (String a (String b s'))) with (a :: la (String b s')).
    rewrite (last_token_cons a (la (String b s'))).
    cbn [forallb].
    assert (Ha : nonspace a = negb (isspace a)) by reflexivity. rewrite !Ha.
    change (split_from tok (String a (String b s'))) with
      (if isspace a then
         match tok with
         | Some t => t :: split_from None (String b s')
         | None => split_from None (String b s')
         end
       else
         match tok with
         | Some t => split_from (Some (t ++ String a EmptyString)) (String b s')
         | None => split_from (Some (String a EmptyString)) (String b s')
         end).
    destruct (isspace a) eqn:Ea; cbn [negb andb].
    + pose proof (IH None) as H0. cbn [token_so_far append] in H0.
      assert (Hx : index_last (split_from None (String b s')) =
                   Return (if forallb nonspace (la (String b s'))
                           then String b s'
                           else string_of_list_ascii (Spec.last_token (la (String b s'))))).
      { rewrite H0. now destruct (forallb nonspace (la (String b s'))). }
      assert (Hy : (if forallb nonspace (la (String b s'))
                    then String b s'
                    else string_of_list_ascii (Spec.last_token (la (String b s')))) =
                   string_of_list_ascii
                     (if forallb nonspace (la (String b s'))
                      then la (String b s') else Spec.last_token (la (String b s')))).
      { destruct (forallb nonspace (la (String b s')));
          [now rewrite string_of_list_ascii_of_string | reflexivity]. }
      rewrite Hy in Hx.
      destruct tok; [now apply index_last_cons | exact Hx].
    + destruct tok as [t|].
      * rewrite (IH (Some (t ++ String a EmptyString))). cbn [token_so_far].
        destruct (forallb nonspace (la (String b s'))); [|reflexivity].
        now rewrite append_assoc'.
      * rewrite (IH (Some (String a EmptyString))). cbn [token_so_far].
        destruct (forallb nonspace (la (String b s'))); reflexivity.
Qed.

Lemma existsb_space (l : list ascii) :
  existsb (fun a => Ascii.eqb a " ") l = true -> forallb nonspace l = false.
Proof.
  induction l as [|a l IH]; simpl; [discriminate|].
  destruct (Ascii.eqb a " ") eqn:E; simpl.
  - apply Ascii.eqb_eq in E. subst a. reflexivity.
  - intros H. rewrite (IH H). apply andb_false_r.
Qed.

(** Lines 71-77 never fail, and compute the digits of the candidate. *)
Lemma bill_digits_spec (bill_number : string) :
  bill_digits bill_number =
  Return (string_of_list_ascii (filter isdigit (Spec.candidate (la bill_number)))).
Proof.
  unfold bill_digits, Spec.candidate.
  rewrite <- strip_la, <- str_in_la.
  destruct (str_in " " (strip bill_number)) eqn:E.
  - assert (Hne : str_empty (strip bill_number) = false).
    { destruct (strip bill_number); [discriminate | reflexivity]. }
    assert (Hend : ends_nonspace (strip bill_number) = true).
    { unfold strip in *. rewrite rstrip_ends, Hne. reflexivity. }
    unfold split. rewrite (split_from_last _ Hend None).
    rewrite str_in_la in E. rewrite (existsb_space _ E). cbn [rbind].
    f_equal. apply la_inj.
    now rewrite str_filter_la, !list_ascii_of_string_of_list_ascii.
  - cbn [rbind]. f_equal. apply la_inj.
    now rewrite str_filter_la, list_ascii_of_string_of_list_ascii.
Qed.

End StringsAsLists.

(** ** Parsing the digits *)

Section Digits.

Local Abbreviation la := list_ascii_of_string.
Local Abbreviation horner := (fun acc a => 10 * acc + digit_value a).

Lemma decimal_run_all (s : string) :
  forallb isdecimal (la s) = true -> decimal_run s = List.length (la s).
Proof.
  induction s as [|a s IH]; simpl; [reflexivity|].
  destruct (isdecimal a); simpl; [|discriminate].
  intros H. now rewrite IH.
Qed.

Lemma decimal_value_all (s : string) :
  forallb isdecimal (la s) = true ->
  forall acc, decimal_value acc s = Some (fold_left horner (la s) acc).
Proof.
  induction s as [|a s IH]; simpl; [reflexivity|].
  destruct (isdecimal a); simpl; [|discriminate].
  intros H acc. now rewrite IH.
Qed.

Lemma decimal_value_some (s : string) :
  forall acc n, decimal_value acc s = Some n -> forallb isdecimal (la s) = true.
Proof.
  induction s as [|a s IH]; simpl; [reflexivity|].
  intros acc n. destruct (isdecimal a); simpl; [apply IH | discriminate].
Qed.

Lemma digit_value_range (a : ascii) : isdecimal a = true -> 0 <= digit_value a <= 9.
Proof.
  unfold isdecimal, digit_value. intros H. apply andb_true_iff in H.
  destruct H as [H1 H2]. apply N.leb_le in H1, H2. lia.
Qed.

Lemma decimal_value_nonneg (s : string) :
  forall acc n, 0 <= acc -> decimal_value acc s = Some n -> 0 <= n.
Proof.
  induction s as [|a s IH]; cbn [decimal_value]; intros acc n Hacc.
  - intros [= <-]. exact Hacc.
  - destruct (isdecimal a) eqn:Ha; [|discriminate].
    apply IH. pose proof (digit_value_range a Ha). lia.
Qed.

Lemma string_of_uint_decimal (d : Decimal.uint) :
  forallb isdecimal (la (NilEmpty.string_of_uint d)) = true.
Proof. induction d; simpl; [reflexivity | exact IHd ..]. Qed.

Lemma decimal_value_of_uint_acc (d : Decimal.uint) :
  forall p, decimal_value (Zpos p) (NilEmpty.string_of_uint d) =
            Some (Zpos (Pos.of_uint_acc d p)).
Proof.
  induction d; intros p; cbn [NilEmpty.string_of_uint Pos.of_uint_acc decimal_value];
    [reflexivity | ..];
    change (isdecimal _) with true; cbv iota;
    match goal with
    | |- decimal_value ?x _ = Some (Zpos (Pos.of_uint_acc _ ?q)) =>
        replace x with (Zpos q); [apply IHd|]
    end;
    match goal with
    | |- context [digit_value ?c] =>
        let v := eval vm_compute in (digit_value c) in
        change (digit_value c) with v
    end; lia.
Qed.

Lemma decimal_value_of_uint (d : Decimal.uint) :
  decimal_value 0 (NilEmpty.string_of_uint d) = Some (Z.of_N (Pos.of_uint d)).
Proof.
  induction d; cbn [NilEmpty.string_of_uint Pos.of_uint decimal_value];
    [reflexivity | ..];
    change (isdecimal _) with true; cbv iota;
    [exact IHd | apply (decimal_value_of_uint_acc d) ..].
Qed.

Lemma string_length_la (s : string) : String.length s = List.length (la s).
Proof. induction s as [|a s IH]; simpl; [reflexivity | now rewrite IH]. Qed.

Lemma over_limit_mono (lim : int_limit) (j k : nat) :
  (j <= k)%nat -> over_limit lim k = false -> over_limit lim j = false.
Proof.
  unfold over_limit. destruct (max_str_digits lim) as [m|]; [|reflexivity].
  intros H Hk. apply Nat.ltb_ge in Hk. apply Nat.ltb_ge. lia.
Qed.

Lemma decimal_string_of_uint (s : string) :
  forallb isdecimal (la s) = true -> exists d, NilEmpty.string_of_uint d = s.
Proof.
  induction s as [|a s IH]; simpl.
  - exists Decimal.Nil. reflexivity.
  - intros H. apply andb_true_iff in H. destruct H as [Ha Hs].
    destruct (IH Hs) as [d <-].
    destruct a as [[] [] [] [] [] [] [] []]; try discriminate Ha;
      first [ exists (Decimal.D0 d); reflexivity | exists (Decimal.D1 d); reflexivity
            | exists (Decimal.D2 d); reflexivity | exists (Decimal.D3 d); reflexivity
            | exists (Decimal.D4 d); reflexivity | exists (Decimal.D5 d); reflexivity
            | exists (Decimal.D6 d); reflexivity | exists (Decimal.D7 d); reflexivity
            | exists (Decimal.D8 d); reflexivity | exists (Decimal.D9 d); reflexivity ].
Qed.

Lemma length_string_of_uint (d : Decimal.uint) :
  String.length (NilEmpty.string_of_uint d) = Decimal.nb_digits d.
Proof. induction d; simpl; congruence. Qed.

(** [str] of a number has no more digits than the digits it was read from. *)
Lemma int_digits_length (s : string) (n : Z) :
  str_empty s = false -> decimal_value 0 s = Some n ->
  (String.length (int_digits n) <= String.length s)%nat.
Proof.
  intros Hne Hv. pose proof (decimal_value_some _ _ _ Hv) as Hall.
  destruct (decimal_string_of_uint s Hall) as [d <-].
  rewrite decimal_value_of_uint in Hv. injection Hv as <-.
  unfold int_digits. rewrite Zabs2N.id.
  change (Pos.of_uint d) with (N.of_uint d). rewrite DecimalN.Unsigned.to_of.
  assert (Hd : d <> Decimal.Nil) by (intros ->; discriminate Hne).
  pose proof (DecimalFacts.unorm_nonnil d) as Hu.
  pose proof (DecimalFacts.nb_digits_unorm d Hd) as Hle.
  assert (Hz : NilZero.string_of_uint (Decimal.unorm d)
               = NilEmpty.string_of_uint (Decimal.unorm d))
    by (destruct (Decimal.unorm d); [contradiction | reflexivity ..]).
  rewrite Hz, !length_string_of_uint. exact Hle.
Qed.

(** A number that [int] has read can be written: line 92 formats the
    message of its log line without fail. *)
Lemma parsed_number_fits (lim : int_limit) (s : string) (n : Z) :
  int_of_digits lim s = Return n ->
  0 <= n /\ over_limit lim (String.length (int_digits n)) = false.
Proof.
  unfold int_of_digits.
  destruct (decimal_run s =? 0)%nat eqn:Hrun; [discriminate|].
  destruct (over_limit lim (decimal_run s)) eqn:Hlim; [discriminate|].
  destruct (decimal_value 0 s) as [z|] eqn:Hz; [|discriminate].
  intros [= <-]. split; [apply (decimal_value_nonneg s 0 z); [lia | exact Hz]|].
  assert (Hne : str_empty s = false) by (destruct s; [discriminate | reflexivity]).
  rewrite (decimal_run_all _ (decimal_value_some _ _ _ Hz)), <- string_length_la in Hlim.
  exact (over_limit_mono _ _ _ (int_digits_length _ _ Hne Hz) Hlim).
Qed.

Lemma fetching_message_returns (lim : int_limit) (s : string) (n : Z) (biennium : string) :
  int_of_digits lim s = Return n ->
  exists message, fetching_message lim n biennium = Return message.
Proof.
  intros H. destruct (parsed_number_fits _ _ _ H) as [_ Hfit].
  unfold fetching_message, str_of_int. rewrite Hfit. cbn [rbind]. eauto.
Qed.

Lemma int_of_digits_spec (lim : int_limit) (s : string) :
  str_empty s = false -> to_option (int_of_digits lim s) = Spec.integer lim (la s).
Proof.
  intros Hne. unfold int_of_digits, Spec.integer.
  destruct s as [|a s]; [discriminate|].
  change (la (String a s)) with (a :: la s).
  set (l := a :: la s). change (a :: la s) with (la (String a s)) in l. subst l.
  destruct (forallb isdecimal (la (String a s))) eqn:Hall.
  - rewrite (decimal_run_all _ Hall), (decimal_value_all _ Hall).
    simpl List.length at 1. cbn [Nat.eqb].
    destruct (over_limit lim (List.length (la (String a s)))); reflexivity.
  - destruct (decimal_run (String a s) =? 0)%nat; [reflexivity|].
    destruct (over_limit lim (decimal_run (String a s))); [reflexivity|].
    destruct (decimal_value 0 (String a s)) as [n|] eqn:E; [|reflexivity].
    apply decimal_value_some in E. congruence.
Qed.

Lemma int_of_digits_raises (lim : int_limit) (s : string) (e : exn) :
  int_of_digits lim s = Raise e -> isinstance_ValueError e = true.
Proof.
  unfold int_of_digits.
  destruct (decimal_run s =? 0)%nat; [intros [= <-]; reflexivity|].
  destruct (over_limit lim (decimal_run s)); [intros [= <-]; reflexivity|].
  destruct (decimal_value 0 s); [discriminate | intros [= <-]; reflexivity].
Qed.

Lemma parsed_bill_number_spec (lim : int_limit) (bill_number : string) :
  parsed_bill_number lim bill_number = Spec.canonical_bill_number lim bill_number.
Proof.
  unfold parsed_bill_number, Spec.canonical_bill_number.
  rewrite bill_digits_spec.
  set (ds := filter isdigit (Spec.candidate (la bill_number))).
  destruct (str_empty (string_of_list_ascii ds)) eqn:E.
  - rewrite str_empty_la, list_ascii_of_string_of_list_ascii in E.
    destruct ds; [reflexivity | discriminate].
  - pose proof (int_of_digits_spec lim _ E) as H.
    rewrite list_ascii_of_string_of_list_ascii in H. rewrite <- H.
    now destruct (int_of_digits lim (string_of_list_ascii ds)).
Qed.

End Digits.

(** ** The tool, step by step *)

Lemma try_block_eq (w : world) (bill_number : string) (biennium : option string) :
  try_block w bill_number biennium =
  match resolve_biennium w biennium with
  | Raise e => ([], Raise e)
  | Return b =>
      match bill_digits bill_number with
      | Raise e => ([], Raise e)
      | Return ds =>
          if str_empty ds then ([], Return (invalid_format_envelope bill_number))
          else
            match int_of_digits (int_max_str_digits w) ds with
            | Raise e => ([], Raise e)
            | Return n =>
                match wsl_client_get_roll_calls w b n with
                | Raise e => ([Fetch b n], Raise e)
                | Return data =>
                    match no_roll_calls data with
                    | Raise e => ([Fetch b n], Raise e)
                    | Return true => ([Fetch b n], Return (empty_envelope bill_number b))
                    | Return false =>
                        match formatted_roll_calls (int_max_str_digits w)
                                (list_sort_error w) data with
                        | Raise e => ([Fetch b n], Raise e)
                        | Return l =>
                            ([Fetch b n], Return (success_envelope bill_number b l))
                        end
                    end
                end
            end
      end
  end.
Proof.
  unfold try_block, lift, call_client, ret, bind.
  destruct (resolve_biennium w biennium) as [b|e]; [|reflexivity].
  destruct (bill_digits bill_number) as [ds|e]; [|reflexivity].
  destruct (str_empty ds); [reflexivity|].
  destruct (int_of_digits (int_max_str_digits w) ds) as [n|e] eqn:Hint; [|reflexivity].
  destruct (fetching_message_returns _ _ _ b Hint) as [message ->].
  destruct (wsl_client_get_roll_calls w b n) as [data|e]; [|reflexivity].
  destruct (no_roll_calls data) as [[|]|e]; try reflexivity.
  destruct (formatted_roll_calls _ _ data) as [l|e]; reflexivity.
Qed.

Lemma get_roll_calls_eq (w : world) (bill_number : string) (biennium : option string) :
  get_roll_calls w bill_number biennium =
  match try_block w bill_number biennium with
  | (t, Return v) => (t, Return v)
  | (t, Raise e) => (t, handle bill_number e)
  end.
Proof.
  unfold get_roll_calls, handle.
  destruct (try_block w bill_number biennium) as [t [v|e]]; [reflexivity|].
  destruct (isinstance_ValueError e); [reflexivity|].
  destruct (isinstance_Exception e); [|reflexivity].
  destruct (exn_str e); reflexivity.
Qed.

Lemma parsed_bill_number_inv (lim : int_limit) (bill_number : string) (n : Z) :
  parsed_bill_number lim bill_number = Some n ->
  exists ds, bill_digits bill_number = Return ds /\ str_empty ds = false
             /\ int_of_digits lim ds = Return n.
Proof.
  unfold parsed_bill_number.
  destruct (bill_digits bill_number) as [ds|e]; [|discriminate].
  destruct (str_empty ds) eqn:E; [discriminate|].
  destruct (int_of_digits lim ds) as [m|e] eqn:Hint; [|discriminate].
  intros [= <-]. now exists ds.
Qed.

Lemma small_number_fits (lim : int_limit) :
  over_limit lim 4 = false /\ over_limit lim 1 = false.
Proof. destruct lim; split; reflexivity. Qed.

Lemma parsed_1234 (lim : int_limit) :
  parsed_bill_number lim "HB 1234" = Some 1234
  /\ parsed_bill_number lim "SB 1234" = Some 1234
  /\ parsed_bill_number lim "1234" = Some 1234.
Proof.
  unfold parsed_bill_number, int_of_digits; cbn.
  rewrite (proj1 (small_number_fits lim)). auto.
Qed.

(** The calls that the tool makes to the client. *)
Lemma client_calls (w : world) (bill_number : string) (biennium : option string) :
  fst (get_roll_calls w bill_number biennium) =
  match resolve_biennium w biennium,
        parsed_bill_number (int_max_str_digits w) bill_number with
  | Return b, Some n => [Fetch b n]
  | _, _ => []
  end.
Proof.
  rewrite get_roll_calls_eq, try_block_eq. unfold parsed_bill_number.
  destruct (resolve_biennium w biennium) as [b|e]; [|reflexivity].
  destruct (bill_digits bill_number) as [ds|e]; [|reflexivity].
  destruct (str_empty ds); [reflexivity|].
  destruct (int_of_digits (int_max_str_digits w) ds) as [n|e]; [|reflexivity].
  destruct (wsl_client_get_roll_calls w b n) as [data|e]; [|reflexivity].
  destruct (no_roll_calls data) as [[|]|e]; try reflexivity.
  destruct (formatted_roll_calls _ _ data) as [l|e]; reflexivity.
Qed.

(** ** The properties of the specification *)

(** C2. The bill number that the tool computes is the one of the reference
    definition (trim; if the trimmed string has a space, the last
    whitespace-delimited token; the digits of that; parsed as an integer),
    for every input and every limit on integer strings.  "HB 1234",
    "SB 1234" and "1234" all give 1234, and the client is called with that
    number: the calls made are exactly the one call with the resolved
    biennium and the parsed number, when there are both. *)
Theorem canonicalization_refines_reference :
  (forall lim bill_number,
      parsed_bill_number lim bill_number = Spec.canonical_bill_number lim bill_number)
  /\ (forall lim,
         Spec.canonical_bill_number lim "HB 1234" = Some 1234
         /\ Spec.canonical_bill_number lim "SB 1234" = Some 1234
         /\ Spec.canonical_bill_number lim "1234" = Some 1234)
  /\ (forall w bill_number biennium,
         fst (get_roll_calls w bill_number biennium) =
         match resolve_biennium w biennium,
               Spec.canonical_bill_number (int_max_str_digits w) bill_number with
         | Return b, Some n => [Fetch b n]
         | _, _ => []
         end)
  /\ (forall w biennium,
         let called bill_number := fst (get_roll_calls w bill_number biennium) in
         let expected :=
           match resolve_biennium w biennium with
           | Return b => [Fetch b 1234]
           | Raise _ => []
           end in
         called "HB 1234" = expected /\ called "SB 1234" = expected
         /\ called "1234" = expected).
Proof.
  split; [exact parsed_bill_number_spec|].
  split; [intros lim; rewrite <- !parsed_bill_number_spec; apply parsed_1234|].
  split.
  - intros w bill_number biennium.
    rewrite <- parsed_bill_number_spec. apply client_calls.
  - intros w biennium called expected. subst called expected. cbv beta.
    rewrite !client_calls.
    destruct (parsed_1234 (int_max_str_digits w)) as (-> & -> & ->).
    now destruct (resolve_biennium w biennium).
Qed.

(** The last token is taken only when the trimmed string has a space: a tab
    alone does not select it, and after a space it ends the token before. *)
Example only_a_space_selects_the_last_token :
  parsed_bill_number default_limit ("12" ++ String "009" "34") = Some 1234
  /\ parsed_bill_number default_limit ("HB 12" ++ String "009" "34") = Some 34.
Proof. split; reflexivity. Qed.

(** C3. When the digits left of the bill number are the empty string, as for
    "INVALID", the tool returns the validation envelope with the message
    "Invalid bill number format: <input>. Expected format: ..." and makes no
    call to the client. *)
Theorem no_digit_is_invalid_format
  (w : world) (bill_number : string) (biennium : option string) (b : string)
  (Hbiennium : resolve_biennium w biennium = Return b)
  (Hdigits : bill_digits bill_number = Return EmptyString) :
  get_roll_calls w bill_number biennium =
  ([], Return (VDict [("success", VBool false);
                      ("error",
                       VStr ("Invalid bill number format: " ++ bill_number
                             ++ ". Expected format: 'HB 1234', 'SB 5678', or '1234'"));
                      ("error_type", VStr "validation");
                      ("metadata", VDict [("tool_name", VStr "get_roll_calls");
                                          ("api_call", VStr "GetRollCalls")])])).
Proof.
  rewrite get_roll_calls_eq, try_block_eq, Hbiennium, Hdigits. reflexivity.
Qed.

Lemma no_digit_is_invalid_format_witness :
  get_roll_calls (world_of (Return VNone)) "INVALID" None =
  ([], Return (invalid_format_envelope "INVALID")).
Proof.
  apply (no_digit_is_invalid_format (world_of (Return VNone)) "INVALID" None "2025-26");
    reflexivity.
Defined.

(** C4. When the digits left of the bill number are not empty and [int]
    rejects them (a digit that is not a decimal digit, or more digits than
    the interpreter's limit), the tool returns the validation envelope with
    the message "Invalid bill number: <input>. Must be a valid number.". *)
Theorem rejected_digits_is_invalid_number
  (w : world) (bill_number : string) (biennium : option string)
  (b ds : string) (e : exn)
  (Hbiennium : resolve_biennium w biennium = Return b)
  (Hdigits : bill_digits bill_number = Return ds)
  (Hnonempty : str_empty ds = false)
  (Hint : int_of_digits (int_max_str_digits w) ds = Raise e) :
  get_roll_calls w bill_number biennium =
  ([], Return (VDict [("success", VBool false);
                      ("error",
                       VStr ("Invalid bill number: " ++ bill_number
                             ++ ". Must be a valid number."));
                      ("error_type", VStr "validation");
                      ("metadata", VDict [("tool_name", VStr "get_roll_calls");
                                          ("api_call", VStr "GetRollCalls")])])).
Proof.
  rewrite get_roll_calls_eq, try_block_eq, Hbiennium, Hdigits, Hnonempty, Hint.
  unfold handle. now rewrite (int_of_digits_raises _ _ _ Hint).
Qed.

Lemma rejected_digits_is_invalid_number_witness :
  get_roll_calls (world_of (Return VNone)) superscript_two None =
  ([], Return (invalid_number_envelope superscript_two)).
Proof.
  apply (rejected_digits_is_invalid_number
           (world_of (Return VNone)) superscript_two None "2025-26" superscript_two
           (invalid_literal superscript_two));
    reflexivity.
Defined.

(** C5. For a valid bill identifier, when the client returns None or the
    empty list, the tool returns the success envelope with the input string
    as bill_number, the resolved biennium, no roll calls, api_call
    "GetRollCalls" and the message "No roll calls found for bill <input> in
    biennium <biennium>"; it is not an error envelope. *)
Theorem nothing_fetched_is_success
  (w : world) (bill_number : string) (biennium : option string)
  (b : string) (n : Z) (data : value)
  (Hbiennium : resolve_biennium w biennium = Return b)
  (Hbill : parsed_bill_number (int_max_str_digits w) bill_number = Some n)
  (Hfetch : wsl_client_get_roll_calls w b n = Return data)
  (Hnothing : data = VNone \/ data = VList []) :
  get_roll_calls w bill_number biennium =
  ([Fetch b n],
   Return (VDict [("success", VBool true);
                  ("data", VDict [("bill_number", VStr bill_number);
                                  ("biennium", VStr b);
                                  ("roll_calls", VList [])]);
                  ("metadata",
                   VDict [("message",
                           VStr ("No roll calls found for bill " ++ bill_number
                                 ++ " in biennium " ++ b));
                          ("api_call", VStr "GetRollCalls")])])).
Proof.
  destruct (parsed_bill_number_inv _ _ _ Hbill) as (ds & Hds & Hne & Hint).
  rewrite get_roll_calls_eq, try_block_eq, Hbiennium, Hds, Hne, Hint, Hfetch.
  destruct Hnothing as [-> | ->]; reflexivity.
Qed.

Lemma nothing_fetched_is_success_witness :
  get_roll_calls (world_of (Return VNone)) "HB 9999" None =
  ([Fetch "2025-26" 9999], Return (empty_envelope "HB 9999" "2025-26"))
  /\ get_roll_calls (world_of (Return (VList []))) "HB 9999" (Some "2023-24") =
     ([Fetch "2023-24" 9999], Return (empty_envelope "HB 9999" "2023-24")).
Proof.
  split.
  - apply (nothing_fetched_is_success
             (world_of (Return VNone)) "HB 9999" None "2025-26" 9999 VNone);
      [reflexivity | reflexivity | reflexivity | left; reflexivity].
  - apply (nothing_fetched_is_success
             (world_of (Return (VList []))) "HB 9999" (Some "2023-24") "2023-24" 9999
             (VList []));
      [reflexivity | reflexivity | reflexivity | right; reflexivity].
Defined.

Lemma int_of_1234 (lim : int_limit) : int_of_digits lim "1234" = Return 1234.
Proof.
  unfold int_of_digits; cbn. now rewrite (proj1 (small_number_fits lim)).
Qed.

Lemma final_passage_formatted (lim : int_limit) (sort_error : list value -> string) :
  formatted_roll_calls lim sort_error (VList [final_passage]) = Return [final_passage_out].
Proof. destruct lim; reflexivity. Qed.

(** C6. The end-to-end example: for "HB 1234" and "2023-24", when the client
    returns the one record of the Final Passage vote, the tool returns
    exactly the success envelope with that record, vote_date renamed to date
    and motion to description, district 1 turned into the string "1", and
    count 1. *)
Theorem end_to_end_example
  (w : world)
  (Hfetch : wsl_client_get_roll_calls w "2023-24" 1234 =
            Return (VList [
              VDict [("sequence_number", VInt 1); ("vote_date", VStr "2023-03-15");
                     ("motion", VStr "Final Passage");
                     ("yea_count", VInt 65); ("nay_count", VInt 33);
                     ("absent_count", VInt 0); ("excused_count", VInt 0);
                     ("votes",
                      VDict [("array_of_vote",
                              VList [VDict [("name", VStr "Smith, John");
                                            ("vote_value", VStr "Yea");
                                            ("district", VInt 1);
                                            ("party", VStr "D")]])])]])) :
  get_roll_calls w "HB 1234" (Some "2023-24") =
  ([Fetch "2023-24" 1234],
   Return (VDict [
     ("success", VBool true);
     ("data",
      VDict [("bill_number", VStr "HB 1234");
             ("biennium", VStr "2023-24");
             ("roll_calls",
              VList [VDict [("sequence_number", VInt 1); ("date", VStr "2023-03-15");
                            ("description", VStr "Final Passage");
                            ("yea_votes", VInt 65); ("nay_votes", VInt 33);
                            ("absent_votes", VInt 0); ("excused_votes", VInt 0);
                            ("votes",
                             VList [VDict [("legislator_name", VStr "Smith, John");
                                           ("vote", VStr "Yea");
                                           ("district", VStr "1");
                                           ("party", VStr "D")]])]])]);
     ("metadata", VDict [("api_call", VStr "GetRollCalls"); ("count", VInt 1)])])).
Proof.
  rewrite get_roll_calls_eq, try_block_eq.
  change (resolve_biennium w (Some "2023-24")) with (@Return string "2023-24").
  change (bill_digits "HB 1234") with (@Return string "1234").
  cbn [str_empty]. rewrite int_of_1234, Hfetch.
  change (no_roll_calls (VList _)) with (Return false).
  fold smith_vote. fold final_passage.
  rewrite final_passage_formatted. reflexivity.
Qed.

Lemma end_to_end_example_witness :
  get_roll_calls (world_of (Return (VList [final_passage]))) "HB 1234" (Some "2023-24") =
  ([Fetch "2023-24" 1234],
   Return (success_envelope "HB 1234" "2023-24" [final_passage_out])).
Proof.
  apply (end_to_end_example (world_of (Return (VList [final_passage])))).
  reflexivity.
Defined.

Lemma get_roll_calls_outcome
  (w : world) (bill_number : string) (biennium : option string) (b : string) (n : Z) :
  resolve_biennium w biennium = Return b ->
  parsed_bill_number (int_max_str_digits w) bill_number = Some n ->
  exists r, get_roll_calls w bill_number biennium = ([Fetch b n], r)
            /\ (r = Return (empty_envelope bill_number b)
                \/ (exists l, r = Return (success_envelope bill_number b l))
                \/ (exists e, r = handle bill_number e)).
Proof.
  intros Hb Hn.
  destruct (parsed_bill_number_inv _ _ _ Hn) as (ds & Hds & Hne & Hint).
  rewrite get_roll_calls_eq, try_block_eq, Hb, Hds, Hne, Hint.
  destruct (wsl_client_get_roll_calls w b n) as [data|e]; [|eauto 6].
  destruct (no_roll_calls data) as [[|]|e]; [eauto | | eauto 6].
  destruct (formatted_roll_calls _ _ data) as [l|e]; eauto 6.
Qed.

Lemma handle_no_data (bill_number : string) (e : exn) (d : list (string * value)) :
  handle bill_number e = Return (VDict d) -> lookup "data" d = None.
Proof.
  unfold handle.
  destruct (isinstance_ValueError e); [intros [= <-]; reflexivity|].
  destruct (isinstance_Exception e); [|discriminate].
  destruct (exn_str e); [intros [= <-]; reflexivity | discriminate].
Qed.

(** C10. A biennium that is the empty string is handled as no biennium at
    all: the tool does what it does without the argument; the value of the
    resolver, and not the empty string, is passed to the client and is the
    biennium of the data of the response. *)
Theorem empty_biennium_is_absent
  (w : world) (bill_number : string) (b : string) (n : Z)
  (Hresolver : get_current_biennium w = Return b)
  (Hbill : parsed_bill_number (int_max_str_digits w) bill_number = Some n) :
  get_roll_calls w bill_number (Some EmptyString) = get_roll_calls w bill_number None
  /\ fst (get_roll_calls w bill_number (Some EmptyString)) = [Fetch b n]
  /\ forall d data,
       snd (get_roll_calls w bill_number (Some EmptyString)) = Return (VDict d) ->
       lookup "data" d = Some data ->
       get data "biennium" VNone = Return (VStr b).
Proof.
  split; [reflexivity|].
  destruct (get_roll_calls_outcome w bill_number (Some EmptyString) b n Hresolver Hbill)
    as (r & -> & Hr).
  split; [reflexivity|].
  intros d data Hd Hdata. cbn [snd] in Hd. subst r.
  destruct Hr as [[= ->] | [(l & [= ->]) | (e & He)]].
  - cbn in Hdata. injection Hdata as <-. reflexivity.
  - cbn in Hdata. injection Hdata as <-. reflexivity.
  - symmetry in He. apply handle_no_data in He. congruence.
Qed.

Lemma empty_biennium_is_absent_witness :
  get_roll_calls (world_of (Return (VList [final_passage]))) "HB 1234" (Some EmptyString) =
  get_roll_calls (world_of (Return (VList [final_passage]))) "HB 1234" None
  /\ fst (get_roll_calls (world_of (Return (VList [final_passage]))) "HB 1234"
            (Some EmptyString)) = [Fetch "2025-26" 1234].
Proof.
  destruct (empty_biennium_is_absent
              (world_of (Return (VList [final_passage]))) "HB 1234" "2025-26" 1234
              eq_refl eq_refl) as (H1 & H2 & _).
  split; [exact H1 | exact H2].
Defined.

(** ** The exceptions of the built-in operations

    Every exception that the operations of the model raise on their own is
    an instance of [Exception] that has a message. *)

Section ValueInduction.

Variable P : value -> Prop.
Hypothesis HNone : P VNone.
Hypothesis HBool : forall b, P (VBool b).
Hypothesis HInt : forall z, P (VInt z).
Hypothesis HStr : forall s, P (VStr s).
Hypothesis HList : forall l, Forall P l -> P (VList l).
Hypothesis HDict : forall d, Forall (fun kv => P (snd kv)) d -> P (VDict d).

Lemma value_induction : forall v, P v.
Proof.
  fix IH 1. intros [ | b | z | s | l | d].
  - exact HNone.
  - apply HBool.
  - apply HInt.
  - apply HStr.
  - apply HList. induction l as [|x l IHl]; constructor; [apply IH | exact IHl].
  - apply HDict. induction d as [|[k x] d IHd]; constructor; [apply IH | exact IHd].
Qed.

End ValueInduction.

Lemma exc_only_bind {A B} (r : result A) (k : A -> result B) :
  exc_only r -> (forall a, exc_only (k a)) -> exc_only (rbind r k).
Proof. destruct r as [a|e]; simpl; auto. Qed.

Lemma exc_only_mapM {A B} (f : A -> result B) (l : list A) :
  (forall x, exc_only (f x)) -> exc_only (mapM f l).
Proof.
  intros Hf. induction l as [|x l IH]; simpl; [exact I|].
  apply exc_only_bind; [apply Hf|]. intros y.
  apply exc_only_bind; [exact IH|]. intros ys. exact I.
Qed.

Lemma exc_only_get (v : value) (k : string) (default : value) :
  exc_only (get v k default).
Proof. destruct v; simpl; auto. Qed.

Lemma exc_only_iter (v : value) : exc_only (iter v).
Proof. destruct v; simpl; auto. Qed.

Lemma exc_only_len (v : value) : exc_only (len v).
Proof. destruct v; simpl; auto. Qed.

Lemma exc_only_str_of_int (lim : int_limit) (z : Z) : exc_only (str_of_int lim z).
Proof. unfold str_of_int. destruct (over_limit _ _); simpl; auto. Qed.

Lemma exc_only_repr (lim : int_limit) (v : value) : exc_only (repr lim v).
Proof.
  induction v as [ | b | z | s | l IH | d IH] using value_induction; simpl; auto.
  - apply exc_only_str_of_int.
  - apply exc_only_bind; [|intros; exact I].
    induction IH as [|x l Hx _ IHl]; [exact I|].
    apply exc_only_bind; [exact Hx|]. intros r.
    apply exc_only_bind; [exact IHl|]. intros rs. exact I.
  - apply exc_only_bind; [|intros; exact I].
    induction IH as [|[k x] d Hx _ IHd]; [exact I|].
    apply exc_only_bind; [exact Hx|]. intros r.
    apply exc_only_bind; [exact IHd|]. intros rs. exact I.
Qed.

Lemma exc_only_str (lim : int_limit) (v : value) : exc_only (str lim v).
Proof. destruct v; try apply (exc_only_repr lim); exact I. Qed.

Lemma exc_only_py_lt (a b : value) : exc_only (py_lt a b).
Proof.
  revert b.
  induction a as [ | x | z | s | l IH | d IH] using value_induction; intros b;
    try (destruct b; simpl; auto; fail).
  destruct b as [ | | | | m | ]; simpl; auto.
  revert m. induction IH as [|x l Hx _ IHl]; intros [|y m]; try exact I.
  destruct (py_eq x y); [apply IHl | apply Hx].
Qed.

Lemma exc_only_list_sort (sort_error : list value -> string)
  (key : value -> result value) (l : list value) :
  (forall x, exc_only (key x)) -> exc_only (list_sort sort_error key l).
Proof.
  intros Hkey. unfold list_sort.
  apply exc_only_bind.
  - apply exc_only_mapM. intros x. apply exc_only_bind; [apply Hkey|]. intros k. exact I.
  - intros keyed. destruct (sort_keyed keyed); [exact I | reflexivity].
Qed.

Ltac exc_step :=
  first [ exact I
        | apply exc_only_get | apply exc_only_iter | apply exc_only_len
        | apply exc_only_str
        | apply exc_only_bind; [|intro] ].

Lemma exc_only_format_vote (lim : int_limit) (vote : value) :
  exc_only (format_vote lim vote).
Proof. unfold format_vote. repeat exc_step. Qed.

Lemma exc_only_votes_array_of (votes_data : value) : exc_only (votes_array_of votes_data).
Proof. destruct votes_data; simpl; auto. Qed.

Lemma exc_only_format_roll_call (lim : int_limit) (roll_call : value) :
  exc_only (format_roll_call lim roll_call).
Proof.
  unfold format_roll_call.
  repeat first [ exc_step
               | apply exc_only_votes_array_of
               | apply exc_only_mapM; intro; apply exc_only_format_vote ].
Qed.

Lemma exc_only_formatted_roll_calls (lim : int_limit) (sort_error : list value -> string)
  (data : value) :
  exc_only (formatted_roll_calls lim sort_error data).
Proof.
  unfold formatted_roll_calls.
  apply exc_only_bind; [apply exc_only_iter|]. intros items.
  apply exc_only_bind; [apply exc_only_mapM; intro; apply exc_only_format_roll_call|].
  intros formatted. apply exc_only_list_sort. intros x. apply exc_only_get.
Qed.

Lemma exc_only_no_roll_calls (data : value) : exc_only (no_roll_calls data).
Proof.
  unfold no_roll_calls. destruct (negb (truthy data)); [exact I|].
  apply exc_only_bind; [apply exc_only_len|]. intros n. exact I.
Qed.

Lemma built_in_message (e : exn) :
  built_in e = true ->
  isinstance_Exception e = true /\ exists message, exn_str e = Return message.
Proof.
  destruct e as [cls message|cls raised]; [|discriminate].
  destruct cls; try discriminate; intros _; split; cbn; eauto.
Qed.

Lemma exc_only_raise {A} (r : result A) (e : exn) :
  exc_only r -> r = Raise e ->
  isinstance_Exception e = true /\ exists message, exn_str e = Return message.
Proof. intros H ->. exact (built_in_message e H). Qed.

Lemma handle_ok (bill_number : string) (e : exn) :
  match handle bill_number e with
  | Return v => envelope_ok v = true
  | Raise e' =>
      (e' = e /\ isinstance_Exception e = false)
      \/ (isinstance_Exception e = true /\ isinstance_ValueError e = false
          /\ exn_str e = Raise e')
  end.
Proof.
  unfold handle.
  destruct (isinstance_ValueError e); [reflexivity|].
  destruct (isinstance_Exception e).
  - destruct (exn_str e) as [message|e']; cbn [rbind]; [reflexivity | right; auto].
  - left. split; reflexivity.
Qed.

Lemma handle_exception (bill_number : string) (e : exn) :
  isinstance_Exception e = true -> (exists message, exn_str e = Return message) ->
  exists v, handle bill_number e = Return v /\ envelope_ok v = true.
Proof.
  intros He [message Hs]. pose proof (handle_ok bill_number e) as H.
  destruct (handle bill_number e) as [v|e']; [eauto|].
  destruct H as [[_ H] | (_ & _ & H)]; congruence.
Qed.

Lemma handle_collaborator
  (w : world) (bill_number : string) (biennium : option string) (e : exn) :
  collaborator_raises w bill_number biennium e ->
  match handle bill_number e with
  | Return v => envelope_ok v = true
  | Raise e' =>
      (isinstance_Exception e' = false /\ collaborator_raises w bill_number biennium e')
      \/ exists e, collaborator_raises w bill_number biennium e
                   /\ isinstance_Exception e = true
                   /\ isinstance_ValueError e = false /\ exn_str e = Raise e'
  end.
Proof.
  intros Hc. pose proof (handle_ok bill_number e) as H.
  destruct (handle bill_number e) as [v|e']; [exact H|].
  destruct H as [[-> H] | H]; [left; now split | right; now exists e].
Qed.

Lemma resolve_biennium_raises (w : world) (biennium : option string) (e : exn) :
  resolve_biennium w biennium = Raise e -> get_current_biennium w = Raise e.
Proof.
  destruct biennium as [b|]; simpl; [|trivial].
  destruct (str_empty b); [trivial | discriminate].
Qed.

(** The result of the tool is an envelope that satisfies the invariant, or
    an exception outside [Exception] that one of the two collaborators
    raised, or what [str(e)] raised in the second handler, [e] being an
    exception of a collaborator. *)
Lemma get_roll_calls_result
  (w : world) (bill_number : string) (biennium : option string) :
  match snd (get_roll_calls w bill_number biennium) with
  | Return v => envelope_ok v = true
  | Raise e' =>
      (isinstance_Exception e' = false /\ collaborator_raises w bill_number biennium e')
      \/ exists e, collaborator_raises w bill_number biennium e
                   /\ isinstance_Exception e = true
                   /\ isinstance_ValueError e = false /\ exn_str e = Raise e'
  end.
Proof.
  rewrite get_roll_calls_eq, try_block_eq.
  destruct (resolve_biennium w biennium) as [b|e] eqn:Hb.
  2:{ cbn [snd]. apply (handle_collaborator w bill_number biennium). now left. }
  rewrite bill_digits_spec.
  destruct (str_empty _) eqn:Hne; [reflexivity|].
  destruct (int_of_digits _ _) as [n|e] eqn:Hint.
  2:{ cbn [snd]. unfold handle. now rewrite (int_of_digits_raises _ _ _ Hint). }
  destruct (wsl_client_get_roll_calls w b n) as [data|e] eqn:Hfetch.
  2:{ cbn [snd]. apply (handle_collaborator w bill_number biennium).
      right. exists b, n. split; [exact Hb|]. split; [|exact Hfetch].
      unfold parsed_bill_number. now rewrite bill_digits_spec, Hne, Hint. }
  destruct (no_roll_calls data) as [[|]|e] eqn:Hempty; [reflexivity | |].
  2:{ cbn [snd].
      destruct (exc_only_raise _ _ (exc_only_no_roll_calls data) Hempty) as [He Hs].
      now destruct (handle_exception bill_number e He Hs) as (v & -> & Hv). }
  destruct (formatted_roll_calls _ _ data) as [l|e] eqn:Hfmt; [reflexivity|].
  cbn [snd].
  destruct (exc_only_raise _ _ (exc_only_formatted_roll_calls _ _ data) Hfmt) as [He Hs].
  now destruct (handle_exception bill_number e He Hs) as (v & -> & Hv).
Qed.

(** C1. For every bill number string and every biennium, given or not, what
    [get_roll_calls] returns is a mapping with the key success, with either
    data and no error or a non-empty string error and no data, success being
    true exactly when data is there, and with a mapping metadata that has
    the key api_call.  The function returns such a value in every case but
    two: an exception outside [Exception] raised by the biennium resolver,
    when it is asked, or by the client in the call that the tool makes,
    which leaves the function; and an exception [e] of the resolver or of
    the client that the second handler takes and whose [str(e)] raises, in
    which case what [str(e)] raises leaves the function. *)
Theorem envelope_invariant
  (w : world) (bill_number : string) (biennium : option string) :
  match snd (get_roll_calls w bill_number biennium) with
  | Return v =>
      exists d ok m,
        v = VDict d
        /\ lookup "success" d = Some (VBool ok)
        /\ lookup "metadata" d = Some (VDict m) /\ has_key "api_call" m = true
        /\ ((has_key "data" d = true /\ has_key "error" d = false)
            \/ (has_key "data" d = false
                /\ exists message,
                    lookup "error" d = Some (VStr message)
                    /\ message <> EmptyString))
        /\ (ok = true <-> has_key "data" d = true)
  | Raise e' =>
      (isinstance_Exception e' = false /\ collaborator_raises w bill_number biennium e')
      \/ exists e, collaborator_raises w bill_number biennium e
                   /\ isinstance_Exception e = true
                   /\ isinstance_ValueError e = false /\ exn_str e = Raise e'
  end.
Proof.
  pose proof (get_roll_calls_result w bill_number biennium) as H.
  destruct (snd (get_roll_calls w bill_number biennium)) as [v|e]; [|exact H].
  destruct v as [ | | | | | d]; try discriminate.
  unfold envelope_ok, has_key in *.
  destruct (lookup "success" d) as [[ | ok | | | | ]|] eqn:Hs; try discriminate.
  destruct (lookup "metadata" d) as [[ | | | | | m]|] eqn:Hmeta; try discriminate.
  apply andb_true_iff in H. destruct H as [Hm H].
  exists d, ok, m. rewrite Hs, Hmeta.
  repeat (split; [reflexivity || exact Hm|]).
  destruct (lookup "data" d) as [data|], (lookup "error" d) as [[ | | |message| | ]|];
    try discriminate.
  - subst ok. split; [left; split; reflexivity | tauto].
  - apply andb_true_iff in H. destruct H as [Hok Hmsg].
    apply negb_true_iff in Hok. subst ok. split.
    + right. split; [reflexivity|]. exists message. split; [reflexivity|].
      intros ->. discriminate.
    + split; discriminate.
Qed.

Lemma pipeline_handled
  (w : world) (bill_number : string) (biennium : option string)
  (b : string) (n : Z) (e : exn) :
  resolve_biennium w biennium = Return b ->
  parsed_bill_number (int_max_str_digits w) bill_number = Some n ->
  pipeline_raises w b n e ->
  get_roll_calls w bill_number biennium = ([Fetch b n], handle bill_number e).
Proof.
  intros Hb Hn Hp.
  destruct (parsed_bill_number_inv _ _ _ Hn) as (ds & Hds & Hne & Hint).
  rewrite get_roll_calls_eq, try_block_eq, Hb, Hds, Hne, Hint.
  destruct Hp as [-> | (data & -> & [-> | [-> ->]])]; reflexivity.
Qed.

(** A [ValueError] raised by the fetch or by the normalization is taken by
    the first handler. *)
Lemma value_error_in_pipeline
  (w : world) (bill_number : string) (biennium : option string)
  (b : string) (n : Z) (e : exn) :
  resolve_biennium w biennium = Return b ->
  parsed_bill_number (int_max_str_digits w) bill_number = Some n ->
  pipeline_raises w b n e ->
  isinstance_ValueError e = true ->
  get_roll_calls w bill_number biennium =
  ([Fetch b n], Return (invalid_number_envelope bill_number)).
Proof.
  intros Hb Hn Hp Hv.
  rewrite (pipeline_handled _ _ _ _ _ _ Hb Hn Hp). unfold handle. now rewrite Hv.
Qed.

(** C9, as the code has it.  An exception raised by the fetch or by the
    normalization that is an instance of [Exception] and not of
    [ValueError] is answered with the envelope of the unexpected failure,
    carrying its message, when [str] of it returns one; when [str] of it
    raises, what it raises leaves [get_roll_calls].  An exception leaves
    [get_roll_calls] in two cases only: it is outside [Exception] and a
    collaborator raised it, or the [str] of an exception of a collaborator
    raised it in the second handler.  The client method turns an instance of
    [Exception] raised by the provider into None when the message of its log
    line can be formatted, that is when [str] of the bill number and [str]
    of the exception return; an exception leaves the method only when it is
    outside [Exception] and the provider raised it, or when formatting that
    message raised it. *)
Theorem exceptions_become_envelopes :
  (forall w bill_number biennium b n e message,
      resolve_biennium w biennium = Return b ->
      parsed_bill_number (int_max_str_digits w) bill_number = Some n ->
      pipeline_raises w b n e ->
      isinstance_Exception e = true ->
      isinstance_ValueError e = false ->
      exn_str e = Return message ->
      get_roll_calls w bill_number biennium =
      ([Fetch b n],
       Return (VDict [("success", VBool false);
                      ("error", VStr ("Failed to fetch roll calls: " ++ message));
                      ("error_type", VStr "unexpected");
                      ("metadata", VDict [("tool_name", VStr "get_roll_calls");
                                          ("api_call", VStr "GetRollCalls")])])))
  /\ (forall w bill_number biennium b n e e',
         resolve_biennium w biennium = Return b ->
         parsed_bill_number (int_max_str_digits w) bill_number = Some n ->
         pipeline_raises w b n e ->
         isinstance_Exception e = true ->
         isinstance_ValueError e = false ->
         exn_str e = Raise e' ->
         get_roll_calls w bill_number biennium = ([Fetch b n], Raise e'))
  /\ (forall w bill_number biennium e',
         snd (get_roll_calls w bill_number biennium) = Raise e' ->
         (isinstance_Exception e' = false
          /\ collaborator_raises w bill_number biennium e')
         \/ exists e, collaborator_raises w bill_number biennium e
                      /\ isinstance_Exception e = true
                      /\ isinstance_ValueError e = false /\ exn_str e = Raise e')
  /\ (forall lim api biennium bill_number e number message,
         api biennium bill_number = Raise e ->
         isinstance_Exception e = true ->
         str_of_int lim bill_number = Return number ->
         exn_str e = Return message ->
         WSLClient.get_roll_calls lim api biennium bill_number = Return VNone)
  /\ (forall lim api biennium bill_number e',
         WSLClient.get_roll_calls lim api biennium bill_number = Raise e' ->
         (api biennium bill_number = Raise e' /\ isinstance_Exception e' = false)
         \/ str_of_int lim bill_number = Raise e'
         \/ exists e, api biennium bill_number = Raise e
                      /\ isinstance_Exception e = true /\ exn_str e = Raise e').
Proof.
  split; [|split; [|split; [|split]]].
  - intros w bill_number biennium b n e message Hb Hn Hp He Hv Hs.
    rewrite (pipeline_handled _ _ _ _ _ _ Hb Hn Hp). unfold handle.
    now rewrite Hv, He, Hs.
  - intros w bill_number biennium b n e e' Hb Hn Hp He Hv Hs.
    rewrite (pipeline_handled _ _ _ _ _ _ Hb Hn Hp). unfold handle.
    now rewrite Hv, He, Hs.
  - intros w bill_number biennium e' H.
    pose proof (get_roll_calls_result w bill_number biennium) as R.
    now rewrite H in R.
  - intros lim api biennium bill_number e number message H He Hn Hs.
    unfold WSLClient.get_roll_calls. rewrite H. cbn [rbind].
    now rewrite He, Hn, Hs.
  - intros lim api biennium bill_number e'.
    unfold WSLClient.get_roll_calls.
    destruct (api biennium bill_number) as [v|e] eqn:Hapi; cbn [rbind].
    + destruct (truthy v); [|discriminate].
      pose proof (exc_only_get v "array_of_roll_call" (VList [])) as G.
      destruct (get v "array_of_roll_call" (VList [])) as [x|e]; [discriminate|].
      destruct (built_in_message e G) as [-> [message ->]].
      destruct (str_of_int lim bill_number) as [number|e0]; [discriminate|].
      intros [= <-]. right. now left.
    + destruct (isinstance_Exception e) eqn:E.
      * destruct (str_of_int lim bill_number) as [number|e0];
          [|intros [= <-]; right; now left].
        cbn [rbind]. destruct (exn_str e) as [message|e0] eqn:Hs; [discriminate|].
        intros [= <-]. right. right. now exists e.
      * intros [= <-]. now left.
Qed.

Lemma exceptions_become_envelopes_witness :
  get_roll_calls (world_of (Raise (Exn Exception_ "API Error"))) "HB 1234" None =
  ([Fetch "2025-26" 1234], Return (unexpected_envelope "API Error"))
  /\ get_roll_calls (world_of (Return (VList [VInt 5]))) "HB 1234" None =
     ([Fetch "2025-26" 1234],
      Return (unexpected_envelope "'int' object has no attribute 'get'")).
Proof.
  destruct exceptions_become_envelopes as (H & _).
  split.
  - apply (H (world_of (Raise (Exn Exception_ "API Error"))) "HB 1234" None
             "2025-26" 1234 (Exn Exception_ "API Error") "API Error");
      [reflexivity | reflexivity | left; reflexivity | reflexivity | reflexivity
      | reflexivity].
  - apply (H (world_of (Return (VList [VInt 5]))) "HB 1234" None
             "2025-26" 1234 (Exn AttributeError "'int' object has no attribute 'get'")
             "'int' object has no attribute 'get'");
      [reflexivity | reflexivity | | reflexivity | reflexivity | reflexivity].
    right. exists (VList [VInt 5]). split; [reflexivity|]. right. split; reflexivity.
Defined.

(** C9 as it is written fails twice.  A [ValueError] raised by the fetch is
    answered with the validation envelope, not with the envelope of the
    unexpected failure; and an exception outside [Exception], such as
    KeyboardInterrupt, raised by the fetch leaves [get_roll_calls]. *)
Lemma not_every_exception_is_unexpected :
  get_roll_calls (world_of (Raise (Exn ValueError "API Error"))) "HB 1234" None =
  ([Fetch "2025-26" 1234],
   Return (VDict [("success", VBool false);
                  ("error", VStr "Invalid bill number: HB 1234. Must be a valid number.");
                  ("error_type", VStr "validation");
                  ("metadata", VDict [("tool_name", VStr "get_roll_calls");
                                      ("api_call", VStr "GetRollCalls")])]))
  /\ snd (get_roll_calls (world_of (Raise (Exn ValueError "API Error"))) "HB 1234" None)
     <> Return (unexpected_envelope "API Error")
  /\ get_roll_calls (world_of (Raise (Exn BaseException_ EmptyString))) "HB 1234" None =
     ([Fetch "2025-26" 1234], Raise (Exn BaseException_ EmptyString)).
Proof. split; [reflexivity | split; [discriminate | reflexivity]]. Qed.

(** An exception outside [Exception] goes through the client method too. *)
Example keyboard_interrupt_propagates :
  WSLClient.get_roll_calls default_limit
    (fun _ _ => Raise (Exn BaseException_ EmptyString)) "2025-26" 1234 =
  Raise (Exn BaseException_ EmptyString).
Proof. reflexivity. Qed.

(** An exception whose [str] raises, as [Exception(10**5000)] under the
    limit of 4300 digits: the ValueError of the conversion leaves the tool
    when the client is a mock that raises it, it leaves the client method
    when the library raises it, and the tool over that client answers it
    with the validation envelope. *)
Example unprintable_exception_is_not_answered :
  let e := Unprintable Exception_ (exceeds_to_str default_limit) in
  get_roll_calls (world_of (Raise e)) "HB 1234" None =
  ([Fetch "2025-26" 1234], Raise (exceeds_to_str default_limit))
  /\ WSLClient.get_roll_calls default_limit (fun _ _ => Raise e) "2025-26" 1234 =
     Raise (exceeds_to_str default_limit)
  /\ get_roll_calls
       (shipped default_limit no_sort_error (Return "2025-26") (fun _ _ => Raise e))
       "HB 1234" None =
     ([Fetch "2025-26" 1234], Return (invalid_number_envelope "HB 1234")).
Proof. repeat split. Qed.

(** A bill number with more digits than the limit allows: the log line of
    the handler of the client method cannot be formatted. *)
Example long_bill_number_leaves_the_client :
  WSLClient.get_roll_calls (Limited 0) (fun _ _ => Raise (Exn Exception_ "API Error"))
    "2025-26" (10 ^ 640) =
  Raise (exceeds_to_str (Limited 0)).
Proof. vm_compute. reflexivity. Qed.

(** A district with more digits than the limit: [str] raises a ValueError in
    the normalization, and the answer is the validation envelope. *)
Example long_district_is_validation :
  get_roll_calls
    (World (Limited 0) no_sort_error (Return "2025-26")
       (fun _ _ =>
          Return (VList [VDict [("votes", VList [VDict [("district", VInt (10 ^ 640))]])]])))
    "HB 1234" None =
  ([Fetch "2025-26" 1234], Return (invalid_number_envelope "HB 1234")).
Proof. vm_compute. reflexivity. Qed.

(** ** The shape of the vote payload *)

Lemma lookup_dict_set_same (k : string) (v : value) (d : list (string * value)) :
  lookup k (dict_set k v d) = Some v.
Proof.
  induction d as [|[k' v'] d IH]; simpl.
  - now rewrite String.eqb_refl.
  - destruct (String.eqb k' k) eqn:E; simpl; rewrite E; [reflexivity | exact IH].
Qed.

Lemma lookup_dict_set_other (k k' : string) (v : value) (d : list (string * value)) :
  String.eqb k k' = false -> lookup k' (dict_set k v d) = lookup k' d.
Proof.
  intros Hk. induction d as [|[k0 v0] d IH]; simpl.
  - now rewrite Hk.
  - destruct (String.eqb k0 k) eqn:E; simpl.
    + apply String.eqb_eq in E. subst k0. now rewrite Hk.
    + now rewrite IH.
Qed.

Lemma format_roll_call_votes
  (lim : int_limit) (record : list (string * value)) (votes_data : value) :
  format_roll_call lim (VDict (dict_set "votes" votes_data record)) =
  (votes_array <- votes_array_of votes_data ;;
   votes <- iter votes_array ;;
   votes_list <- mapM (format_vote lim) votes ;;
   Return (VDict [("sequence_number",
                   match lookup "sequence_number" record with
                   | Some x => x | None => VInt 0 end);
                  ("date",
                   match lookup "vote_date" record with
                   | Some x => x | None => VStr EmptyString end);
                  ("description",
                   match lookup "motion" record with
                   | Some x => x | None => VStr EmptyString end);
                  ("yea_votes",
                   match lookup "yea_count" record with
                   | Some x => x | None => VInt 0 end);
                  ("nay_votes",
                   match lookup "nay_count" record with
                   | Some x => x | None => VInt 0 end);
                  ("absent_votes",
                   match lookup "absent_count" record with
                   | Some x => x | None => VInt 0 end);
                  ("excused_votes",
                   match lookup "excused_count" record with
                   | Some x => x | None => VInt 0 end);
                  ("votes", VList votes_list)])).
Proof.
  unfold format_roll_call, get.
  rewrite lookup_dict_set_same.
  rewrite !(lookup_dict_set_other "votes") by reflexivity.
  reflexivity.
Qed.

(** C8. A record whose votes field is the list V is normalized exactly as
    the same record whose votes field is a mapping with V under
    array_of_vote, in particular the mapping with that one key; and when the
    votes field is neither a mapping nor a list, the record is normalized
    with an empty list of votes. *)
Theorem vote_payload_shapes (lim : int_limit) (record : list (string * value)) :
  (forall V m,
      lookup "array_of_vote" m = Some (VList V) ->
      format_roll_call lim (VDict (dict_set "votes" (VList V) record)) =
      format_roll_call lim (VDict (dict_set "votes" (VDict m) record)))
  /\ (forall V,
         format_roll_call lim (VDict (dict_set "votes" (VList V) record)) =
         format_roll_call lim
           (VDict (dict_set "votes" (VDict [("array_of_vote", VList V)]) record)))
  /\ (forall x,
         is_mapping x = false -> is_sequence x = false ->
         exists out,
           format_roll_call lim (VDict (dict_set "votes" x record)) = Return (VDict out)
           /\ lookup "votes" out = Some (VList [])).
Proof.
  assert (H : forall V m,
             lookup "array_of_vote" m = Some (VList V) ->
             format_roll_call lim (VDict (dict_set "votes" (VList V) record)) =
             format_roll_call lim (VDict (dict_set "votes" (VDict m) record))).
  { intros V m Hm. rewrite !format_roll_call_votes.
    unfold votes_array_of, get. now rewrite Hm. }
  split; [exact H|]. split.
  - intros V. apply H. reflexivity.
  - intros x Hmap Hseq. rewrite format_roll_call_votes.
    destruct x; try discriminate; cbn; eexists; split; reflexivity.
Qed.

Lemma vote_payload_shapes_witness :
  format_roll_call default_limit
    (VDict (dict_set "votes" (VList [smith_vote]) [("sequence_number", VInt 1)])) =
  format_roll_call default_limit
    (VDict (dict_set "votes" (VDict [("array_of_vote", VList [smith_vote])])
              [("sequence_number", VInt 1)]))
  /\ exists out,
       format_roll_call default_limit
         (VDict (dict_set "votes" (VStr "n/a") [("sequence_number", VInt 1)])) =
       Return (VDict out)
       /\ lookup "votes" out = Some (VList []).
Proof.
  destruct (vote_payload_shapes default_limit [("sequence_number", VInt 1)])
    as (H1 & _ & H3).
  split.
  - apply (H1 [smith_vote] [("array_of_vote", VList [smith_vote])]). reflexivity.
  - apply (H3 (VStr "n/a")); reflexivity.
Defined.

(** ** The sort *)

Lemma keyed_lt (x y : value * value) :
  keyed x -> keyed y -> py_lt (fst y) (fst x) = Return (key_int y <? key_int x).
Proof.
  intros (a & Ha & _) (b & Hb & _). unfold key_int. now rewrite Ha, Hb.
Qed.

Lemma insert_keyed (x : value * value) (s : list (value * value)) :
  keyed x -> Forall keyed s ->
  exists r,
    insert x s = Some r
    /\ Permutation (x :: s) r
    /\ (StronglySorted key_le s -> StronglySorted key_le r)
    /\ forall z, filter (key_is z) r = filter (key_is z) (x :: s).
Proof.
  intros Hx Hs. induction Hs as [|y ys Hy Hys IH].
  - exists [x]. repeat split; auto.
    intros _. constructor; constructor.
  - cbn [insert]. rewrite (keyed_lt x y Hx Hy).
    destruct (key_int y <? key_int x) eqn:E.
    + destruct IH as (r & -> & Hperm & Hsorted & Hfilter).
      exists (y :: r). apply Z.ltb_lt in E. repeat split.
      * rewrite perm_swap. now constructor.
      * intros Hsort. inversion Hsort as [|? ? Hs' Hall]; subst.
        constructor; [auto|].
        apply (Permutation_Forall Hperm). constructor; [|exact Hall].
        unfold key_le. lia.
      * intros z. cbn [filter]. rewrite Hfilter. cbn [filter]. unfold key_is.
        destruct (key_int y =? z) eqn:Ey, (key_int x =? z) eqn:Ex; try reflexivity.
        apply Z.eqb_eq in Ey, Ex. lia.
    + exists (x :: y :: ys). apply Z.ltb_ge in E. repeat split; auto.
      intros Hsort. constructor; [exact Hsort|].
      inversion Hsort as [|? ? Hs' Hall]; subst.
      constructor; [exact E|].
      eapply Forall_impl; [|exact Hall]. unfold key_le. intros kv Hkv. lia.
Qed.

Lemma sort_keyed_spec (l : list (value * value)) :
  Forall keyed l ->
  exists s,
    sort_keyed l = Some s
    /\ Permutation l s
    /\ StronglySorted key_le s
    /\ forall z, filter (key_is z) s = filter (key_is z) l.
Proof.
  intros Hl. induction Hl as [|x xs Hx Hxs IH].
  - exists []. repeat split; auto. constructor.
  - destruct IH as (s & Hs & Hperm & Hsorted & Hfilter).
    cbn [sort_keyed]. rewrite Hs.
    destruct (insert_keyed x s Hx (Permutation_Forall Hperm Hxs))
      as (r & Hr & Hperm' & Hsorted' & Hfilter').
    exists r. repeat split; auto.
    + rewrite <- Hperm'. now constructor.
    + intros z. rewrite Hfilter'. cbn [filter]. now rewrite Hfilter.
Qed.

Lemma mapM_with_key (l : list value) :
  Forall (fun r => exists z, sequence_number r = Some z) l ->
  mapM (fun x => k <- sort_key x ;; Return (k, x)) l = Return (map with_key l)
  /\ Forall keyed (map with_key l).
Proof.
  intros Hl. induction Hl as [|x xs (z & Hz) Hxs [IH1 IH2]]; [split; [reflexivity | constructor]|].
  unfold sequence_number in Hz.
  destruct (sort_key x) as [[ | | z' | | | ]|] eqn:Hk; try discriminate.
  injection Hz as ->.
  split.
  - cbn [mapM map]. rewrite Hk. cbn [rbind]. rewrite IH1. cbn [rbind].
    unfold with_key. now rewrite Hk.
  - cbn [map]. constructor; [|exact IH2].
    exists z. unfold with_key. rewrite Hk. split; [reflexivity | exact Hk].
Qed.

Lemma keyed_sequence_number (kv : value * value) :
  keyed kv -> sequence_number (snd kv) = Some (key_int kv).
Proof.
  intros (z & Hz & Hk). unfold sequence_number, key_int. now rewrite Hk, Hz.
Qed.

Lemma filter_snd (z : Z) (s : list (value * value)) :
  Forall keyed s ->
  filter (has_sequence_number z) (map snd s) = map snd (filter (key_is z) s).
Proof.
  intros Hs. induction Hs as [|kv s Hkv Hs IH]; [reflexivity|].
  cbn [map filter]. unfold has_sequence_number at 1.
  rewrite (keyed_sequence_number kv Hkv). fold (key_is z kv).
  destruct (key_is z kv); cbn [map]; now rewrite IH.
Qed.

Lemma sorted_snd (s : list (value * value)) :
  Forall keyed s -> StronglySorted key_le s -> StronglySorted sequence_le (map snd s).
Proof.
  intros Hk Hs. induction Hs as [|kv s Hs IH Hall]; [constructor|].
  inversion Hk as [|? ? Hkv Hks]; subst.
  cbn [map]. constructor; [auto|].
  apply Forall_map. rewrite Forall_forall in *. intros y Hy.
  exists (key_int kv), (key_int y). repeat split.
  - now apply keyed_sequence_number.
  - apply keyed_sequence_number. now apply Hks.
  - now apply Hall.
Qed.

Lemma map_snd_with_key (l : list value) : map snd (map with_key l) = l.
Proof. induction l as [|x l IH]; [reflexivity | cbn; now rewrite IH]. Qed.

(** The sort of the tool on records whose sequence numbers are ints. *)
Lemma list_sort_spec (sort_error : list value -> string) (l : list value) :
  Forall (fun r => exists z, sequence_number r = Some z) l ->
  exists out,
    list_sort sort_error sort_key l = Return out
    /\ Permutation l out
    /\ StronglySorted sequence_le out
    /\ forall z, filter (has_sequence_number z) out = filter (has_sequence_number z) l.
Proof.
  intros Hl. destruct (mapM_with_key l Hl) as [Hm Hk].
  destruct (sort_keyed_spec _ Hk) as (s & Hs & Hperm & Hsorted & Hfilter).
  pose proof (Permutation_Forall Hperm Hk) as Hks.
  exists (map snd s). unfold list_sort. rewrite Hm. cbn [rbind]. rewrite Hs.
  repeat split.
  - rewrite <- (map_snd_with_key l) at 1. now apply Permutation_map.
  - now apply sorted_snd.
  - intros z. rewrite (filter_snd z s Hks), Hfilter, <- (filter_snd z _ Hk).
    now rewrite map_snd_with_key.
Qed.

Lemma format_roll_call_key (lim : int_limit) (roll_call r : value) :
  format_roll_call lim roll_call = Return r ->
  sort_key r = get roll_call "sequence_number" (VInt 0).
Proof.
  destruct roll_call as [ | | | | | d]; try discriminate.
  unfold format_roll_call, get. cbn [rbind].
  destruct (votes_array_of _) as [va|e]; [|discriminate]. cbn [rbind].
  destruct (iter va) as [vs|e]; [|discriminate]. cbn [rbind].
  destruct (mapM (format_vote lim) vs) as [vl|e]; [|discriminate]. cbn [rbind].
  intros [= <-]. reflexivity.
Qed.

Lemma mapM_Forall2 {A B} (f : A -> result B) (l : list A) (l' : list B) :
  mapM f l = Return l' -> Forall2 (fun x y => f x = Return y) l l'.
Proof.
  revert l'. induction l as [|x l IH]; intros l'; cbn [mapM].
  - intros [= <-]. constructor.
  - destruct (f x) as [y|e] eqn:Hx; [|discriminate]. cbn [rbind].
    destruct (mapM f l) as [ys|e]; [|discriminate]. cbn [rbind].
    intros [= <-]. constructor; [exact Hx | now apply IH].
Qed.

Lemma assembled_keys (lim : int_limit) (records assembled : list value) :
  Forall (fun rc => exists z, get rc "sequence_number" (VInt 0) = Return (VInt z))
    records ->
  mapM (format_roll_call lim) records = Return assembled ->
  Forall (fun r => exists z, sequence_number r = Some z) assembled.
Proof.
  intros Hint Hassembled. apply mapM_Forall2 in Hassembled.
  induction Hassembled as [|rc r rcs rs Hr _ IH]; [constructor|].
  inversion Hint as [|? ? (z & Hz) Hrest]; subst.
  constructor; [|now apply IH].
  exists z. unfold sequence_number.
  now rewrite (format_roll_call_key _ _ _ Hr), Hz.
Qed.





(** The sequence numbers 3, 1, 2 come out as 1, 2, 3. *)
Example three_readings_in_order :
  get_roll_calls (world_of (Return (VList three_readings))) "HB 1234" None =
  ([Fetch "2025-26" 1234],
   Return (success_envelope "HB 1234" "2025-26"
             [reading_out 1 "2023-03-15" "First Reading";
              reading_out 2 "2023-03-18" "Second Reading";
              reading_out 3 "2023-03-20" "Third Reading"])).
Proof. reflexivity. Qed.

(** Two records with the same sequence number stay in the order of the
    fetched list, whatever their other fields. *)
Example equal_sequence_numbers_keep_order :
  get_roll_calls
    (world_of (Return (VList [reading 2 "2023-03-18" "Second Reading";
                              reading 1 "2023-03-20" "Reconsideration";
                              reading 1 "2023-03-15" "First Reading"])))
    "HB 1234" None =
  ([Fetch "2025-26" 1234],
   Return (success_envelope "HB 1234" "2025-26"
             [reading_out 1 "2023-03-20" "Reconsideration";
              reading_out 1 "2023-03-15" "First Reading";
              reading_out 2 "2023-03-18" "Second Reading"])).
Proof. reflexivity. Qed.

(** ** The client method and the tool together *)

(** What the client method makes of the answer of the provider: None when
    the provider fails and the log line can be formatted, or when it returns
    nothing; the value under array_of_roll_call otherwise, the empty list
    when the key is missing. *)
Lemma client_method_cases
  (lim : int_limit) (api : string -> Z -> result value)
  (biennium : string) (bill_number : Z) :
  (forall e number message,
      api biennium bill_number = Raise e -> isinstance_Exception e = true ->
      str_of_int lim bill_number = Return number -> exn_str e = Return message ->
      WSLClient.get_roll_calls lim api biennium bill_number = Return VNone)
  /\ (forall v,
         api biennium bill_number = Return v -> truthy v = false ->
         WSLClient.get_roll_calls lim api biennium bill_number = Return VNone)
  /\ (forall d,
         api biennium bill_number = Return (VDict d) -> d <> [] ->
         WSLClient.get_roll_calls lim api biennium bill_number =
         Return (match lookup "array_of_roll_call" d with
                 | Some x => x
                 | None => VList []
                 end)).
Proof.
  unfold WSLClient.get_roll_calls. repeat split.
  - intros e number message -> He Hn Hs. cbn [rbind]. now rewrite He, Hn, Hs.
  - intros v -> Hv. cbn. now rewrite Hv.
  - intros d -> Hd. destruct d; [contradiction | reflexivity].
Qed.

(** With the client method as it is, a provider that fails makes the tool
    report that there are no roll calls. *)
Example provider_failure_is_empty_success :
  get_roll_calls
    (World default_limit no_sort_error (Return "2025-26")
       (WSLClient.get_roll_calls default_limit
          (fun _ _ => Raise (Exn Exception_ "timeout"))))
    "SB 5678" None =
  ([Fetch "2025-26" 5678], Return (empty_envelope "SB 5678" "2025-26")).
Proof. reflexivity. Qed.

(** More digits than the limit allows: the bill number is rejected. *)
Example too_many_digits_is_invalid_number :
  get_roll_calls
    (World (Limited 0) no_sort_error (Return "2025-26") (fun _ _ => Return VNone))
    (string_of_list_ascii (repeat "1"%char 641)) None =
  ([], Return (invalid_number_envelope (string_of_list_ascii (repeat "1"%char 641)))).
Proof. vm_compute. reflexivity. Qed.

(** ** The methods of the client *)

Lemma unwrap_eq (lim : int_limit) (log : list Methods.piece)
  (key : string) (default : value) (call : result value) :
  Methods.unwrap lim log key default call =
  match call with
  | Raise e =>
      if isinstance_Exception e then
        message <- Methods.format lim e log ;; Return VNone
      else Raise e
  | Return (VDict d) =>
      match d with
      | [] => Return VNone
      | _ => Return (match lookup key d with Some x => x | None => default end)
      end
  | Return v =>
      match get v key default with
      | Raise e =>
          if truthy v then message <- Methods.format lim e log ;; Return VNone
          else Return VNone
      | Return _ => Return VNone
      end
  end.
Proof.
  unfold Methods.unwrap, Methods.try_block.
  destruct call as [[ | [|] | z | s | [|x l] | [|kv d]]|e]; try reflexivity.
  - cbn. destruct (negb (z =? 0)); reflexivity.
  - cbn. destruct (negb (str_empty s)); reflexivity.
Qed.

(** The method of the claims is the entry of the table. *)
Lemma get_roll_calls_is_a_method
  (lim : int_limit) (api : Methods.method -> result value)
  (biennium : string) (bill_number : Z) :
  WSLClient.get_roll_calls lim (fun b n => api (Methods.get_roll_calls b n))
    biennium bill_number =
  Methods.invoke lim api (Methods.get_roll_calls biennium bill_number).
Proof.
  unfold WSLClient.get_roll_calls, Methods.invoke, Methods.unwrap, Methods.try_block.
  cbn [Methods.response_key Methods.default Methods.log_message].
  destruct (rbind _ _) as [v|e]; [reflexivity|].
  destruct (isinstance_Exception e); [|reflexivity].
  cbn [Methods.format Methods.format_piece rbind].
  destruct (str_of_int lim bill_number); [|reflexivity].
  cbn [rbind]. destruct (exn_str e); reflexivity.
Qed.

Lemma client_is_unwrap
  (lim : int_limit) (api : string -> Z -> result value) (biennium : string)
  (bill_number : Z) :
  WSLClient.get_roll_calls lim api biennium bill_number =
  Methods.unwrap lim (Methods.log_message (Methods.get_roll_calls biennium bill_number))
    "array_of_roll_call" (VList []) (api biennium bill_number).
Proof.
  exact (get_roll_calls_is_a_method lim
           (fun m => match m with
                     | Methods.get_roll_calls b n => api b n
                     | _ => Return VNone
                     end) biennium bill_number).
Qed.

(** The exception that the [try] of a method raises is the one of the
    library, or the one of [.get] on an answer that is no mapping. *)
Lemma try_block_raises (key : string) (default : value) (call : result value) (e : exn) :
  Methods.try_block key default call = Raise e ->
  call = Raise e
  \/ exists v, call = Return v /\ truthy v = true /\ get v key default = Raise e
               /\ built_in e = true.
Proof.
  unfold Methods.try_block.
  destruct call as [v|e0]; cbn [rbind]; [|intros [= <-]; now left].
  destruct (truthy v) eqn:Hv; [|discriminate].
  intros H. right. exists v.
  split; [reflexivity|]. split; [exact Hv|]. split; [exact H|].
  pose proof (exc_only_get v key default) as G. now rewrite H in G.
Qed.

Lemma unwrap_raises (lim : int_limit) (log : list Methods.piece)
  (key : string) (default : value) (call : result value) (e' : exn) :
  Methods.unwrap lim log key default call = Raise e' <->
  (call = Raise e' /\ isinstance_Exception e' = false)
  \/ exists e, Methods.try_block key default call = Raise e
               /\ isinstance_Exception e = true
               /\ Methods.format lim e log = Raise e'.
Proof.
  unfold Methods.unwrap. split.
  - destruct (Methods.try_block key default call) as [v|e] eqn:Ht; [discriminate|].
    destruct (isinstance_Exception e) eqn:E.
    + destruct (Methods.format lim e log) as [message|e0] eqn:Hf; [discriminate|].
      intros [= <-]. right. now exists e.
    + intros [= <-]. left. split; [|exact E].
      destruct (try_block_raises _ _ _ _ Ht) as [Hc | (v & _ & _ & _ & Hb)]; [exact Hc|].
      apply built_in_message in Hb. destruct Hb as [Hb _]. congruence.
  - intros [[-> He] | (e & -> & He & Hf)].
    + cbn. now rewrite He.
    + now rewrite He, Hf.
Qed.

(** Formatting the message of a log line fails on an int argument that has
    too many digits or on the exception. *)
Lemma format_raises (lim : int_limit) (e e' : exn) (log : list Methods.piece) :
  Methods.format lim e log = Raise e' ->
  (exists z, In (Methods.FInt z) log /\ str_of_int lim z = Raise e')
  \/ (In Methods.FExn log /\ exn_str e = Raise e').
Proof.
  induction log as [|p log IH]; cbn [Methods.format]; [discriminate|].
  destruct (Methods.format_piece lim e p) as [s|e0] eqn:Hp; cbn [rbind].
  - destruct (Methods.format lim e log) as [rest|e0]; [discriminate|].
    cbn [rbind]. intros H.
    destruct (IH H) as [(z & Hz & Hs) | [Hx Hs]].
    + left. exists z. split; [now right | exact Hs].
    + right. split; [now right | exact Hs].
  - intros [= <-]. destruct p as [text|argument|argument|]; try discriminate.
    + left. exists argument. split; [now left | exact Hp].
    + right. split; [now left | exact Hp].
Qed.

Lemma format_returns (lim : int_limit) (e : exn) (log : list Methods.piece) :
  (forall z, In (Methods.FInt z) log -> exists s, str_of_int lim z = Return s) ->
  (exists message, exn_str e = Return message) ->
  exists message, Methods.format lim e log = Return message.
Proof.
  intros Hint [error Herror].
  destruct (Methods.format lim e log) as [message|e'] eqn:Hf; [eauto|].
  destruct (format_raises _ _ _ _ Hf) as [(z & Hz & Hs) | [_ Hs]]; [|congruence].
  destruct (Hint z Hz) as [s' Hs']. congruence.
Qed.

(** X1. A method of the client raises in two cases only: the library raised
    an exception outside [Exception], which goes through; or the [try]
    raised an instance of [Exception], the library's or the one of the
    unwrapping, and formatting the message of the log line of the handler
    raised, which happens when an int argument of the message has more
    digits than the interpreter allows or when [str] of the exception
    raises.  Every other failure ends in a returned value. *)
Theorem methods_isolate_faults
  (lim : int_limit) (api : Methods.method -> result value) (m : Methods.method)
  (e' : exn) :
  (Methods.invoke lim api m = Raise e' <->
   (api m = Raise e' /\ isinstance_Exception e' = false)
   \/ exists e,
        Methods.try_block (Methods.response_key m) (Methods.default m) (api m) = Raise e
        /\ isinstance_Exception e = true
        /\ Methods.format lim e (Methods.log_message m) = Raise e')
  /\ (forall e,
         Methods.format lim e (Methods.log_message m) = Raise e' ->
         (exists z, In (Methods.FInt z) (Methods.log_message m)
                    /\ str_of_int lim z = Raise e')
         \/ exn_str e = Raise e')
  /\ (Methods.invoke lim api m = Raise e' ->
      (forall z, In (Methods.FInt z) (Methods.log_message m) ->
                 exists s, str_of_int lim z = Return s) ->
      (forall e, api m = Raise e -> exists message, exn_str e = Return message) ->
      api m = Raise e' /\ isinstance_Exception e' = false).
Proof.
  split; [apply unwrap_raises|]. split.
  - intros e Hf. destruct (format_raises _ _ _ _ Hf) as [H | [_ H]]; auto.
  - intros H Hint Hstr. apply unwrap_raises in H.
    destruct H as [H | (e & Ht & He & Hf)]; [exact H|]. exfalso.
    assert (Hs : exists message, exn_str e = Return message).
    { destruct (try_block_raises _ _ _ _ Ht) as [Hc | (v & _ & _ & _ & Hb)];
        [now apply Hstr | now apply built_in_message in Hb]. }
    destruct (format_returns lim e _ Hint Hs) as [message Hm]. congruence.
Qed.

Lemma methods_isolate_faults_witness :
  Methods.invoke default_limit (fun _ => Raise (Exn BaseException_ EmptyString))
    (Methods.get_committees "2023-24") = Raise (Exn BaseException_ EmptyString)
  /\ Methods.invoke (Limited 0) (fun _ => Raise (Exn Exception_ "timeout"))
       (Methods.get_chapter_numbers_by_year (10 ^ 640)) =
     Raise (exceeds_to_str (Limited 0)).
Proof.
  split.
  - apply (proj2 (proj1 (methods_isolate_faults default_limit
                           (fun _ => Raise (Exn BaseException_ EmptyString))
                           (Methods.get_committees "2023-24")
                           (Exn BaseException_ EmptyString)))).
    left. split; reflexivity.
  - apply (proj2 (proj1 (methods_isolate_faults (Limited 0)
                           (fun _ => Raise (Exn Exception_ "timeout"))
                           (Methods.get_chapter_numbers_by_year (10 ^ 640))
                           (exceeds_to_str (Limited 0))))).
    right. exists (Exn Exception_ "timeout").
    split; [reflexivity | split; [reflexivity | vm_compute; reflexivity]].
Defined.

(** X2. A method returns None in these cases and no other: the library
    raised an instance of [Exception] and the message of the log line was
    formatted; its answer is falsy (None, an empty mapping, ...); its answer
    is not a mapping, so that [.get] raised, and the message of the log line
    was formatted; or it is a mapping in which the key of the method holds
    None, or is missing when the default of the method is None.  A failure
    cannot be told from an empty answer. *)
Theorem methods_none
  (lim : int_limit) (api : Methods.method -> result value) (m : Methods.method) :
  Methods.invoke lim api m = Return VNone <->
  (exists e message,
      api m = Raise e /\ isinstance_Exception e = true
      /\ Methods.format lim e (Methods.log_message m) = Return message)
  \/ (exists v, api m = Return v /\ truthy v = false)
  \/ (exists v e message,
         api m = Return v
         /\ get v (Methods.response_key m) (Methods.default m) = Raise e
         /\ Methods.format lim e (Methods.log_message m) = Return message)
  \/ (exists d, api m = Return (VDict d)
                /\ match lookup (Methods.response_key m) d with
                   | Some x => x = VNone
                   | None => Methods.default m = VNone
                   end).
Proof.
  unfold Methods.invoke. rewrite unwrap_eq. split.
  - destruct (api m) as [v|e] eqn:Hapi.
    + assert (Hother :
          is_mapping v = false ->
          match get v (Methods.response_key m) (Methods.default m) with
          | Return _ => Return VNone
          | Raise e =>
              if truthy v
              then message <- Methods.format lim e (Methods.log_message m) ;; Return VNone
              else Return VNone
          end = Return VNone ->
          (exists e message,
              Return v = Raise e /\ isinstance_Exception e = true
              /\ Methods.format lim e (Methods.log_message m) = Return message)
          \/ (exists v', Return v = Return v' /\ truthy v' = false)
          \/ (exists v' e message,
                 Return v = Return v'
                 /\ get v' (Methods.response_key m) (Methods.default m) = Raise e
                 /\ Methods.format lim e (Methods.log_message m) = Return message)
          \/ (exists d, Return v = Return (VDict d)
                        /\ match lookup (Methods.response_key m) d with
                           | Some x => x = VNone
                           | None => Methods.default m = VNone
                           end)).
      { intros Hmap.
        destruct (get v (Methods.response_key m) (Methods.default m)) as [x|e] eqn:Hg;
          [destruct v; discriminate|].
        destruct (truthy v) eqn:Hv; [|intros _; right; left; now exists v].
        destruct (Methods.format lim e (Methods.log_message m)) as [message|e0] eqn:Hf;
          [|discriminate].
        intros _. right; right; left. now exists v, e, message. }
      destruct v as [ | b | z | s | l | d]; try (apply Hother; reflexivity).
      destruct d as [|kv d].
      * intros _. right; left. eexists; split; reflexivity.
      * remember (kv :: d) as d' eqn:Hd'.
        destruct (lookup (Methods.response_key m) d') as [x|] eqn:L;
          intros [= H]; right; right; right; exists d';
          (split; [reflexivity|]); rewrite L; exact H.
    + destruct (isinstance_Exception e) eqn:E; [|discriminate].
      destruct (Methods.format lim e (Methods.log_message m)) as [message|e0] eqn:Hf;
        [|discriminate].
      intros _. left. now exists e, message.
  - intros [(e & message & -> & -> & ->)
           | [(v & -> & Hv)
             | [(v & e & message & -> & Hg & Hf) | (d & -> & Hd)]]].
    + reflexivity.
    + destruct v as [ | | | | | [|kv d]]; cbn in Hv |- *; rewrite ?Hv; try reflexivity.
      discriminate.
    + destruct v as [ | | | | | d]; try discriminate Hg;
        rewrite Hg, Hf; now destruct (truthy _).
    + destruct d as [|kv d]; [reflexivity|].
      remember (kv :: d) as d' eqn:Hd'.
      destruct (lookup (Methods.response_key m) d'); now rewrite Hd.
Qed.

Lemma methods_none_witness :
  Methods.invoke default_limit (fun _ => Raise (Exn Exception_ "timeout"))
    (Methods.get_session_law_by_bill "2023-24" 1234) = Return VNone
  /\ Methods.invoke default_limit
       (fun _ => Return (VList [VDict [("bill_id", VStr "HB 1234")]]))
       (Methods.get_legislation "2023-24" "1234") = Return VNone.
Proof.
  split.
  - apply (proj2 (methods_none default_limit (fun _ => Raise (Exn Exception_ "timeout"))
                    (Methods.get_session_law_by_bill "2023-24" 1234))).
    left. eexists. eexists. split; [reflexivity | split; reflexivity].
  - apply (proj2 (methods_none default_limit
                    (fun _ => Return (VList [VDict [("bill_id", VStr "HB 1234")]]))
                    (Methods.get_legislation "2023-24" "1234"))).
    right; right; left. eexists. eexists. eexists.
    split; [reflexivity | split; reflexivity].
Defined.

(** X3. When the answer of the library is a non-empty mapping, the method
    returns what the mapping holds under its key, unchanged and whatever its
    type, and its default when the key is missing; the default is the empty
    list for the keys that start with array_of_ and None for the two others,
    session_law and legislation. *)
Theorem methods_unwrap_the_answer
  (lim : int_limit) (api : Methods.method -> result value) (m : Methods.method)
  (d : list (string * value))
  (Hanswer : api m = Return (VDict d))
  (Hnonempty : d <> []) :
  Methods.invoke lim api m =
  Return (match lookup (Methods.response_key m) d with
          | Some x => x
          | None => if prefix "array_of_" (Methods.response_key m)
                    then VList [] else VNone
          end)
  /\ (prefix "array_of_" (Methods.response_key m) = false ->
      Methods.response_key m = "session_law" \/ Methods.response_key m = "legislation").
Proof.
  split.
  - unfold Methods.invoke. rewrite unwrap_eq, Hanswer.
    destruct d as [|kv d]; [contradiction|].
    remember (kv :: d) as d' eqn:Hd'.
    destruct (lookup (Methods.response_key m) d'); [reflexivity|].
    destruct m; reflexivity.
  - destruct m; cbn; intros H; try discriminate; auto.
Qed.

Lemma methods_unwrap_the_answer_witness :
  Methods.invoke default_limit (fun _ => Return (VDict [("status", VStr "ok")]))
    (Methods.get_sponsors "2023-24") = Return (VList [])
  /\ Methods.invoke default_limit (fun _ => Return (VDict [("status", VStr "ok")]))
       (Methods.get_bill_by_chapter_number 2023 1 42) = Return VNone.
Proof.
  split.
  - apply (methods_unwrap_the_answer default_limit
             (fun _ => Return (VDict [("status", VStr "ok")]))
             (Methods.get_sponsors "2023-24") [("status", VStr "ok")]);
      [reflexivity | discriminate].
  - apply (methods_unwrap_the_answer default_limit
             (fun _ => Return (VDict [("status", VStr "ok")]))
             (Methods.get_bill_by_chapter_number 2023 1 42) [("status", VStr "ok")]);
      [reflexivity | discriminate].
Defined.

(** X4. The three methods that take dates: when [fromisoformat] rejects a
    date with an instance of [Exception] whose [str] returns, so that the
    message of the log line is formatted, the method returns None whatever
    the library would answer (the begin date is parsed first); when the
    dates are accepted, the method unwraps the answer of the library for the
    parsed dates. *)
Theorem date_methods
  (datetime : Type) (fromisoformat : string -> result datetime) (lim : int_limit)
  (begin_date end_date : string) :
  (forall e message,
      fromisoformat begin_date = Raise e
      \/ (exists t, fromisoformat begin_date = Return t)
         /\ fromisoformat end_date = Raise e ->
      isinstance_Exception e = true ->
      exn_str e = Return message ->
      (forall api committee_name agency,
          Methods.get_legislation_reported_out_of_committee datetime fromisoformat lim
            api committee_name agency begin_date end_date = Return VNone)
      /\ (forall api biennium,
             Methods.get_legislative_status_changes datetime fromisoformat lim
               api biennium begin_date end_date = Return VNone))
  /\ (forall e message,
         fromisoformat begin_date = Raise e ->
         isinstance_Exception e = true ->
         exn_str e = Return message ->
         forall api,
           Methods.get_revised_committee_meetings datetime fromisoformat lim
             api begin_date = Return VNone)
  /\ (forall t1 t2,
         fromisoformat begin_date = Return t1 ->
         fromisoformat end_date = Return t2 ->
         (forall api committee_name agency,
             Methods.get_legislation_reported_out_of_committee datetime fromisoformat lim
               api committee_name agency begin_date end_date =
             Methods.unwrap lim
               [Methods.Lit "Failed to get bills reported out of ";
                Methods.FStr committee_name; Methods.Lit " from ";
                Methods.FStr begin_date; Methods.Lit " to "; Methods.FStr end_date;
                Methods.Lit ": "; Methods.FExn]
               "array_of_legislation_info" (VList [])
               (api committee_name agency t1 t2))
         /\ (forall api biennium,
                Methods.get_legislative_status_changes datetime fromisoformat lim
                  api biennium begin_date end_date =
                Methods.unwrap lim
                  [Methods.Lit "Failed to get status changes for ";
                   Methods.FStr biennium; Methods.Lit " from ";
                   Methods.FStr begin_date; Methods.Lit " to "; Methods.FStr end_date;
                   Methods.Lit ": "; Methods.FExn]
                  "array_of_legislative_status_change" (VList [])
                  (api biennium t1 t2))
         /\ (forall api,
                Methods.get_revised_committee_meetings datetime fromisoformat lim
                  api begin_date =
                Methods.unwrap lim
                  [Methods.Lit "Failed to get revised meetings since ";
                   Methods.FStr begin_date; Methods.Lit ": "; Methods.FExn]
                  "array_of_committee_meeting" (VList []) (api t1))).
Proof.
  unfold Methods.get_legislation_reported_out_of_committee,
    Methods.get_legislative_status_changes, Methods.get_revised_committee_meetings.
  split; [|split].
  - intros e message [Hb | [(t & Hb) He]] Hexc Hs; rewrite Hb; cbn [rbind]; rewrite ?He;
      split; intros; unfold Methods.unwrap, Methods.try_block; cbn;
      now rewrite Hexc, Hs.
  - intros e message Hb Hexc Hs api. rewrite Hb.
    unfold Methods.unwrap, Methods.try_block; cbn. now rewrite Hexc, Hs.
  - intros t1 t2 -> ->. repeat split; reflexivity.
Qed.

Lemma date_methods_witness :
  Methods.get_legislative_status_changes Z
    (fun s => if String.eqb s "2023-01-15" then Return 20230115
              else Raise (Exn ValueError ("Invalid isoformat string: " ++ repr_str s)))
    default_limit
    (fun _ _ _ => Return (VDict [("array_of_legislative_status_change",
                                  VList [VStr "passed"])]))
    "2023-24" "2023-01-15" "01/31/2023" = Return VNone.
Proof.
  destruct (date_methods Z
              (fun s => if String.eqb s "2023-01-15" then Return 20230115
                        else Raise (Exn ValueError
                                      ("Invalid isoformat string: " ++ repr_str s)))
              default_limit "2023-01-15" "01/31/2023") as (H & _).
  destruct (H (Exn ValueError "Invalid isoformat string: '01/31/2023'")
              "Invalid isoformat string: '01/31/2023'") as (_ & H2).
  - right. split; [exists 20230115; reflexivity | reflexivity].
  - reflexivity.
  - reflexivity.
  - apply H2.
Defined.

(** ** The tool over the client as it is shipped *)

(** The tool looks at the client at one point only. *)
Lemma get_roll_calls_frame
  (w w' : world) (bill_number : string) (biennium : option string) :
  int_max_str_digits w = int_max_str_digits w' ->
  list_sort_error w = list_sort_error w' ->
  resolve_biennium w biennium = resolve_biennium w' biennium ->
  (forall b n,
      resolve_biennium w biennium = Return b ->
      parsed_bill_number (int_max_str_digits w) bill_number = Some n ->
      wsl_client_get_roll_calls w b n = wsl_client_get_roll_calls w' b n) ->
  get_roll_calls w bill_number biennium = get_roll_calls w' bill_number biennium.
Proof.
  intros Hlim Hsort Hres Hclient.
  rewrite !get_roll_calls_eq, !try_block_eq, <- Hres, <- Hlim, <- Hsort.
  destruct (resolve_biennium w biennium) as [b|e]; [|reflexivity].
  unfold parsed_bill_number in Hclient.
  destruct (bill_digits bill_number) as [ds|e]; [|reflexivity].
  destruct (str_empty ds); [reflexivity|].
  destruct (int_of_digits (int_max_str_digits w) ds) as [n|e]; [|reflexivity].
  now rewrite (Hclient b n eq_refl eq_refl).
Qed.

(** X5. What the tool answers depends on the client only through its answer
    to the one call for the resolved biennium and the parsed bill number:
    two clients that agree there give the same result, calls included. *)
Theorem one_call_decides
  (lim : int_limit) (sort_error : list value -> string) (current : result string)
  (client client' : string -> Z -> result value)
  (bill_number : string) (biennium : option string)
  (Hagree : forall b n,
      resolve_biennium (World lim sort_error current client) biennium = Return b ->
      parsed_bill_number lim bill_number = Some n ->
      client b n = client' b n) :
  get_roll_calls (World lim sort_error current client) bill_number biennium =
  get_roll_calls (World lim sort_error current client') bill_number biennium.
Proof.
  apply get_roll_calls_frame; [reflexivity | reflexivity | reflexivity | exact Hagree].
Qed.

Lemma one_call_decides_witness :
  get_roll_calls
    (World default_limit no_sort_error (Return "2025-26")
       (fun b n => if (n =? 1234) then Return (VList [final_passage]) else Return VNone))
    "HB 1234" None =
  get_roll_calls
    (World default_limit no_sort_error (Return "2025-26")
       (fun _ _ => Return (VList [final_passage])))
    "HB 1234" None.
Proof.
  apply (one_call_decides default_limit no_sort_error (Return "2025-26")
           (fun b n => if (n =? 1234) then Return (VList [final_passage])
                       else Return VNone)
           (fun _ _ => Return (VList [final_passage])) "HB 1234" None).
  intros b n _ Hn. injection Hn as <-. reflexivity.
Defined.

(** The log line of the client method can be formatted for a bill number
    that the tool has parsed and an exception whose [str] returns. *)
Lemma client_log_is_formatted
  (lim : int_limit) (bill_number : string) (b : string) (n : Z) (e : exn) :
  parsed_bill_number lim bill_number = Some n ->
  (exists message, exn_str e = Return message) ->
  exists message,
    Methods.format lim e (Methods.log_message (Methods.get_roll_calls b n)) =
    Return message.
Proof.
  intros Hn Hs. destruct (parsed_bill_number_inv _ _ _ Hn) as (ds & _ & _ & Hint).
  destruct (parsed_number_fits _ _ _ Hint) as [_ Hfit].
  apply format_returns; [|exact Hs].
  intros z [H | [H | [H | [H | [H | [H | []]]]]]]; try discriminate H.
  injection H as <-. unfold str_of_int. rewrite Hfit. eauto.
Qed.

(** X6. With the client as it is shipped, the tool reports "no roll calls"
    with success when the library fails with an instance of [Exception]
    whose [str] returns, when its answer is falsy, when its answer is not a
    mapping (a bare list of records is dropped), and when the mapping has no
    array_of_roll_call: none of these is told from a bill without roll
    calls. *)
Theorem library_failure_is_no_roll_calls
  (lim : int_limit) (sort_error : list value -> string) (current : result string)
  (api : string -> Z -> result value)
  (bill_number : string) (biennium : option string) (b : string) (n : Z)
  (Hbiennium : resolve_biennium (shipped lim sort_error current api) biennium = Return b)
  (Hbill : parsed_bill_number lim bill_number = Some n)
  (Hlibrary :
     (exists e message,
         api b n = Raise e /\ isinstance_Exception e = true
         /\ exn_str e = Return message)
     \/ (exists v, api b n = Return v /\ truthy v = false)
     \/ (exists v, api b n = Return v /\ is_mapping v = false)
     \/ (exists d, api b n = Return (VDict d) /\ lookup "array_of_roll_call" d = None)) :
  get_roll_calls (shipped lim sort_error current api) bill_number biennium =
  ([Fetch b n], Return (empty_envelope bill_number b)).
Proof.
  destruct (parsed_bill_number_inv _ _ _ Hbill) as (ds & Hds & Hne & Hint).
  rewrite get_roll_calls_eq, try_block_eq, Hbiennium, Hds, Hne.
  cbn [int_max_str_digits shipped wsl_client_get_roll_calls]. rewrite Hint.
  rewrite client_is_unwrap, unwrap_eq.
  destruct Hlibrary
    as [(e & message & -> & -> & Hs)
       | [(v & -> & Hv) | [(v & -> & Hv) | (d & -> & Hd)]]].
  - destruct (client_log_is_formatted lim bill_number b n e Hbill) as [m ->];
      [eauto | reflexivity].
  - destruct v as [ | | | | | [|kv d]]; cbn in Hv |- *; rewrite ?Hv; try reflexivity.
    discriminate.
  - pose proof (exc_only_get v "array_of_roll_call" (VList [])) as G.
    destruct (get v "array_of_roll_call" (VList [])) as [x|e] eqn:Hg.
    + destruct v; discriminate.
    + apply built_in_message in G. destruct G as [_ G].
      destruct (client_log_is_formatted lim bill_number b n e Hbill G) as [m Hm].
      destruct v as [ | | | | | d]; try discriminate Hv;
        rewrite Hm; now destruct (truthy _).
  - destruct d as [|kv d]; [reflexivity|].
    remember (kv :: d) as d'. now rewrite Hd.
Qed.

Lemma library_failure_is_no_roll_calls_witness :
  get_roll_calls
    (shipped default_limit no_sort_error (Return "2025-26")
       (fun _ _ => Return (VList [final_passage])))
    "HB 1234" None =
  ([Fetch "2025-26" 1234], Return (empty_envelope "HB 1234" "2025-26"))
  /\ get_roll_calls
       (shipped default_limit no_sort_error (Return "2025-26")
          (fun _ _ => Raise (Exn Exception_ "timeout")))
       "HB 1234" None =
     ([Fetch "2025-26" 1234], Return (empty_envelope "HB 1234" "2025-26")).
Proof.
  split.
  - apply (library_failure_is_no_roll_calls default_limit no_sort_error
             (Return "2025-26") (fun _ _ => Return (VList [final_passage]))
             "HB 1234" None "2025-26" 1234);
      [reflexivity | reflexivity |].
    right; right; left. eexists. split; reflexivity.
  - apply (library_failure_is_no_roll_calls default_limit no_sort_error
             (Return "2025-26") (fun _ _ => Raise (Exn Exception_ "timeout"))
             "HB 1234" None "2025-26" 1234);
      [reflexivity | reflexivity |].
    left. exists (Exn Exception_ "timeout"), "timeout".
    split; [reflexivity | split; reflexivity].
Defined.

(** X7. With the client as it is shipped, the tool returns an envelope,
    which satisfies the invariant, whenever the library and the resolver
    raise only instances of [Exception] whose [str] returns. *)
Theorem shipped_tool_returns
  (lim : int_limit) (sort_error : list value -> string) (current : result string)
  (api : string -> Z -> result value)
  (bill_number : string) (biennium : option string)
  (Hlibrary : forall b n e,
      api b n = Raise e ->
      isinstance_Exception e = true /\ exists message, exn_str e = Return message)
  (Hresolver : forall e,
      current = Raise e ->
      isinstance_Exception e = true /\ exists message, exn_str e = Return message) :
  exists v,
    snd (get_roll_calls (shipped lim sort_error current api) bill_number biennium)
    = Return v
    /\ envelope_ok v = true.
Proof.
  set (w := shipped lim sort_error current api).
  assert (Hcollaborator : forall e,
             collaborator_raises w bill_number biennium e ->
             isinstance_Exception e = true /\ exists message, exn_str e = Return message).
  { intros e [Hr | (b & n & _ & Hn & Hc)].
    - apply Hresolver. exact (resolve_biennium_raises w biennium e Hr).
    - exfalso. cbn [w shipped wsl_client_get_roll_calls int_max_str_digits] in Hc, Hn.
      rewrite client_is_unwrap in Hc. apply unwrap_raises in Hc.
      destruct Hc as [[Hapi He] | (e0 & Ht & He & Hf)].
      + destruct (Hlibrary b n e Hapi) as [He' _]. congruence.
      + assert (Hs : exists message, exn_str e0 = Return message).
        { destruct (try_block_raises _ _ _ _ Ht) as [Hc | (v & _ & _ & _ & Hb)];
            [now apply (Hlibrary b n) | now apply built_in_message in Hb]. }
        destruct (client_log_is_formatted lim bill_number b n e0 Hn Hs) as [m Hm].
        congruence. }
  pose proof (get_roll_calls_result w bill_number biennium) as H.
  destruct (snd (get_roll_calls w bill_number biennium)) as [v|e']; [eauto|].
  exfalso. destruct H as [[He Hc] | (e & Hc & _ & _ & Hs)].
  - destruct (Hcollaborator e' Hc) as [He' _]. congruence.
  - destruct (Hcollaborator e Hc) as [_ [message Hm]]. congruence.
Qed.

Lemma shipped_tool_returns_witness :
  exists v,
    snd (get_roll_calls
           (shipped default_limit no_sort_error (Raise (Exn Exception_ "no calendar"))
              (fun _ _ => Raise (Exn Exception_ "timeout")))
           "HB 1234" None) = Return v
    /\ envelope_ok v = true.
Proof.
  apply (shipped_tool_returns default_limit no_sort_error
           (Raise (Exn Exception_ "no calendar"))
           (fun _ _ => Raise (Exn Exception_ "timeout")) "HB 1234" None).
  - intros b n e [= <-]. split; [reflexivity | now exists "timeout"].
  - intros e [= <-]. split; [reflexivity | now exists "no calendar"].
Defined.

(** ** The tool at the edges *)

(** X8. Every falsy answer of the client, not only None and the empty list
    but also an empty mapping, an empty string, 0 and False, is reported as
    "no roll calls" with success. *)
Theorem falsy_fetch_is_no_roll_calls
  (w : world) (bill_number : string) (biennium : option string)
  (b : string) (n : Z) (data : value)
  (Hbiennium : resolve_biennium w biennium = Return b)
  (Hbill : parsed_bill_number (int_max_str_digits w) bill_number = Some n)
  (Hfetch : wsl_client_get_roll_calls w b n = Return data)
  (Hfalsy : truthy data = false) :
  get_roll_calls w bill_number biennium =
  ([Fetch b n], Return (empty_envelope bill_number b)).
Proof.
  destruct (parsed_bill_number_inv _ _ _ Hbill) as (ds & Hds & Hne & Hint).
  rewrite get_roll_calls_eq, try_block_eq, Hbiennium, Hds, Hne, Hint, Hfetch.
  unfold no_roll_calls. now rewrite Hfalsy.
Qed.

Lemma falsy_fetch_is_no_roll_calls_witness :
  get_roll_calls (world_of (Return (VDict []))) "HB 1234" None =
  ([Fetch "2025-26" 1234], Return (empty_envelope "HB 1234" "2025-26"))
  /\ get_roll_calls (world_of (Return (VInt 0))) "HB 1234" None =
     ([Fetch "2025-26" 1234], Return (empty_envelope "HB 1234" "2025-26")).
Proof.
  split.
  - apply (falsy_fetch_is_no_roll_calls (world_of (Return (VDict []))) "HB 1234" None
             "2025-26" 1234 (VDict [])); reflexivity.
  - apply (falsy_fetch_is_no_roll_calls (world_of (Return (VInt 0))) "HB 1234" None
             "2025-26" 1234 (VInt 0)); reflexivity.
Defined.

(** X9. A truthy answer of the client that is not a list never gives a
    success: the tool returns the envelope of the unexpected failure.  For a
    number or True the message is that of [len]; for a non-empty string or
    mapping, whose items are strings, it is that of the first [.get]. *)
Theorem non_list_fetch_is_unexpected
  (w : world) (bill_number : string) (biennium : option string)
  (b : string) (n : Z) (data : value)
  (Hbiennium : resolve_biennium w biennium = Return b)
  (Hbill : parsed_bill_number (int_max_str_digits w) bill_number = Some n)
  (Hfetch : wsl_client_get_roll_calls w b n = Return data)
  (Htruthy : truthy data = true)
  (Hnolist : is_sequence data = false) :
  get_roll_calls w bill_number biennium =
  ([Fetch b n],
   Return (unexpected_envelope
             match data with
             | VStr _ | VDict _ => "'str' object has no attribute 'get'"
             | _ => "object of type '" ++ type_name data ++ "' has no len()"
             end)).
Proof.
  destruct (parsed_bill_number_inv _ _ _ Hbill) as (ds & Hds & Hne & Hint).
  rewrite get_roll_calls_eq, try_block_eq, Hbiennium, Hds, Hne, Hint, Hfetch.
  destruct data as [ | [|] | z | [|a s] | l | [|[k x] d]]; try discriminate.
  - reflexivity.
  - unfold no_roll_calls. rewrite Htruthy. reflexivity.
  - reflexivity.
  - reflexivity.
Qed.

Lemma non_list_fetch_is_unexpected_witness :
  get_roll_calls (world_of (Return (VDict [("array_of_roll_call", VList [])])))
    "HB 1234" None =
  ([Fetch "2025-26" 1234],
   Return (unexpected_envelope "'str' object has no attribute 'get'"))
  /\ get_roll_calls (world_of (Return (VInt 3))) "HB 1234" None =
     ([Fetch "2025-26" 1234],
      Return (unexpected_envelope "object of type 'int' has no len()")).
Proof.
  split.
  - apply (non_list_fetch_is_unexpected
             (world_of (Return (VDict [("array_of_roll_call", VList [])])))
             "HB 1234" None "2025-26" 1234 (VDict [("array_of_roll_call", VList [])]));
      reflexivity.
  - apply (non_list_fetch_is_unexpected (world_of (Return (VInt 3))) "HB 1234" None
             "2025-26" 1234 (VInt 3)); reflexivity.
Defined.

(** X10. A biennium that is given and not empty is used as it is, with no
    check of its format, and the resolver is not consulted: the result is
    the same with any resolver, one that fails included, and the one call to
    the client, if there is one, carries the given biennium. *)
Theorem given_biennium_is_used
  (lim : int_limit) (sort_error : list value -> string) (current current' : result string)
  (client : string -> Z -> result value) (bill_number b : string)
  (Hgiven : str_empty b = false) :
  get_roll_calls (World lim sort_error current client) bill_number (Some b) =
  get_roll_calls (World lim sort_error current' client) bill_number (Some b)
  /\ fst (get_roll_calls (World lim sort_error current client) bill_number (Some b)) =
     match parsed_bill_number lim bill_number with
     | Some n => [Fetch b n]
     | None => []
     end.
Proof.
  split.
  - apply get_roll_calls_frame; cbn; rewrite ?Hgiven; reflexivity.
  - rewrite client_calls. cbn. now rewrite Hgiven.
Qed.

Lemma given_biennium_is_used_witness :
  get_roll_calls
    (World default_limit no_sort_error (Return "2025-26") (fun _ _ => Return VNone))
    "HB 1234" (Some "last year") =
  get_roll_calls
    (World default_limit no_sort_error (Raise (Exn Exception_ "no calendar"))
       (fun _ _ => Return VNone))
    "HB 1234" (Some "last year")
  /\ fst (get_roll_calls
            (World default_limit no_sort_error (Return "2025-26")
               (fun _ _ => Return VNone))
            "HB 1234" (Some "last year")) = [Fetch "last year" 1234].
Proof.
  apply (given_biennium_is_used default_limit no_sort_error (Return "2025-26")
           (Raise (Exn Exception_ "no calendar")) (fun _ _ => Return VNone)
           "HB 1234" "last year").
  reflexivity.
Defined.

(** X11. The biennium is resolved before the bill number is looked at: when
    no biennium is given, or the empty string, and the resolver raises an
    instance of [Exception], the tool calls no client whatever the bill
    number, valid or not.  It returns the envelope of "Invalid bill number:
    ..." if the exception is a [ValueError]; otherwise it returns the
    envelope of the unexpected failure with the message that [str] of the
    exception returns, and when [str] of the exception raises, what it
    raises leaves the tool. *)
Theorem resolver_failure_is_reported
  (w : world) (bill_number : string) (biennium : option string) (e : exn)
  (Habsent : biennium = None \/ biennium = Some EmptyString)
  (Hresolver : get_current_biennium w = Raise e)
  (Hexception : isinstance_Exception e = true) :
  get_roll_calls w bill_number biennium =
  ([], if isinstance_ValueError e
       then Return (invalid_number_envelope bill_number)
       else match exn_str e with
            | Return message => Return (unexpected_envelope message)
            | Raise e' => Raise e'
            end).
Proof.
  rewrite get_roll_calls_eq, try_block_eq.
  assert (Hr : resolve_biennium w biennium = Raise e)
    by (destruct Habsent as [-> | ->]; exact Hresolver).
  rewrite Hr. unfold handle. rewrite Hexception.
  destruct (isinstance_ValueError e); [reflexivity|].
  now destruct (exn_str e).
Qed.

Lemma resolver_failure_is_reported_witness :
  get_roll_calls
    (World default_limit no_sort_error (Raise (Exn Exception_ "no calendar"))
       (fun _ _ => Return VNone))
    "INVALID" None =
  ([], Return (unexpected_envelope "no calendar"))
  /\ get_roll_calls
       (World default_limit no_sort_error
          (Raise (Unprintable Exception_ (exceeds_to_str default_limit)))
          (fun _ _ => Return VNone))
       "HB 1234" None =
     ([], Raise (exceeds_to_str default_limit)).
Proof.
  split.
  - apply (resolver_failure_is_reported
             (World default_limit no_sort_error (Raise (Exn Exception_ "no calendar"))
                (fun _ _ => Return VNone))
             "INVALID" None (Exn Exception_ "no calendar"));
      [left; reflexivity | reflexivity | reflexivity].
  - apply (resolver_failure_is_reported
             (World default_limit no_sort_error
                (Raise (Unprintable Exception_ (exceeds_to_str default_limit)))
                (fun _ _ => Return VNone))
             "HB 1234" None (Unprintable Exception_ (exceeds_to_str default_limit)));
      [left; reflexivity | reflexivity | reflexivity].
Defined.

(** X12. The tool has five answers and no other: the two validation
    envelopes, the envelope of the unexpected failure, the success without
    roll calls and the success with roll calls.  In the two successes the
    bill number is the input as it was given, untrimmed, and the biennium is
    the resolved one. *)
Theorem five_answers
  (w : world) (bill_number : string) (biennium : option string) (v : value)
  (Hreturns : snd (get_roll_calls w bill_number biennium) = Return v) :
  v = invalid_format_envelope bill_number
  \/ v = invalid_number_envelope bill_number
  \/ (exists message, v = unexpected_envelope message)
  \/ (exists b, resolve_biennium w biennium = Return b
                /\ v = empty_envelope bill_number b)
  \/ (exists b roll_calls,
         resolve_biennium w biennium = Return b
         /\ v = success_envelope bill_number b roll_calls).
Proof.
  assert (Hh : forall t e,
             snd (t : list event, handle bill_number e) = Return v ->
             v = invalid_number_envelope bill_number
             \/ exists message, v = unexpected_envelope message).
  { intros t e. cbn [snd]. unfold handle.
    destruct (isinstance_ValueError e); [intros [= <-]; now left|].
    destruct (isinstance_Exception e); [|discriminate].
    destruct (exn_str e); [intros [= <-]; right; eauto | discriminate]. }
  revert Hreturns. rewrite get_roll_calls_eq, try_block_eq.
  destruct (resolve_biennium w biennium) as [b|e];
    [|intros H; destruct (Hh _ _ H); auto].
  destruct (bill_digits bill_number) as [ds|e];
    [|intros H; destruct (Hh _ _ H); auto].
  destruct (str_empty ds); [intros [= <-]; now left|].
  destruct (int_of_digits _ ds) as [n|e];
    [|intros H; destruct (Hh _ _ H); auto].
  destruct (wsl_client_get_roll_calls w b n) as [data|e];
    [|intros H; destruct (Hh _ _ H); auto].
  destruct (no_roll_calls data) as [[|]|e];
    [intros [= <-]; right; right; right; left; eauto | |
     intros H; destruct (Hh _ _ H); auto].
  destruct (formatted_roll_calls _ _ data) as [l|e];
    [intros [= <-]; right; right; right; right; eauto |
     intros H; destruct (Hh _ _ H); auto].
Qed.

Lemma five_answers_witness :
  success_envelope "HB 1234" "2023-24" [final_passage_out] =
  invalid_format_envelope "HB 1234"
  \/ success_envelope "HB 1234" "2023-24" [final_passage_out] =
     invalid_number_envelope "HB 1234"
  \/ (exists message,
         success_envelope "HB 1234" "2023-24" [final_passage_out] =
         unexpected_envelope message)
  \/ (exists b,
         resolve_biennium (world_of (Return (VList [final_passage]))) (Some "2023-24") =
         Return b
         /\ success_envelope "HB 1234" "2023-24" [final_passage_out] =
            empty_envelope "HB 1234" b)
  \/ (exists b roll_calls,
         resolve_biennium (world_of (Return (VList [final_passage]))) (Some "2023-24") =
         Return b
         /\ success_envelope "HB 1234" "2023-24" [final_passage_out] =
            success_envelope "HB 1234" b roll_calls).
Proof.
  apply (five_answers (world_of (Return (VList [final_passage]))) "HB 1234"
           (Some "2023-24")).
  reflexivity.
Defined.

(** ** The bill number, further *)

Section BillNumber.

Local Abbreviation la := list_ascii_of_string.

Lemma la_append (s t : string) : la (s ++ t) = (la s ++ la t)%list.
Proof. induction s as [|a s IH]; simpl; [reflexivity | now rewrite IH]. Qed.

Lemma drop_while_all (p : ascii -> bool) (l1 l2 : list ascii) :
  forallb p l1 = true -> Spec.drop_while p (l1 ++ l2) = Spec.drop_while p l2.
Proof.
  induction l1 as [|a l1 IH]; simpl; [reflexivity|].
  destruct (p a); simpl; [exact IH | discriminate].
Qed.

Lemma drop_while_some (p : ascii -> bool) (l1 l2 : list ascii) :
  forallb p l1 = false ->
  Spec.drop_while p (l1 ++ l2) = (Spec.drop_while p l1 ++ l2)%list.
Proof.
  induction l1 as [|a l1 IH]; simpl; [discriminate|].
  destruct (p a); simpl; [exact IH | reflexivity].
Qed.

Lemma drop_while_none (p : ascii -> bool) (l : list ascii) :
  forallb p l = true -> Spec.drop_while p l = [].
Proof.
  induction l as [|a l IH]; simpl; [reflexivity|].
  destruct (p a); simpl; [exact IH | discriminate].
Qed.

Lemma drop_while_not_all (p : ascii -> bool) (l : list ascii) :
  forallb p l = false -> Spec.drop_while p l <> [].
Proof.
  induction l as [|a l IH]; simpl; [discriminate|].
  destruct (p a); simpl; [exact IH | discriminate].
Qed.

Lemma trim_padding (w1 l w2 : list ascii) :
  forallb isspace w1 = true -> forallb isspace w2 = true ->
  Spec.trim (w1 ++ l ++ w2) = Spec.trim l.
Proof.
  intros H1 H2. unfold Spec.trim. rewrite (drop_while_all _ _ _ H1).
  destruct (forallb isspace l) eqn:Hl.
  - rewrite (drop_while_all _ _ _ Hl), (drop_while_none _ _ H2),
      (drop_while_none _ _ Hl). reflexivity.
  - rewrite (drop_while_some _ _ _ Hl), rev_app_distr.
    rewrite drop_while_all by (now rewrite forallb_rev'). reflexivity.
Qed.

(** X13. Blanks around the bill number do not count: whitespace before and
    after the input changes neither the digits that lines 71-77 compute nor
    the bill number. *)
Theorem padding_is_ignored
  (lim : int_limit) (before after bill_number : string)
  (Hbefore : forallb isspace (la before) = true)
  (Hafter : forallb isspace (la after) = true) :
  bill_digits (before ++ bill_number ++ after) = bill_digits bill_number
  /\ parsed_bill_number lim (before ++ bill_number ++ after) =
     parsed_bill_number lim bill_number.
Proof.
  assert (H : bill_digits (before ++ bill_number ++ after) = bill_digits bill_number).
  { rewrite !bill_digits_spec. unfold Spec.candidate.
    now rewrite !la_append, (trim_padding _ _ _ Hbefore Hafter). }
  split; [exact H|]. unfold parsed_bill_number. now rewrite H.
Qed.

Lemma padding_is_ignored_witness :
  bill_digits ("  " ++ "HB 1234" ++ String "010" EmptyString) = bill_digits "HB 1234"
  /\ parsed_bill_number default_limit ("  " ++ "HB 1234" ++ String "010" EmptyString) =
     parsed_bill_number default_limit "HB 1234".
Proof.
  apply (padding_is_ignored default_limit "  " (String "010" EmptyString) "HB 1234");
    reflexivity.
Defined.

Lemma take_while_all (p : ascii -> bool) (l1 l2 : list ascii) (a : ascii) :
  forallb p l1 = true -> p a = false ->
  Spec.take_while p (l1 ++ a :: l2) = l1.
Proof.
  intros H1 Ha. induction l1 as [|b l1 IH]; simpl in *.
  - now rewrite Ha.
  - destruct (p b); simpl in *; [now rewrite IH | discriminate].
Qed.

Lemma nonspace_no_space (l : list ascii) :
  forallb nonspace l = true -> existsb (fun a => Ascii.eqb a " ") l = false.
Proof.
  intros H. destruct (existsb (fun a => Ascii.eqb a " ") l) eqn:E; [|reflexivity].
  apply existsb_space in E. congruence.
Qed.

Lemma drop_while_nonspace (l : list ascii) :
  l <> [] -> forallb nonspace l = true -> Spec.drop_while isspace l = l.
Proof.
  destruct l as [|a l]; [contradiction|]. intros _. simpl.
  unfold nonspace at 1. destruct (isspace a); [discriminate | reflexivity].
Qed.

Lemma candidate_last (pre token : list ascii) :
  token <> [] -> forallb nonspace token = true ->
  Spec.candidate (pre ++ " "%char :: token) = token.
Proof.
  intros Hne Htok.
  assert (Hrev : Spec.drop_while isspace (List.rev token) = List.rev token).
  { apply drop_while_nonspace.
    - intros H. apply (f_equal (@List.rev ascii)) in H.
      rewrite rev_involutive in H. contradiction.
    - now rewrite forallb_rev'. }
  unfold Spec.candidate, Spec.trim.
  destruct (forallb isspace pre) eqn:Hpre.
  - rewrite (drop_while_all _ _ _ Hpre). cbn [Spec.drop_while].
    change (isspace " ") with true. cbv iota.
    rewrite (drop_while_nonspace _ Hne Htok), Hrev, rev_involutive.
    now rewrite (nonspace_no_space _ Htok).
  - rewrite (drop_while_some _ _ _ Hpre).
    set (pre' := Spec.drop_while isspace pre).
    assert (Hl : List.rev (pre' ++ " "%char :: token) =
                 (List.rev token ++ " "%char :: List.rev pre')%list).
    { rewrite rev_app_distr. simpl. now rewrite <- app_assoc. }
    rewrite Hl.
    assert (Hd : Spec.drop_while isspace (List.rev token ++ " "%char :: List.rev pre') =
                 (List.rev token ++ " "%char :: List.rev pre')%list).
    { destruct (List.rev token) as [|a r] eqn:Er.
      - apply (f_equal (@List.rev ascii)) in Er. rewrite rev_involutive in Er.
        contradiction.
      - simpl in Hrev |- *. destruct (isspace a); [|reflexivity].
        exfalso. assert (Hlen := f_equal (@List.length ascii) Hrev).
        clear -Hlen. simpl in Hlen.
        assert (Hle : forall l, (List.length (Spec.drop_while isspace l)
                                 <= List.length l)%nat).
        { induction l as [|b l IH]; simpl; [lia|].
          destruct (isspace b); simpl; lia. }
        specialize (Hle r). lia. }
    rewrite Hd, <- Hl, rev_involutive.
    assert (He : existsb (fun a => Ascii.eqb a " ") (pre' ++ " "%char :: token) = true).
    { rewrite existsb_app. simpl. apply orb_true_r. }
    rewrite He. unfold Spec.last_token. rewrite Hl.
    fold nonspace.
    rewrite take_while_all; [apply rev_involutive | now rewrite forallb_rev' | reflexivity].
Qed.

Lemma bill_digits_prefix (prefix token : string) :
  str_empty token = false -> forallb nonspace (la token) = true ->
  bill_digits (prefix ++ " " ++ token) = Return (str_filter isdigit token).
Proof.
  intros Htoken Hnonspace.
  assert (Hne : la token <> []) by (destruct token; [discriminate | discriminate]).
  rewrite bill_digits_spec, la_append. cbn [append la].
  rewrite (candidate_last _ _ Hne Hnonspace), <- str_filter_la.
  now rewrite string_of_list_ascii_of_string.
Qed.

Lemma bill_digits_token (token : string) :
  str_empty token = false -> forallb nonspace (la token) = true ->
  bill_digits token = Return (str_filter isdigit token).
Proof.
  intros Htoken Hnonspace.
  assert (Hne : la token <> []) by (destruct token; [discriminate | discriminate]).
  rewrite bill_digits_spec. unfold Spec.candidate, Spec.trim.
  rewrite (drop_while_nonspace _ Hne Hnonspace).
  rewrite drop_while_nonspace, rev_involutive.
  - rewrite (nonspace_no_space _ Hnonspace), <- str_filter_la.
    now rewrite string_of_list_ascii_of_string.
  - intros H. apply (f_equal (@List.rev ascii)) in H.
    rewrite rev_involutive in H. contradiction.
  - now rewrite forallb_rev'.
Qed.

(** X14. What stands before the last space is ignored altogether: for every
    prefix, "HB", "SB" or anything else, digits included, and every
    non-empty token without whitespace, the digits of prefix + " " + token
    are the digits of the token; House and Senate bills of one number give
    the same call. *)
Theorem prefix_is_ignored
  (lim : int_limit) (prefix token : string)
  (Htoken : str_empty token = false)
  (Hnonspace : forallb nonspace (la token) = true) :
  bill_digits (prefix ++ " " ++ token) = Return (str_filter isdigit token)
  /\ parsed_bill_number lim (prefix ++ " " ++ token) = parsed_bill_number lim token.
Proof.
  split; [now apply bill_digits_prefix|]. unfold parsed_bill_number.
  now rewrite bill_digits_prefix, bill_digits_token.
Qed.

Lemma prefix_is_ignored_witness :
  bill_digits ("HB2 " ++ " " ++ "1234a") = Return "1234"
  /\ bill_digits ("1234" ++ " " ++ "HB") = Return EmptyString.
Proof.
  split.
  - apply (proj1 (prefix_is_ignored default_limit "HB2 " "1234a" eq_refl eq_refl)).
  - apply (proj1 (prefix_is_ignored default_limit "1234" "HB" eq_refl eq_refl)).
Defined.

Lemma forallb_filter' (p : ascii -> bool) (l : list ascii) :
  forallb p (filter p l) = true.
Proof.
  induction l as [|a l IH]; simpl; [reflexivity|].
  destruct (p a) eqn:E; simpl; [now rewrite E|exact IH].
Qed.

(** X15. Lines 71-77 never raise, the index [-1] after [split] included, and
    what they return has digits only, in the sense of [isdigit]. *)
Theorem digits_never_fail (bill_number : string) :
  exists ds, bill_digits bill_number = Return ds
             /\ forallb isdigit (la ds) = true.
Proof.
  rewrite bill_digits_spec. eexists. split; [reflexivity|].
  rewrite list_ascii_of_string_of_list_ascii. apply forallb_filter'.
Qed.

(** X16. The tool calls the client at most once, and a call carries the
    resolved biennium and a bill number that is not negative: a sign in the
    input is dropped with the other non-digits. *)
Theorem calls_carry_a_natural_number
  (w : world) (bill_number : string) (biennium : option string) (b : string) (n : Z)
  (Hcall : In (Fetch b n) (fst (get_roll_calls w bill_number biennium))) :
  0 <= n
  /\ resolve_biennium w biennium = Return b
  /\ fst (get_roll_calls w bill_number biennium) = [Fetch b n].
Proof.
  rewrite client_calls in *.
  destruct (resolve_biennium w biennium) as [b'|e]; [|contradiction].
  destruct (parsed_bill_number _ bill_number) as [n'|] eqn:Hn; [|contradiction].
  destruct Hcall as [[= <- <-] | []].
  repeat split.
  destruct (parsed_bill_number_inv _ _ _ Hn) as (ds & _ & _ & Hint).
  unfold int_of_digits in Hint.
  destruct (decimal_run ds =? 0)%nat; [discriminate|].
  destruct (over_limit _ _); [discriminate|].
  destruct (decimal_value 0 ds) as [z|] eqn:Hz; [|discriminate].
  injection Hint as <-. apply (decimal_value_nonneg ds 0 z); [lia | exact Hz].
Qed.

Lemma calls_carry_a_natural_number_witness :
  0 <= 1234
  /\ resolve_biennium (world_of (Return VNone)) None = Return "2025-26"
  /\ fst (get_roll_calls (world_of (Return VNone)) "-1234" None) =
     [Fetch "2025-26" 1234].
Proof.
  apply (calls_carry_a_natural_number (world_of (Return VNone)) "-1234" None
           "2025-26" 1234).
  left. reflexivity.
Defined.

Lemma str_filter_all (p : ascii -> bool) (s : string) :
  forallb p (la s) = true -> str_filter p s = s.
Proof.
  induction s as [|a s IH]; simpl; [reflexivity|].
  destruct (p a); simpl; [intros H; now rewrite IH | discriminate].
Qed.

Lemma decimal_is_digit_nonspace (l : list ascii) :
  forallb isdecimal l = true ->
  forallb isdigit l = true /\ forallb nonspace l = true.
Proof.
  induction l as [|a l IH]; simpl; [auto|].
  intros H. apply andb_true_iff in H. destruct H as [Ha Hl].
  destruct (IH Hl) as [H1 H2]. rewrite H1, H2.
  unfold isdigit, nonspace, isspace. rewrite Ha.
  unfold isdecimal in Ha. apply andb_true_iff in Ha. destruct Ha as [Ha1 Ha2].
  apply N.leb_le in Ha1, Ha2. split; [reflexivity|].
  repeat rewrite andb_true_r.
  replace (ord a <=? 13)%N with false by (symmetry; apply N.leb_gt; lia).
  replace (ord a <=? 32)%N with false by (symmetry; apply N.leb_gt; lia).
  replace (ord a =? 133)%N with false by (symmetry; apply N.eqb_neq; lia).
  replace (ord a =? 160)%N with false by (symmetry; apply N.eqb_neq; lia).
  now rewrite !andb_false_r.
Qed.

Lemma int_digits_spec (n : Z) :
  0 <= n ->
  str_empty (int_digits n) = false
  /\ forallb isdecimal (la (int_digits n)) = true
  /\ decimal_value 0 (int_digits n) = Some n.
Proof.
  intros Hn. unfold int_digits.
  pose proof (DecimalN.Unsigned.of_to (Z.abs_N n)) as Hof.
  assert (Habs : Z.of_N (Z.abs_N n) = n) by (rewrite N2Z.inj_abs_N; lia).
  destruct (N.to_uint (Z.abs_N n)) as [|d|d|d|d|d|d|d|d|d|d] eqn:E;
    try (cbn [NilZero.string_of_uint];
         split; [reflexivity|]; split; [apply string_of_uint_decimal|];
         rewrite decimal_value_of_uint; unfold N.of_uint in Hof; now rewrite Hof, Habs).
  cbn in Hof. rewrite <- Hof in Habs. cbn in Habs. subst n.
  repeat split.
Qed.

(** X17. The decimal writing of a number is read back: for every [n >= 0]
    whose digits the interpreter's limit allows, the tool parses [str(n)],
    alone or after any prefix and a space, to [n]. *)
Theorem decimal_writing_is_read_back
  (lim : int_limit) (n : Z) (prefix : string)
  (Hnat : 0 <= n)
  (Hlimit : over_limit lim (String.length (int_digits n)) = false) :
  str_of_int lim n = Return (int_digits n)
  /\ parsed_bill_number lim (int_digits n) = Some n
  /\ parsed_bill_number lim (prefix ++ " " ++ int_digits n) = Some n.
Proof.
  destruct (int_digits_spec n Hnat) as (Hne & Hdec & Hval).
  destruct (decimal_is_digit_nonspace _ Hdec) as [Hdig Hns].
  assert (Hint : int_of_digits lim (int_digits n) = Return n).
  { unfold int_of_digits.
    rewrite (decimal_run_all _ Hdec), <- string_length_la, Hlimit, Hval.
    destruct (int_digits n); [discriminate | reflexivity]. }
  split; [|split].
  - unfold str_of_int. rewrite Hlimit.
    destruct (n <? 0) eqn:E; [apply Z.ltb_lt in E; lia | reflexivity].
  - unfold parsed_bill_number.
    rewrite (bill_digits_token _ Hne Hns), (str_filter_all _ _ Hdig), Hne, Hint.
    reflexivity.
  - unfold parsed_bill_number.
    rewrite (bill_digits_prefix prefix _ Hne Hns), (str_filter_all _ _ Hdig), Hne, Hint.
    reflexivity.
Qed.

Lemma decimal_writing_is_read_back_witness :
  str_of_int default_limit 5678 = Return (int_digits 5678)
  /\ parsed_bill_number default_limit (int_digits 5678) = Some 5678
  /\ parsed_bill_number default_limit ("SB" ++ " " ++ int_digits 5678) = Some 5678.
Proof.
  apply (decimal_writing_is_read_back default_limit 5678 "SB"); [lia | reflexivity].
Defined.

Lemma ascii_digit_is_decimal (a : ascii) :
  (ord a <? 128)%N = true -> isdigit a = isdecimal a.
Proof.
  intros H. apply N.ltb_lt in H. unfold isdigit.
  replace (ord a =? 178)%N with false by (symmetry; apply N.eqb_neq; lia).
  replace (ord a =? 179)%N with false by (symmetry; apply N.eqb_neq; lia).
  replace (ord a =? 185)%N with false by (symmetry; apply N.eqb_neq; lia).
  now rewrite !orb_false_r.
Qed.

Lemma forallb_drop_while (p q : ascii -> bool) (l : list ascii) :
  forallb p l = true -> forallb p (Spec.drop_while q l) = true.
Proof.
  induction l as [|a l IH]; simpl; [reflexivity|].
  intros H. destruct (q a); [|exact H].
  apply andb_true_iff in H. now apply IH.
Qed.

Lemma forallb_take_while (p q : ascii -> bool) (l : list ascii) :
  forallb p l = true -> forallb p (Spec.take_while q l) = true.
Proof.
  induction l as [|a l IH]; simpl; [reflexivity|].
  intros H. apply andb_true_iff in H. destruct H as [Ha Hl].
  destruct (q a); simpl; [now rewrite Ha, IH | reflexivity].
Qed.

Lemma forallb_candidate (p : ascii -> bool) (l : list ascii) :
  forallb p l = true -> forallb p (Spec.candidate l) = true.
Proof.
  intros H.
  assert (Ht : forallb p (Spec.trim l) = true).
  { unfold Spec.trim. rewrite forallb_rev'. apply forallb_drop_while.
    rewrite forallb_rev'. now apply forallb_drop_while. }
  unfold Spec.candidate. destruct (existsb _ _); [|exact Ht].
  unfold Spec.last_token. rewrite forallb_rev'. apply forallb_take_while.
  now rewrite forallb_rev'.
Qed.

Lemma forallb_filter_both (p q : ascii -> bool) (l : list ascii) :
  forallb p l = true -> forallb p (filter q l) = true.
Proof.
  induction l as [|a l IH]; simpl; [reflexivity|].
  intros H. apply andb_true_iff in H. destruct H as [Ha Hl].
  destruct (q a); simpl; [now rewrite Ha, IH | now apply IH].
Qed.

(** X18. For an input of ASCII characters the bill number is refused in two
    cases only: there is no digit in what is kept of the input, or there are
    more digits than the interpreter's limit.  Without a limit, an ASCII
    input with a digit in its last token always has a bill number. *)
Theorem ascii_input_is_refused
  (lim : int_limit) (bill_number : string)
  (Hascii : forallb (fun a => (ord a <? 128)%N) (la bill_number) = true) :
  exists ds,
    bill_digits bill_number = Return ds
    /\ (parsed_bill_number lim bill_number = None <->
        str_empty ds = true \/ over_limit lim (String.length ds) = true).
Proof.
  rewrite parsed_bill_number_spec, bill_digits_spec.
  unfold Spec.canonical_bill_number.
  set (l := filter isdigit (Spec.candidate (la bill_number))).
  exists (string_of_list_ascii l). split; [reflexivity|].
  rewrite str_empty_la, string_length_la, list_ascii_of_string_of_list_ascii.
  assert (Hdec : forallb isdecimal l = true).
  { subst l. pose proof (forallb_candidate _ _ Hascii) as Hc.
    induction (Spec.candidate (la bill_number)) as [|a c IH]; [reflexivity|].
    cbn [forallb] in Hc. apply andb_true_iff in Hc. destruct Hc as [Ha Hc].
    cbn [filter]. destruct (isdigit a) eqn:Hd; [|now apply IH].
    cbn [forallb]. rewrite <- (ascii_digit_is_decimal a Ha), Hd. now apply IH. }
  unfold Spec.integer. rewrite Hdec.
  destruct l as [|a l']; [split; auto|].
  destruct (over_limit lim (List.length (a :: l'))); cbn [andb negb]; split;
    try discriminate; auto.
  intros [H | H]; discriminate.
Qed.

Lemma ascii_input_is_refused_witness :
  exists ds,
    bill_digits "HB-12a4" = Return ds
    /\ (parsed_bill_number Unlimited "HB-12a4" = None <->
        str_empty ds = true \/ over_limit Unlimited (String.length ds) = true).
Proof.
  apply (ascii_input_is_refused Unlimited "HB-12a4"). reflexivity.
Defined.

End BillNumber.

(** ** The assembled records, further *)

Lemma get_dict (d : list (string * value)) (k : string) (default : value) :
  get (VDict d) k default =
  Return (match lookup k d with Some x => x | None => default end).
Proof. reflexivity. Qed.

Lemma format_vote_inv (lim : int_limit) (vote out : value) :
  format_vote lim vote = Return out ->
  exists d district,
    vote = VDict d
    /\ str lim (match lookup "district" d with
                | Some x => x | None => VStr EmptyString end) = Return district
    /\ out = VDict [("legislator_name",
                     match lookup "name" d with
                     | Some x => x | None => VStr EmptyString end);
                    ("vote",
                     match lookup "vote_value" d with
                     | Some x => x | None => VStr EmptyString end);
                    ("district", VStr district);
                    ("party",
                     match lookup "party" d with
                     | Some x => x | None => VStr EmptyString end)].
Proof.
  destruct vote as [ | | | | | d]; try discriminate.
  unfold format_vote. rewrite !get_dict. cbn [rbind].
  destruct (str lim _) as [district|e] eqn:Hs; [|discriminate].
  cbn [rbind]. intros [= <-]. exists d, district. auto.
Qed.

Lemma mapM_length {A B} (f : A -> result B) (l : list A) (l' : list B) :
  mapM f l = Return l' -> List.length l' = List.length l.
Proof.
  intros H. apply mapM_Forall2 in H.
  induction H; simpl; [reflexivity | now f_equal].
Qed.

Lemma format_roll_call_inv (lim : int_limit) (roll_call out : value) :
  format_roll_call lim roll_call = Return out ->
  exists d votes votes_list,
    roll_call = VDict d
    /\ (votes_array <-
          votes_array_of (match lookup "votes" d with
                          | Some x => x | None => VDict [] end) ;;
        iter votes_array) = Return votes
    /\ mapM (format_vote lim) votes = Return votes_list
    /\ out = VDict [("sequence_number",
                     match lookup "sequence_number" d with
                     | Some x => x | None => VInt 0 end);
                    ("date",
                     match lookup "vote_date" d with
                     | Some x => x | None => VStr EmptyString end);
                    ("description",
                     match lookup "motion" d with
                     | Some x => x | None => VStr EmptyString end);
                    ("yea_votes",
                     match lookup "yea_count" d with
                     | Some x => x | None => VInt 0 end);
                    ("nay_votes",
                     match lookup "nay_count" d with
                     | Some x => x | None => VInt 0 end);
                    ("absent_votes",
                     match lookup "absent_count" d with
                     | Some x => x | None => VInt 0 end);
                    ("excused_votes",
                     match lookup "excused_count" d with
                     | Some x => x | None => VInt 0 end);
                    ("votes", VList votes_list)].
Proof.
  destruct roll_call as [ | | | | | d]; try discriminate.
  unfold format_roll_call. rewrite !get_dict. cbn [rbind].
  destruct (votes_array_of _) as [va|e] eqn:Hva; [|discriminate]. cbn [rbind].
  destruct (iter va) as [vs|e] eqn:Hi; [|discriminate]. cbn [rbind].
  destruct (mapM (format_vote lim) vs) as [vl|e] eqn:Hm; [|discriminate]. cbn [rbind].
  intros [= <-]. exists d, vs, vl. repeat split; auto.
  rewrite Hva. exact Hi.
Qed.

(** X19. Whenever a record is assembled, the result is a mapping with
    exactly the keys sequence_number, date, description, yea_votes,
    nay_votes, absent_votes, excused_votes and votes; votes is a list with
    one entry for each vote of the payload, each a mapping with exactly
    legislator_name, vote, district and party, the district being a
    string. *)
Theorem assembled_record_shape
  (lim : int_limit) (roll_call out : value)
  (Hassembled : format_roll_call lim roll_call = Return out) :
  exists sequence_number date description yea nay absent excused votes_list,
    out = VDict [("sequence_number", sequence_number); ("date", date);
                 ("description", description);
                 ("yea_votes", yea); ("nay_votes", nay);
                 ("absent_votes", absent); ("excused_votes", excused);
                 ("votes", VList votes_list)]
    /\ Forall (fun entry =>
                 exists name vote district party,
                   entry = VDict [("legislator_name", name); ("vote", vote);
                                  ("district", VStr district); ("party", party)])
         votes_list
    /\ exists votes_data votes_array votes,
         get roll_call "votes" (VDict []) = Return votes_data
         /\ votes_array_of votes_data = Return votes_array
         /\ iter votes_array = Return votes
         /\ List.length votes_list = List.length votes.
Proof.
  destruct (format_roll_call_inv _ _ _ Hassembled)
    as (d & votes & votes_list & -> & Hvotes & Hmap & ->).
  do 8 eexists. split; [reflexivity|]. split.
  - apply mapM_Forall2 in Hmap. clear -Hmap.
    induction Hmap as [|v o vs os Ho _ IH]; constructor; [|exact IH].
    destruct (format_vote_inv _ _ _ Ho) as (dv & district & _ & _ & ->).
    do 4 eexists. reflexivity.
  - rewrite get_dict.
    destruct (votes_array_of _) as [va|e] eqn:Hva; [|discriminate].
    cbn [rbind] in Hvotes.
    exists (match lookup "votes" d with Some x => x | None => VDict [] end), va, votes.
    repeat split; [exact Hva | exact Hvotes|].
    now apply mapM_length in Hmap.
Qed.

Lemma assembled_record_shape_witness :
  exists sequence_number date description yea nay absent excused votes_list,
    final_passage_out =
    VDict [("sequence_number", sequence_number); ("date", date);
           ("description", description);
           ("yea_votes", yea); ("nay_votes", nay);
           ("absent_votes", absent); ("excused_votes", excused);
           ("votes", VList votes_list)]
    /\ Forall (fun entry =>
                 exists name vote district party,
                   entry = VDict [("legislator_name", name); ("vote", vote);
                                  ("district", VStr district); ("party", party)])
         votes_list
    /\ exists votes_data votes_array votes,
         get final_passage "votes" (VDict []) = Return votes_data
         /\ votes_array_of votes_data = Return votes_array
         /\ iter votes_array = Return votes
         /\ List.length votes_list = List.length votes.
Proof.
  apply (assembled_record_shape default_limit final_passage final_passage_out).
  reflexivity.
Defined.

Lemma repr_unlimited (v : value) : exists s, repr Unlimited v = Return s.
Proof.
  induction v as [ | b | z | s | l IH | d IH] using value_induction; cbn [repr];
    try (eexists; reflexivity).
  - assert (H : exists rs,
               (fix items (l : list value) : result (list string) :=
                  match l with
                  | [] => Return []
                  | x :: xs =>
                      r <- repr Unlimited x ;; rs <- items xs ;; Return (r :: rs)
                  end) l = Return rs).
    { induction IH as [|x l (r & Hx) _ (rs & IHl)]; [eexists; reflexivity|].
      rewrite Hx. cbn [rbind]. rewrite IHl. eexists; reflexivity. }
    destruct H as (rs & ->). eexists; reflexivity.
  - assert (H : exists rs,
               (fix items (d : list (string * value)) : result (list string) :=
                  match d with
                  | [] => Return []
                  | (k, x) :: d' =>
                      r <- repr Unlimited x ;; rs <- items d' ;;
                      Return ((repr_str k ++ ": " ++ r) :: rs)
                  end) d = Return rs).
    { induction IH as [|[k x] d (r & Hx) _ (rs & IHd)]; [eexists; reflexivity|].
      cbn [snd] in Hx. rewrite Hx. cbn [rbind]. rewrite IHd. eexists; reflexivity. }
    destruct H as (rs & ->). eexists; reflexivity.
Qed.

Lemma str_unlimited (v : value) : exists s, str Unlimited v = Return s.
Proof.
  destruct v; try apply repr_unlimited. eexists; reflexivity.
Qed.





(** ** The sort, further *)

Lemma insert_perm (x : value * value) (s r : list (value * value)) :
  insert x s = Some r -> Permutation (x :: s) r.
Proof.
  revert r. induction s as [|y ys IH]; intros r; cbn [insert].
  - intros [= <-]. apply Permutation_refl.
  - destruct (py_lt (fst y) (fst x)) as [[|]|e]; [| |discriminate].
    + destruct (insert x ys) as [r'|]; [|discriminate].
      intros [= <-]. rewrite perm_swap. constructor. now apply IH.
    + intros [= <-]. apply Permutation_refl.
Qed.

Lemma sort_keyed_perm (l s : list (value * value)) :
  sort_keyed l = Some s -> Permutation l s.
Proof.
  revert s. induction l as [|x xs IH]; intros s; cbn [sort_keyed].
  - intros [= <-]. constructor.
  - destruct (sort_keyed xs) as [s'|]; [|discriminate].
    intros H. apply insert_perm in H. rewrite <- H. constructor. now apply IH.
Qed.

Lemma mapM_keys_snd (key : value -> result value) (l : list value)
  (kl : list (value * value)) :
  mapM (fun x => k <- key x ;; Return (k, x)) l = Return kl -> map snd kl = l.
Proof.
  revert kl. induction l as [|x xs IH]; intros kl; cbn [mapM].
  - intros [= <-]. reflexivity.
  - destruct (key x) as [k|e]; [|discriminate]. cbn [rbind].
    destruct (mapM _ xs) as [kl'|e]; [|discriminate]. cbn [rbind].
    intros [= <-]. cbn. f_equal. now apply IH.
Qed.

Lemma list_sort_perm (sort_error : list value -> string)
  (key : value -> result value) (l out : list value) :
  list_sort sort_error key l = Return out -> Permutation l out.
Proof.
  unfold list_sort.
  destruct (mapM _ l) as [kl|e] eqn:Hk; [|discriminate]. cbn [rbind].
  destruct (sort_keyed kl) as [s|] eqn:Hs; [|discriminate].
  intros [= <-]. rewrite <- (mapM_keys_snd _ _ _ Hk).
  apply Permutation_map. now apply sort_keyed_perm.
Qed.

Lemma success_envelope_inv
  (w : world) (bill_number : string) (biennium : option string)
  (b : string) (roll_calls : list value) :
  snd (get_roll_calls w bill_number biennium) =
  Return (success_envelope bill_number b roll_calls) ->
  exists n data,
    resolve_biennium w biennium = Return b
    /\ parsed_bill_number (int_max_str_digits w) bill_number = Some n
    /\ wsl_client_get_roll_calls w b n = Return data
    /\ no_roll_calls data = Return false
    /\ formatted_roll_calls (int_max_str_digits w) (list_sort_error w) data
       = Return roll_calls.
Proof.
  assert (Hh : forall t e,
             snd (t : list event, handle bill_number e) <>
             Return (success_envelope bill_number b roll_calls)).
  { intros t e. cbn [snd]. unfold handle.
    destruct (isinstance_ValueError e); [discriminate|].
    destruct (isinstance_Exception e); [|discriminate].
    destruct (exn_str e); discriminate. }
  rewrite get_roll_calls_eq, try_block_eq. unfold parsed_bill_number.
  destruct (resolve_biennium w biennium) as [b'|e]; [|intros H; now apply Hh in H].
  destruct (bill_digits bill_number) as [ds|e]; [|intros H; now apply Hh in H].
  destruct (str_empty ds); [discriminate|].
  destruct (int_of_digits _ ds) as [n|e]; [|intros H; now apply Hh in H].
  destruct (wsl_client_get_roll_calls w b' n) as [data|e] eqn:Hfetch;
    [|intros H; now apply Hh in H].
  destruct (no_roll_calls data) as [[|]|e] eqn:Hno;
    [discriminate | | intros H; now apply Hh in H].
  destruct (formatted_roll_calls _ _ data) as [l|e] eqn:Hfmt;
    [|intros H; now apply Hh in H].
  cbn [snd]. intros [= <- <-]. exists n, data. auto.
Qed.

(** X21. The sort only reorders: whatever the sequence numbers are, when the
    tool returns roll calls they are the records that the client returned,
    each assembled, in some order; none is dropped or doubled, and count is
    the number of records fetched. *)
Theorem roll_calls_are_the_records
  (w : world) (bill_number : string) (biennium : option string)
  (b : string) (roll_calls : list value)
  (Hsuccess : snd (get_roll_calls w bill_number biennium) =
              Return (success_envelope bill_number b roll_calls)) :
  exists n records assembled,
    wsl_client_get_roll_calls w b n = Return (VList records)
    /\ mapM (format_roll_call (int_max_str_digits w)) records = Return assembled
    /\ Permutation assembled roll_calls
    /\ List.length roll_calls = List.length records.
Proof.
  destruct (success_envelope_inv _ _ _ _ _ Hsuccess)
    as (n & data & _ & _ & Hfetch & Hno & Hfmt).
  unfold formatted_roll_calls in Hfmt.
  destruct (iter data) as [items|e] eqn:Hi; [|discriminate]. cbn [rbind] in Hfmt.
  destruct (mapM _ items) as [assembled|e] eqn:Hm; [|discriminate].
  cbn [rbind] in Hfmt. apply list_sort_perm in Hfmt.
  assert (Hdata : data = VList items).
  { destruct data as [ | | | s | l | d]; try discriminate.
    - destruct s as [|a s]; [discriminate Hno|].
      cbn in Hi. injection Hi as <-. discriminate Hm.
    - now injection Hi as <-.
    - destruct d as [|[k x] d]; [discriminate Hno|].
      cbn in Hi. injection Hi as <-. discriminate Hm. }
  subst data. exists n, items, assembled. repeat split; auto.
  rewrite <- (Permutation_length Hfmt). now apply mapM_length in Hm.
Qed.

Lemma roll_calls_are_the_records_witness :
  exists n records assembled,
    wsl_client_get_roll_calls (world_of (Return (VList three_readings))) "2025-26" n =
    Return (VList records)
    /\ mapM (format_roll_call default_limit) records = Return assembled
    /\ Permutation assembled
         [reading_out 1 "2023-03-15" "First Reading";
          reading_out 2 "2023-03-18" "Second Reading";
          reading_out 3 "2023-03-20" "Third Reading"]
    /\ List.length [reading_out 1 "2023-03-15" "First Reading";
                    reading_out 2 "2023-03-18" "Second Reading";
                    reading_out 3 "2023-03-20" "Third Reading"] =
       List.length records.
Proof.
  apply (roll_calls_are_the_records (world_of (Return (VList three_readings)))
           "HB 1234" None "2025-26").
  reflexivity.
Defined.

(** X22. A single record is never refused for its sequence number: with one
    record there is nothing to compare, and the roll calls are that record,
    assembled, whatever it has under sequence_number. *)
Theorem single_record_is_not_compared
  (lim : int_limit) (sort_error : list value -> string) (roll_call out : value)
  (Hassembled : format_roll_call lim roll_call = Return out) :
  formatted_roll_calls lim sort_error (VList [roll_call]) = Return [out].
Proof.
  unfold formatted_roll_calls. cbn [iter rbind mapM]. rewrite Hassembled. cbn [rbind].
  destruct (format_roll_call_inv _ _ _ Hassembled) as (d & vs & vl & _ & _ & _ & ->).
  reflexivity.
Qed.

Lemma single_record_is_not_compared_witness :
  formatted_roll_calls default_limit no_sort_error
    (VList [VDict [("sequence_number", VNone)]]) =
  Return [VDict [("sequence_number", VNone); ("date", VStr EmptyString);
                 ("description", VStr EmptyString);
                 ("yea_votes", VInt 0); ("nay_votes", VInt 0);
                 ("absent_votes", VInt 0); ("excused_votes", VInt 0);
                 ("votes", VList [])]].
Proof.
  apply (single_record_is_not_compared default_limit no_sort_error
           (VDict [("sequence_number", VNone)])).
  reflexivity.
Defined.

Lemma sort_keyed_sorted (l : list (value * value)) :
  Forall keyed l -> StronglySorted key_le l -> sort_keyed l = Some l.
Proof.
  intros Hk Hs. induction Hs as [|x xs Hs IH Hall]; [reflexivity|].
  inversion Hk as [|? ? Hx Hxs]; subst.
  cbn [sort_keyed]. rewrite (IH Hxs).
  destruct xs as [|y ys]; [reflexivity|].
  inversion Hxs as [|? ? Hy _]; subst. inversion Hall as [|? ? Hxy _]; subst.
  cbn [insert]. rewrite (keyed_lt x y Hx Hy).
  unfold key_le in Hxy.
  destruct (key_int y <? key_int x) eqn:E; [apply Z.ltb_lt in E; lia | reflexivity].
Qed.

Lemma with_key_int (r : value) (z : Z) :
  sequence_number r = Some z -> key_int (with_key r) = z.
Proof.
  unfold sequence_number, with_key, key_int. cbn [fst].
  destruct (sort_key r) as [[ | | z' | | | ]|]; try discriminate.
  now intros [= ->].
Qed.

Lemma sorted_with_key (l : list value) :
  StronglySorted sequence_le l -> StronglySorted key_le (map with_key l).
Proof.
  intros Hs. induction Hs as [|x xs Hs IH Hall]; [constructor|].
  cbn [map]. constructor; [exact IH|].
  apply Forall_map. eapply Forall_impl; [|exact Hall].
  intros y (a & c & Ha & Hc & Hle). unfold key_le.
  now rewrite (with_key_int _ _ Ha), (with_key_int _ _ Hc).
Qed.

Lemma list_sort_sorted (sort_error : list value -> string) (l : list value) :
  Forall (fun r => exists z, sequence_number r = Some z) l ->
  StronglySorted sequence_le l ->
  list_sort sort_error sort_key l = Return l.
Proof.
  intros Hl Hs. destruct (mapM_with_key l Hl) as [Hm Hk].
  unfold list_sort. rewrite Hm. cbn [rbind].
  rewrite (sort_keyed_sorted _ Hk (sorted_with_key _ Hs)).
  now rewrite map_snd_with_key.
Qed.

(** X23. Records that the client returns in ascending order of their int
    sequence numbers are returned in that same order: the sort changes
    nothing in a list that is sorted. *)
Theorem sorted_records_keep_their_order
  (w : world) (bill_number : string) (biennium : option string)
  (b : string) (n : Z) (records assembled : list value)
  (Hbiennium : resolve_biennium w biennium = Return b)
  (Hbill : parsed_bill_number (int_max_str_digits w) bill_number = Some n)
  (Hfetch : wsl_client_get_roll_calls w b n = Return (VList records))
  (Hnonempty : records <> [])
  (Hint : Forall (fun rc => exists z, get rc "sequence_number" (VInt 0) = Return (VInt z))
            records)
  (Hassembled : mapM (format_roll_call (int_max_str_digits w)) records = Return assembled)
  (Hsorted : StronglySorted sequence_le assembled) :
  get_roll_calls w bill_number biennium =
  ([Fetch b n], Return (success_envelope bill_number b assembled)).
Proof.
  destruct (parsed_bill_number_inv _ _ _ Hbill) as (ds & Hds & Hne & Hparse).
  pose proof (assembled_keys _ _ _ Hint Hassembled) as Hkeys.
  rewrite get_roll_calls_eq, try_block_eq, Hbiennium, Hds, Hne, Hparse, Hfetch.
  assert (Hno : no_roll_calls (VList records) = Return false).
  { destruct records; [contradiction | reflexivity]. }
  rewrite Hno. unfold formatted_roll_calls. cbn [iter rbind].
  rewrite Hassembled. cbn [rbind]. now rewrite (list_sort_sorted _ _ Hkeys Hsorted).
Qed.

Lemma sorted_records_keep_their_order_witness :
  get_roll_calls
    (world_of (Return (VList [reading 1 "2023-03-15" "First Reading";
                              reading 1 "2023-03-16" "Reconsideration";
                              reading 2 "2023-03-18" "Second Reading"])))
    "HB 1234" None =
  ([Fetch "2025-26" 1234],
   Return (success_envelope "HB 1234" "2025-26"
             [reading_out 1 "2023-03-15" "First Reading";
              reading_out 1 "2023-03-16" "Reconsideration";
              reading_out 2 "2023-03-18" "Second Reading"])).
Proof.
  apply (sorted_records_keep_their_order
           (world_of (Return (VList [reading 1 "2023-03-15" "First Reading";
                                     reading 1 "2023-03-16" "Reconsideration";
                                     reading 2 "2023-03-18" "Second Reading"])))
           "HB 1234" None "2025-26" 1234
           [reading 1 "2023-03-15" "First Reading";
            reading 1 "2023-03-16" "Reconsideration";
            reading 2 "2023-03-18" "Second Reading"]).
  - reflexivity.
  - reflexivity.
  - reflexivity.
  - discriminate.
  - repeat constructor; eexists; reflexivity.
  - reflexivity.
  - repeat constructor;
      (exists 1, 1; repeat split; lia) || (exists 1, 2; repeat split; lia).
Defined.

Lemma mapM_perm {A B} (f : A -> result B) (l l' : list A) :
  Permutation l l' ->
  forall a, mapM f l = Return a ->
            exists a', mapM f l' = Return a' /\ Permutation a a'.
Proof.
  induction 1 as [|x l l' _ IH|x y l|l l' l'' _ IH1 _ IH2]; intros a; cbn [mapM].
  - intros [= <-]. exists []. split; [reflexivity | constructor].
  - destruct (f x) as [u|e]; [|discriminate]. cbn [rbind].
    destruct (mapM f l) as [us|e]; [|discriminate]. cbn [rbind]. intros [= <-].
    destruct (IH us eq_refl) as (us' & -> & Hp). cbn [rbind].
    exists (u :: us'). split; [reflexivity | now constructor].
  - destruct (f y) as [v|e]; [|discriminate]. cbn [rbind].
    destruct (f x) as [u|e]; [|discriminate]. cbn [rbind].
    destruct (mapM f l) as [us|e]; [|discriminate]. cbn [rbind]. intros [= <-].
    exists (u :: v :: us). split; [reflexivity | apply perm_swap].
  - intros Ha. destruct (IH1 a Ha) as (a' & Ha' & Hp1).
    destruct (IH2 a' Ha') as (a'' & Ha'' & Hp2).
    exists a''. split; [exact Ha'' | now transitivity a'].
Qed.

Lemma sequence_number_key (x : value) (z : Z) :
  sequence_number x = Some z -> sort_key x = Return (VInt z).
Proof.
  unfold sequence_number.
  destruct (sort_key x) as [[ | | z' | | | ]|]; try discriminate.
  now intros [= ->].
Qed.

Lemma sorted_unique (l : list value) :
  forall l',
    Permutation l l' ->
    StronglySorted sequence_le l -> StronglySorted sequence_le l' ->
    NoDup (map sort_key l) ->
    l = l'.
Proof.
  induction l as [|x xs IH]; intros l' Hp Hs Hs' Hnd.
  - apply Permutation_nil in Hp. now subst.
  - destruct l' as [|y ys].
    { apply Permutation_sym, Permutation_nil in Hp. discriminate. }
    inversion Hs as [|? ? Hsx Hallx]; subst.
    inversion Hs' as [|? ? Hsy Hally]; subst.
    cbn [map] in Hnd. inversion Hnd as [|? ? Hnotin Hnd']; subst.
    assert (Hxy : x = y).
    { assert (Hy : In y (x :: xs))
        by (apply (Permutation_in y (Permutation_sym Hp)); now left).
      assert (Hx : In x (y :: ys)) by (apply (Permutation_in x Hp); now left).
      destruct Hy as [Hy | Hy]; [exact Hy|]. exfalso. apply Hnotin.
      rewrite Forall_forall in Hallx, Hally.
      destruct (Hallx y Hy) as (a & c & Ha & Hc & Hac).
      destruct Hx as [Hx | Hx].
      - subst y. now apply in_map.
      - destruct (Hally x Hx) as (c' & a' & Hc' & Ha' & Hca).
        assert (a = c) by (rewrite Ha in Ha'; rewrite Hc in Hc';
                           injection Ha' as <-; injection Hc' as <-; lia).
        subst c.
        rewrite (sequence_number_key _ _ Ha), <- (sequence_number_key _ _ Hc).
        now apply in_map. }
    subst y. f_equal.
    apply IH; auto. now apply Permutation_cons_inv in Hp.
Qed.

Lemma assembled_sort_keys (lim : int_limit) (records assembled : list value) :
  mapM (format_roll_call lim) records = Return assembled ->
  map sort_key assembled =
  map (fun rc => get rc "sequence_number" (VInt 0)) records.
Proof.
  intros H. apply mapM_Forall2 in H.
  induction H as [|rc r rcs rs Hr _ IH]; [reflexivity|].
  cbn [map]. now rewrite IH, (format_roll_call_key _ _ _ Hr).
Qed.

(** X24. With int sequence numbers that are all different, the roll calls do
    not depend on the order in which the client returns the records: two
    answers that list the same records give the same result. *)
Theorem fetch_order_is_irrelevant
  (lim : int_limit) (sort_error : list value -> string) (current : result string)
  (client client' : string -> Z -> result value)
  (bill_number : string) (biennium : option string)
  (b : string) (n : Z) (records records' assembled : list value)
  (Hbiennium : resolve_biennium (World lim sort_error current client) biennium = Return b)
  (Hbill : parsed_bill_number lim bill_number = Some n)
  (Hfetch : client b n = Return (VList records))
  (Hfetch' : client' b n = Return (VList records'))
  (Hsame : Permutation records records')
  (Hint : Forall (fun rc => exists z, get rc "sequence_number" (VInt 0) = Return (VInt z))
            records)
  (Hdistinct : NoDup (map (fun rc => get rc "sequence_number" (VInt 0)) records))
  (Hassembled : mapM (format_roll_call lim) records = Return assembled) :
  get_roll_calls (World lim sort_error current client) bill_number biennium =
  get_roll_calls (World lim sort_error current client') bill_number biennium.
Proof.
  destruct (parsed_bill_number_inv _ _ _ Hbill) as (ds & Hds & Hne & Hparse).
  destruct (mapM_perm _ _ _ Hsame _ Hassembled) as (assembled' & Hassembled' & Hp).
  pose proof (assembled_keys _ _ _ Hint Hassembled) as Hkeys.
  pose proof (assembled_keys _ _ _ (Permutation_Forall Hsame Hint) Hassembled')
    as Hkeys'.
  destruct (list_sort_spec sort_error _ Hkeys) as (out & Hout & Hpo & Hso & _).
  destruct (list_sort_spec sort_error _ Hkeys') as (out' & Hout' & Hpo' & Hso' & _).
  assert (Heq : out = out').
  { apply sorted_unique; auto.
    - now rewrite <- Hpo, Hp.
    - apply (Permutation_NoDup (Permutation_map sort_key Hpo)).
      now rewrite (assembled_sort_keys _ _ _ Hassembled). }
  subst out'.
  assert (Hres : resolve_biennium (World lim sort_error current client') biennium
                 = Return b)
    by exact Hbiennium.
  rewrite !get_roll_calls_eq, !try_block_eq, Hbiennium, Hres, Hds, Hne.
  cbn [int_max_str_digits list_sort_error wsl_client_get_roll_calls].
  rewrite Hparse, Hfetch, Hfetch'.
  assert (Hno : no_roll_calls (VList records) = no_roll_calls (VList records')).
  { destruct records as [|r rs], records' as [|r' rs']; try reflexivity.
    - apply Permutation_nil in Hsame. discriminate.
    - apply Permutation_sym, Permutation_nil in Hsame. discriminate. }
  rewrite <- Hno. unfold formatted_roll_calls. cbn [iter rbind].
  rewrite Hassembled, Hassembled'. cbn [rbind]. now rewrite Hout, Hout'.
Qed.

Lemma fetch_order_is_irrelevant_witness :
  get_roll_calls
    (World default_limit no_sort_error (Return "2025-26")
       (fun _ _ => Return (VList three_readings)))
    "HB 1234" None =
  get_roll_calls
    (World default_limit no_sort_error (Return "2025-26")
       (fun _ _ => Return (VList (List.rev three_readings))))
    "HB 1234" None.
Proof.
  apply (fetch_order_is_irrelevant default_limit no_sort_error (Return "2025-26")
           (fun _ _ => Return (VList three_readings))
           (fun _ _ => Return (VList (List.rev three_readings)))
           "HB 1234" None "2025-26" 1234
           three_readings (List.rev three_readings) three_readings_out).
  - reflexivity.
  - reflexivity.
  - reflexivity.
  - reflexivity.
  - apply Permutation_rev.
  - repeat constructor; eexists; reflexivity.
  - repeat constructor; cbn; intuition discriminate.
  - reflexivity.
Defined.

(** ** Without the limit on the digits *)

Lemma nve_bind {A B} (r : result A) (k : A -> result B) :
  no_value_error r -> (forall a, no_value_error (k a)) -> no_value_error (rbind r k).
Proof. destruct r as [a|e]; simpl; auto. Qed.

Lemma nve_mapM {A B} (f : A -> result B) (l : list A) :
  (forall x, no_value_error (f x)) -> no_value_error (mapM f l).
Proof.
  intros Hf. induction l as [|x l IH]; simpl; [exact I|].
  apply nve_bind; [apply Hf|]. intros y.
  apply nve_bind; [exact IH|]. intros ys. exact I.
Qed.

Lemma nve_get (v : value) (k : string) (default : value) :
  no_value_error (get v k default).
Proof. destruct v; simpl; auto. Qed.

Lemma nve_iter (v : value) : no_value_error (iter v).
Proof. destruct v; simpl; auto. Qed.

Lemma nve_len (v : value) : no_value_error (len v).
Proof. destruct v; simpl; auto. Qed.

Lemma nve_str_unlimited (v : value) : no_value_error (str Unlimited v).
Proof. destruct (str_unlimited v) as (s & ->). exact I. Qed.

Lemma nve_py_lt (a b : value) : no_value_error (py_lt a b).
Proof.
  revert b.
  induction a as [ | x | z | s | l IH | d IH] using value_induction; intros b;
    try (destruct b; simpl; auto; fail).
  destruct b as [ | | | | m | ]; simpl; auto.
  revert m. induction IH as [|x l Hx _ IHl]; intros [|y m]; try exact I.
  destruct (py_eq x y); [apply IHl | apply Hx].
Qed.

Lemma nve_votes_array_of (votes_data : value) :
  no_value_error (votes_array_of votes_data).
Proof. destruct votes_data; simpl; auto. Qed.

Ltac nve_step :=
  first [ exact I
        | apply nve_get | apply nve_iter | apply nve_len
        | apply nve_str_unlimited | apply nve_votes_array_of
        | apply nve_bind; [|intro] ].

Lemma nve_format_vote (vote : value) : no_value_error (format_vote Unlimited vote).
Proof. unfold format_vote. repeat nve_step. Qed.

Lemma nve_format_roll_call (roll_call : value) :
  no_value_error (format_roll_call Unlimited roll_call).
Proof.
  unfold format_roll_call.
  repeat first [ nve_step | apply nve_mapM; intro; apply nve_format_vote ].
Qed.

Lemma nve_formatted_roll_calls (sort_error : list value -> string) (data : value) :
  no_value_error (formatted_roll_calls Unlimited sort_error data).
Proof.
  unfold formatted_roll_calls, list_sort.
  apply nve_bind; [apply nve_iter|]. intros items.
  apply nve_bind; [apply nve_mapM; intro; apply nve_format_roll_call|].
  intros formatted. apply nve_bind.
  - apply nve_mapM. intros x. apply nve_bind; [apply nve_get|]. intros k. exact I.
  - intros keyed. destruct (sort_keyed keyed); [exact I | split; reflexivity].
Qed.

Lemma nve_no_roll_calls (data : value) : no_value_error (no_roll_calls data).
Proof.
  unfold no_roll_calls. destruct (negb (truthy data)); [exact I|].
  apply nve_bind; [apply nve_len|]. intros n. exact I.
Qed.

(** X25. On an interpreter without the limit on the digits of an int, once
    the bill number is parsed and the client has returned, the tool never
    answers "Invalid bill number": it returns one of the two successes or
    the envelope of the unexpected failure.  A validation error after the
    parse can then come from a [ValueError] of the client only. *)
Theorem no_late_validation_error
  (w : world) (bill_number : string) (biennium : option string)
  (b : string) (n : Z) (data : value)
  (Hunlimited : int_max_str_digits w = Unlimited)
  (Hbiennium : resolve_biennium w biennium = Return b)
  (Hbill : parsed_bill_number Unlimited bill_number = Some n)
  (Hfetch : wsl_client_get_roll_calls w b n = Return data) :
  exists v,
    get_roll_calls w bill_number biennium = ([Fetch b n], Return v)
    /\ (v = empty_envelope bill_number b
        \/ (exists roll_calls, v = success_envelope bill_number b roll_calls)
        \/ (exists message, v = unexpected_envelope message)).
Proof.
  destruct (parsed_bill_number_inv _ _ _ Hbill) as (ds & Hds & Hne & Hint).
  rewrite get_roll_calls_eq, try_block_eq, Hbiennium, Hds, Hne, Hunlimited, Hint, Hfetch.
  assert (Hh : forall e,
             isinstance_ValueError e = false /\ built_in e = true ->
             exists message,
               handle bill_number e = Return (unexpected_envelope message)).
  { intros e [Hv Hb]. apply built_in_message in Hb. destruct Hb as [He [message Hs]].
    exists message. unfold handle. now rewrite Hv, He, Hs. }
  pose proof (nve_no_roll_calls data) as Hno.
  destruct (no_roll_calls data) as [[|]|e].
  - eexists. split; [reflexivity|]. now left.
  - pose proof (nve_formatted_roll_calls (list_sort_error w) data) as Hf.
    destruct (formatted_roll_calls Unlimited (list_sort_error w) data) as [l|e].
    + eexists. split; [reflexivity|]. right; left. eauto.
    + destruct (Hh e Hf) as [message ->].
      eexists. split; [reflexivity|]. right; right. eauto.
  - destruct (Hh e Hno) as [message ->].
    eexists. split; [reflexivity|]. right; right. eauto.
Qed.

Lemma no_late_validation_error_witness :
  exists v,
    get_roll_calls
      (World Unlimited no_sort_error (Return "2025-26")
         (fun _ _ =>
            Return (VList [VDict [("votes",
                                   VList [VDict [("district", VInt (10 ^ 640))]])]])))
      "HB 1234" None = ([Fetch "2025-26" 1234], Return v)
    /\ (v = empty_envelope "HB 1234" "2025-26"
        \/ (exists roll_calls, v = success_envelope "HB 1234" "2025-26" roll_calls)
        \/ (exists message, v = unexpected_envelope message)).
Proof.
  apply (no_late_validation_error
           (World Unlimited no_sort_error (Return "2025-26")
              (fun _ _ =>
                 Return (VList [VDict [("votes",
                                        VList [VDict [("district", VInt (10 ^ 640))]])]])))
           "HB 1234" None "2025-26" 1234
           (VList [VDict [("votes", VList [VDict [("district", VInt (10 ^ 640))]])]]));
    reflexivity.
Defined.
